(** * Animal Extinction Timeline (20saksham03/Data-Art)

    A shallow embedding of the timeline's state logic: the event repository
    ([DataFetcher], the [useExtinctionEvents] hook), the filter state
    ([FilterComponent], [App.eventCounts]), the theme state
    ([ThemeComponent], the [useTheme] hook, the plain-script
    [toggleTheme]/[initializeTheme]), the modal state ([ModalComponent],
    [useModal]), the [Timeline] view selection, the [EventMarker]
    activation handlers, and the class-based page: [TimelineRenderer] and
    its coordinator [ExtinctionTimelineApp].

    JavaScript values are embedded as they exist at run time: numbers as
    the four shapes of an IEEE double that the code can tell apart,
    strings as [string], parsed JSON as an inductive [value] whose objects
    are finite maps, exceptions as an error monad. *)

From Stdlib Require Import QArith Lqa ZArith String Ascii List Permutation Sorted Bool Btauto Lia.
From stdpp Require Import base strings gmap list pretty.

Set Warnings "-register-all,-clear-no-such-hyp".
Local Open Scope string_scope.

(** ** JavaScript numbers, strings and exceptions *)

Module JS.

(** A JavaScript number.  A finite double is a rational; the model keeps
    the rational and forgets that only some rationals are doubles.  The
    only arithmetic the sources perform on possibly non-integral numbers
    is the comparator [a.year - b.year], of which [sort] reads the sign;
    IEEE subtraction rounds, but never changes the sign of the exact
    difference (gradual underflow: [a - b] is zero only when [a = b]). *)
Inductive number :=
| Finite (q : Q)
| PosInfinity
| NegInfinity
| NaN.

(** [a - b] *)
Definition sub (a b : number) : number :=
  match a, b with
  | NaN, _ | _, NaN => NaN
  | Finite x, Finite y => Finite (x - y)%Q
  | Finite _, PosInfinity => NegInfinity
  | Finite _, NegInfinity => PosInfinity
  | PosInfinity, PosInfinity => NaN
  | PosInfinity, _ => PosInfinity
  | NegInfinity, NegInfinity => NaN
  | NegInfinity, _ => NegInfinity
  end.

(** [a + b] *)
Definition add (a b : number) : number :=
  match a, b with
  | NaN, _ | _, NaN => NaN
  | Finite x, Finite y => Finite (x + y)%Q
  | PosInfinity, NegInfinity | NegInfinity, PosInfinity => NaN
  | PosInfinity, _ | _, PosInfinity => PosInfinity
  | NegInfinity, _ | _, NegInfinity => NegInfinity
  end.

(** [Number.isFinite] on a value that is already a number. *)
Definition isFinite (n : number) : bool :=
  match n with Finite _ => true | _ => false end.

(** [v > 0]; false on NaN. *)
Definition gt0 (v : number) : bool :=
  match v with
  | Finite q => match (q ?= 0)%Q with Gt => true | _ => false end
  | PosInfinity => true
  | NegInfinity | NaN => false
  end.

(** [a === b] on numbers: numeric equality, NaN differs from itself. *)
Definition num_eqb (a b : number) : bool :=
  match a, b with
  | Finite x, Finite y => Qeq_bool x y
  | PosInfinity, PosInfinity | NegInfinity, NegInfinity => true
  | _, _ => false
  end.

(** A non-negative integer such as [array.length] or a [map] index. *)
Definition of_nat (n : nat) : number := Finite (inject_Z (Z.of_nat n)).

(** The order of the extended real line on numbers; NaN is unordered. *)
Definition num_le (a b : number) : Prop :=
  match a, b with
  | NaN, _ | _, NaN => False
  | NegInfinity, _ | _, PosInfinity => True
  | Finite x, Finite y => (x <= y)%Q
  | _, _ => False
  end.

Definition isInteger (n : number) : Prop :=
  match n with Finite q => exists z : Z, (q == inject_Z z)%Q | _ => False end.

(** White space of [String.prototype.trim] among the code units below 256:
    TAB, LF, VT, FF, CR, SP and NBSP. *)
Definition is_whitespace (c : ascii) : bool :=
  match nat_of_ascii c with
  | 9 | 10 | 11 | 12 | 13 | 32 | 160 => true
  | _ => false
  end%nat.

Fixpoint trimStart (s : string) : string :=
  match s with
  | EmptyString => EmptyString
  | String c s' => if is_whitespace c then trimStart s' else s
  end.

Fixpoint trimEnd (s : string) : string :=
  match s with
  | EmptyString => EmptyString
  | String c s' =>
      match trimEnd s' with
      | EmptyString => if is_whitespace c then EmptyString else String c EmptyString
      | t => String c t
      end
  end.

(** [s.trim()] *)
Definition trim (s : string) : string := trimEnd (trimStart s).

(** [hay.includes(needle)], used to say that a message names something. *)
Fixpoint includes (needle hay : string) : bool :=
  String.prefix needle hay ||
  match hay with
  | EmptyString => false
  | String _ hay' => includes needle hay'
  end.

(** Thrown values.  [PlainError m] is [new Error(m)]; [TypeError m] and
    [ReferenceError m] are the engine's own, for a property read on
    [null] and for a name that is not bound; [TimelineError] is the class
    of [types/index.ts]. *)
Inductive Error :=
| PlainError (msg : string)
| TypeError (msg : string)
| ReferenceError (msg : string)
| TimelineError (msg code : string) (originalError : option Error).

(** [error.message] *)
Definition message (e : Error) : string :=
  match e with
  | PlainError m | TypeError m | ReferenceError m | TimelineError m _ _ => m
  end.

(** A computation that returns or throws. *)
Inductive result (A : Type) :=
| Return (a : A)
| Throw (e : Error).
Arguments Return {A} a.
Arguments Throw {A} e.

#[export] Instance result_ret : MRet result := fun A a => Return a.
#[export] Instance result_bind : MBind result := fun A B f m =>
  match m with
  | Return a => f a
  | Throw e => Throw e
  end.

(** [array.map((x, index) => f(x, index))] where [f] may throw: the first
    exception aborts the whole map. *)
Fixpoint mapi_from {A B : Type} (f : A -> nat -> result B) (index : nat)
    (l : list A) : result (list B) :=
  match l with
  | [] => Return []
  | x :: l' =>
      y ← f x index;
      ys ← mapi_from f (S index) l';
      Return (y :: ys)
  end.

Definition mapi {A B : Type} (f : A -> nat -> result B) (l : list A) :
    result (list B) :=
  mapi_from f 0 l.

(** [Array.prototype.sort(comparefn)].  ECMAScript requires the sort to
    be stable and to order by the sign of [comparefn], a NaN result
    counting as zero; which stable algorithm runs is left to the engine.
    Where [comparefn] is a consistent ordering, as [a.year - b.year] is on
    numbers other than NaN, stability leaves one possible result, so the
    choice does not show.  The model is the stable insertion sort: an
    element moves right past exactly the elements it compares strictly
    greater than. *)
Section Sort.
Context {A : Type} (comparefn : A -> A -> number).

Fixpoint sort_insert (x : A) (l : list A) : list A :=
  match l with
  | [] => [x]
  | y :: l' =>
      if gt0 (comparefn x y) then y :: sort_insert x l' else x :: l
  end.

Definition sort (l : list A) : list A := foldr sort_insert [] l.
End Sort.

(** Parsed JSON (the [unknown] that [response.json()] resolves to). *)
Inductive value :=
| Null
| Bool (b : bool)
| Num (n : number)
| Str (s : string)
| Array (items : list value)
| Object (fields : gmap string value).

(** [typeof v] *)
Definition typeof (v : value) : string :=
  match v with
  | Null | Array _ | Object _ => "object"
  | Bool _ => "boolean"
  | Num _ => "number"
  | Str _ => "string"
  end.

(** [Array.isArray(v)] *)
Definition isArray (v : value) : bool :=
  match v with Array _ => true | _ => false end.

(** [field in v] for [v] an object. *)
Definition has (v : value) (field : string) : bool :=
  match v with
  | Object fields => bool_decide (is_Some (fields !! field))
  | _ => false
  end.

(** [v[field]] or [v.field]; [None] is [undefined].  The read is total on
    everything but [null] and [undefined], whose case the caller handles. *)
Definition get (v : value) (field : string) : option value :=
  match v with
  | Object fields => fields !! field
  | _ => None
  end.

(** [Number.prototype.toString()].  The digits of a number are the
    engine's to give: the model of numbers does not say which rationals
    are doubles, and the shortest decimal that reads back as a given
    double depends on its neighbours.  The function is a parameter of
    what uses it; what a property needs of it is stated there. *)
Class NumberToString := toString : number -> string.

(** The value of [c] as a digit in [radix], if it is one. *)
Definition digit_value (radix : Z) (c : ascii) : option Z :=
  let n := Z.of_nat (nat_of_ascii c) in
  let v :=
    if (48 <=? n)%Z && (n <=? 57)%Z then Some (n - 48)%Z
    else if (97 <=? n)%Z && (n <=? 122)%Z then Some (n - 87)%Z
    else if (65 <=? n)%Z && (n <=? 90)%Z then Some (n - 55)%Z
    else None in
  match v with
  | Some d => if (d <? radix)%Z then Some d else None
  | None => None
  end.

(** The longest prefix of digits, read in [radix]; [None] where the text
    does not start with a digit. *)
Fixpoint parse_digits (radix : Z) (acc : option Z) (s : string) : option Z :=
  match s with
  | EmptyString => acc
  | String c s' =>
      match digit_value radix c with
      | Some d => parse_digits radix (Some (default 0 acc * radix + d)%Z) s'
      | None => acc
      end
  end.

(** [parseInt(string)] without a radix: leading white space is skipped,
    a sign is read, [0x] and [0X] announce base sixteen, and the digits
    that follow are read up to the first character that is not one; NaN
    where there is no digit.  The value is the exact integer; the engine
    rounds it to a double, which changes nothing below 2^53. *)
Definition parseInt (string : string) : number :=
  let text := trimStart string in
  let '(sign, text) :=
    match text with
    | String "-" text' => ((-1)%Z, text')
    | String "+" text' => (1%Z, text')
    | _ => (1%Z, text)
    end in
  let '(radix, text) :=
    match text with
    | String "0" (String "x" text') | String "0" (String "X" text') =>
        (16%Z, text')
    | _ => (10%Z, text)
    end in
  match parse_digits radix None text with
  | None => NaN
  | Some z => Finite (inject_Z (sign * z))
  end.

End JS.
Export JS.

(** ** The data model ([types/index.ts]) *)

(** [ExtinctionEvent].  The category is the string it is at run time; the
    type [AnimalCategory] only promises that it is one of three. *)
Record ExtinctionEvent := mkEvent {
  id : number;
  year : number;
  title : string;
  description : string;
  imageURL : string;
  category : string;
  location : string;
  cause : string
}.

(** What the repository reads of a [fetch] response; [json] is the outcome
    of [response.json()]. *)
Record Response := mkResponse {
  ok : bool;
  status : nat;
  statusText : string;
  json : result value
}.

(** [list.join(sep)] *)
Fixpoint join (sep : string) (l : list string) : string :=
  match l with
  | [] => ""
  | [s] => s
  | s :: l' => s +:+ sep +:+ join sep l'
  end.

(** ** Event repository, class-based ([DataFetcher]) *)

Module DataFetcher.

Definition isObject (v : value) : bool :=
  String.eqb (typeof v) "object"
  && negb (match v with Null => true | _ => false end)
  && negb (isArray v).

Definition validateString (v : option value) (fieldName : string) :
    result string :=
  match v with
  | Some (Str s) =>
      if String.eqb (trim s) "" then
        Throw (PlainError (fieldName +:+ " must be a non-empty string"))
      else Return (trim s)
  | _ => Throw (PlainError (fieldName +:+ " must be a non-empty string"))
  end.

Definition validateNumber (v : option value) (fieldName : string) :
    result number :=
  match v with
  | Some (Num n) =>
      if negb (isFinite n) then
        Throw (PlainError (fieldName +:+ " must be a valid number"))
      else Return n
  | _ => Throw (PlainError (fieldName +:+ " must be a valid number"))
  end.

Definition validCategories : list string := ["Mammals"; "Birds"; "Reptiles"].

Definition validateCategory (v : option value) (fieldName : string) :
    result string :=
  match v with
  | Some (Str s) =>
      if negb (bool_decide (s ∈ validCategories)) then
        Throw (PlainError (fieldName +:+ " must be one of: "
                           +:+ join ", " validCategories))
      else Return s
  | _ => Throw (PlainError (fieldName +:+ " must be one of: "
                            +:+ join ", " validCategories))
  end.

Definition requiredFields : list string :=
  ["id"; "year"; "title"; "description";
   "imageURL"; "category"; "location"; "cause"].

(** The loop [for (const field of requiredFields)] of [validateEvent]. *)
Fixpoint checkRequired (event : value) (index : nat) (fields : list string) :
    result unit :=
  match fields with
  | [] => Return ()
  | field :: rest =>
      if negb (has event field)
         || match get event field with
            | Some Null => true      (* === null *)
            | None => true           (* === undefined *)
            | _ => false
            end
      then Throw (PlainError ("Event at index " +:+ pretty index
                              +:+ " missing required field: " +:+ field))
      else checkRequired event index rest
  end.

Definition validateEvent (event : value) (index : nat) :
    result ExtinctionEvent :=
  if negb (isObject event) then
    Throw (PlainError ("Event at index " +:+ pretty index
                       +:+ " is not a valid object"))
  else
    _ ← checkRequired event index requiredFields;
    id ← validateNumber (get event "id") ("Event " +:+ pretty index +:+ " id");
    year ← validateNumber (get event "year")
             ("Event " +:+ pretty index +:+ " year");
    title ← validateString (get event "title")
              ("Event " +:+ pretty index +:+ " title");
    description ← validateString (get event "description")
                    ("Event " +:+ pretty index +:+ " description");
    imageURL ← validateString (get event "imageURL")
                 ("Event " +:+ pretty index +:+ " imageURL");
    category ← validateCategory (get event "category")
                 ("Event " +:+ pretty index +:+ " category");
    location ← validateString (get event "location")
                 ("Event " +:+ pretty index +:+ " location");
    cause ← validateString (get event "cause")
              ("Event " +:+ pretty index +:+ " cause");
    Return (mkEvent id year title description imageURL category location cause).

(** Returns the [events] of the validated response object. *)
Definition validateResponse (data : value) : result (list ExtinctionEvent) :=
  if negb (isObject data) then
    Throw (PlainError "Response is not a valid object")
  else if negb (has data "events") then
    Throw (PlainError "Response missing events array")
  else
    match get data "events" with
    | Some (Array items) => mapi validateEvent items
    | _ => Throw (PlainError "Response missing events array")
    end.

Definition sortEventsByYear (events : list ExtinctionEvent) :
    list ExtinctionEvent :=
  sort (fun a b => sub (year a) (year b)) events.

(** [createTimelineError].  Every thrown value of the model is an [Error]
    instance, so only the first branch is reachable.  The name
    [TimelineError] reaches this module through [import type], which
    compilation erases, yet the function uses it as a value: whether the
    name is bound when the function runs depends on the build, and is the
    parameter [TimelineError_bound].  Unbound, evaluating the name throws
    a ReferenceError. *)
Definition createTimelineError (TimelineError_bound : bool) (error : Error) :
    result Error :=
  if TimelineError_bound then
    Return (TimelineError ("Failed to load timeline data: " +:+ message error)
                          "FETCH_ERROR" (Some error))
  else Throw (ReferenceError "TimelineError is not defined").

(** [fetchEvents], given the outcome of [await fetch(this.dataUrl)]. *)
Definition fetchEvents (TimelineError_bound : bool)
    (fetched : result Response) : result (list ExtinctionEvent) :=
  let attempt :=
    response ← fetched;
    if negb (ok response) then
      Throw (PlainError ("HTTP " +:+ pretty (status response) +:+ ": "
                         +:+ statusText response))
    else
      data ← json response;
      validatedData ← validateResponse data;
      Return (sortEventsByYear validatedData) in
  match attempt with
  | Return sortedEvents => Return sortedEvents
  | Throw error =>
      timelineError ← createTimelineError TimelineError_bound error;
      Throw timelineError
  end.

End DataFetcher.

(** ** Event repository and filter, React hook ([useExtinctionEvents]) *)

Module UseExtinctionEvents.

Record State := mkState {
  events : list ExtinctionEvent;
  isLoading : bool;
  error : option string;
  activeFilter : string
}.

(** The four [useState] initial values. *)
Definition initial : State := mkState [] true None "All".

(** [typeof e.field]; an absent property reads as [undefined]. *)
Definition typeof_prop (v : option value) : string :=
  match v with
  | None => "undefined"
  | Some v => typeof v
  end.

Definition isValidEvent (event : value) : bool :=
  if negb (String.eqb (typeof event) "object")
     || match event with Null => true | _ => false end
  then false
  else
    String.eqb (typeof_prop (get event "id")) "number"
    && String.eqb (typeof_prop (get event "year")) "number"
    && String.eqb (typeof_prop (get event "title")) "string"
    && String.eqb (typeof_prop (get event "description")) "string"
    && String.eqb (typeof_prop (get event "imageURL")) "string"
    && String.eqb (typeof_prop (get event "category")) "string"
    && String.eqb (typeof_prop (get event "location")) "string"
    && String.eqb (typeof_prop (get event "cause")) "string"
    && match get event "category" with
       | Some (Str s) => bool_decide (s ∈ ["Mammals"; "Birds"; "Reptiles"])
       | _ => false
       end.

Definition num_field (v : option value) : number :=
  match v with Some (Num n) => n | _ => NaN end.
Definition str_field (v : option value) : string :=
  match v with Some (Str s) => s | _ => "" end.

(** [event as ExtinctionEvent]: the same object read at its static type. *)
Definition asEvent (event : value) : ExtinctionEvent :=
  mkEvent (num_field (get event "id")) (num_field (get event "year"))
          (str_field (get event "title")) (str_field (get event "description"))
          (str_field (get event "imageURL")) (str_field (get event "category"))
          (str_field (get event "location")) (str_field (get event "cause")).

Definition validateEvents (events : option value) :
    result (list ExtinctionEvent) :=
  match events with
  | Some (Array items) =>
      mapi (fun event index =>
              if negb (isValidEvent event) then
                Throw (PlainError ("Invalid event at index " +:+ pretty index))
              else Return (asEvent event))
           items
  | _ => Throw (PlainError "Events data is not an array")
  end.

Definition sortEventsByYear (events : list ExtinctionEvent) :
    list ExtinctionEvent :=
  sort (fun a b => sub (year a) (year b)) events.

(** [data.events]: reading a property of [null] throws; the message is
    the engine's (V8's wording here). *)
Definition read_events (data : value) : result (option value) :=
  match data with
  | Null => Throw (TypeError "Cannot read properties of null (reading 'events')")
  | _ => Return (get data "events")
  end.

(** The [try] block of [fetchEvents]. *)
Definition attempt (fetched : result Response) : result (list ExtinctionEvent) :=
  response ← fetched;
  if negb (ok response) then
    Throw (PlainError ("HTTP " +:+ pretty (status response) +:+ ": "
                       +:+ statusText response))
  else
    data ← json response;
    events ← read_events data;
    validatedEvents ← validateEvents events;
    Return (sortEventsByYear validatedEvents).

(** [fetchEvents] as a state transformer: [try], [catch], [finally]. *)
Definition fetchEvents (fetched : result Response) (st : State) : State :=
  let st1 := mkState (events st) true None (activeFilter st) in
  let st2 :=
    match attempt fetched with
    | Return sortedEvents =>
        mkState sortedEvents (isLoading st1) (error st1) (activeFilter st1)
    | Throw err =>
        mkState (events st1) (isLoading st1) (Some (message err))
                (activeFilter st1)
    end in
  mkState (events st2) false (error st2) (activeFilter st2).

(** The [useMemo] value [filteredEvents]. *)
Definition filteredEvents (st : State) : list ExtinctionEvent :=
  if String.eqb (activeFilter st) "All" then events st
  else filter (fun event => category event = activeFilter st) (events st).

(** [setActiveFilterSafe]; the argument is typed [FilterCategory] and is
    whatever string the caller passes. *)
Definition setActiveFilterSafe (filter : string) (st : State) : State :=
  let validFilters := ["All"; "Mammals"; "Birds"; "Reptiles"] in
  if bool_decide (filter ∈ validFilters) then
    mkState (events st) (isLoading st) (error st) filter
  else st.

Definition refetch (fetched : result Response) (st : State) : State :=
  fetchEvents fetched st.

End UseExtinctionEvents.

(** ** Filter state, class-based ([FilterComponent]) *)

(** [counts[key]++] on a [Record<string, number>]: an absent key reads as
    [undefined], which increments to NaN. *)
Definition increment (counts : gmap string number) (key : string) :
    gmap string number :=
  <[key := add (default NaN (counts !! key)) (of_nat 1)]> counts.

Module FilterComponent.

Record State := mkState {
  allEvents : list ExtinctionEvent;
  currentFilter : string
}.

Definition getFilteredEvents (this : State) : list ExtinctionEvent :=
  if String.eqb (currentFilter this) "All" then allEvents this
  else filter (fun event => category event = currentFilter this)
              (allEvents this).

Definition getCategoryCounts (this : State) : gmap string number :=
  let counts : gmap string number :=
    <["All" := of_nat (length (allEvents this))]>
      (<["Mammals" := of_nat 0]>
         (<["Birds" := of_nat 0]> (<["Reptiles" := of_nat 0]> ∅))) in
  foldl (fun counts event => increment counts (category event))
        counts (allEvents this).

(** A filter button as the component reads it: [dataset.category]
    ([None] where the attribute is absent) and [textContent]. *)
Record Button := mkButton {
  dataCategory : option string;
  textContent : string
}.

Definition isValidCategory (category : string) : bool :=
  bool_decide (category ∈ ["All"; "Mammals"; "Birds"; "Reptiles"]).

(** [getButtonCategory]; [null] is [None].  [x && ...] on a string: the
    empty string is falsy. *)
Definition getButtonCategory (button : Button) : option string :=
  let fromData :=
    match dataCategory button with
    | Some dataCategory =>
        negb (String.eqb dataCategory "") && isValidCategory dataCategory
    | None => false
    end in
  if fromData then dataCategory button
  else
    let textCategory := trim (textContent button) in
    if negb (String.eqb textCategory "") && isValidCategory textCategory
    then Some textCategory
    else None.

(** [updateButtonCounts] on the buttons of the page. *)
Definition updateButtonCounts `{NumberToString} (this : State)
    (buttons : list Button) : list Button :=
  let counts := getCategoryCounts this in
  map (fun button =>
         match getButtonCategory button with
         | Some category =>
             match counts !! category with
             | Some count =>
                 let originalText := category in
                 if negb (includes "(" (textContent button)) then
                   mkButton (dataCategory button)
                            (originalText +:+ " (" +:+ toString count +:+ ")")
                 else button
             | None => button
             end
         | None => button
         end)
      buttons.

(** [applyCurrentFilter]: the calls of [onFilterChange] it makes, each
    with its argument.  What it then writes on the buttons is
    [updateButtonCounts], kept apart: the fields of the component do not
    hold the buttons, and a click comes with its button as the page has
    it then. *)
Definition applyCurrentFilter (this : State) : list (list ExtinctionEvent) :=
  [getFilteredEvents this].

Definition updateEvents (events : list ExtinctionEvent) (this : State) :
    State * list (list ExtinctionEvent) :=
  let this := mkState events (currentFilter this) in
  (this, applyCurrentFilter this).

(** [setActiveFilter]; [updateActiveButton] restyles the buttons. *)
Definition setActiveFilter (category : string) (this : State) :
    State * list (list ExtinctionEvent) :=
  if String.eqb (currentFilter this) category then (this, [])
  else
    let this := mkState (allEvents this) category in
    (this, applyCurrentFilter this).

(** [handleFilterClick], for a click whose [currentTarget] is [button]. *)
Definition handleFilterClick (button : Button) (this : State) :
    State * list (list ExtinctionEvent) :=
  match getButtonCategory button with
  | None => (this, [])
  | Some category => setActiveFilter category this
  end.

Definition reset (this : State) : State * list (list ExtinctionEvent) :=
  setActiveFilter "All" this.

(** [Set.prototype.add] on a [Set] kept in insertion order. *)
Definition Set_add (x : string) (set : list string) : list string :=
  if bool_decide (x ∈ set) then set else set ++ [x].

(** [Array.from(categories)] lists the set in insertion order. *)
Definition getAvailableCategories (this : State) : list string :=
  foldl (fun categories event => Set_add (category event) categories)
        ["All"] (allEvents this).

Record FilterState := mkFilterState {
  activeCategory : string;
  filteredEvents : list ExtinctionEvent
}.

Definition getFilterState (this : State) : FilterState :=
  mkFilterState (currentFilter this) (getFilteredEvents this).

Record FilterStats := mkFilterStats {
  total : number;
  filtered : number;
  stats_activeCategory : string;
  categories : gmap string number
}.

Definition getFilterStats (this : State) : FilterStats :=
  mkFilterStats (of_nat (length (allEvents this)))
                (of_nat (length (getFilteredEvents this)))
                (currentFilter this)
                (getCategoryCounts this).

End FilterComponent.

(** ** Coordinator of the React tree ([App]) *)

Module App.

(** The [useMemo] value [eventCounts]. *)
Definition eventCounts (events : list ExtinctionEvent) : gmap string number :=
  let counts : gmap string number :=
    <["All" := of_nat (length events)]>
      (<["Mammals" := of_nat 0]>
         (<["Birds" := of_nat 0]> (<["Reptiles" := of_nat 0]> ∅))) in
  foldl (fun counts event => increment counts (category event)) counts events.

End App.

(** ** Theme state *)

Inductive Theme := light | dark.

(** The string a [Theme] is at run time. *)
Definition theme_name (t : Theme) : string :=
  match t with light => "light" | dark => "dark" end.

Definition theme_eqb (a b : Theme) : bool :=
  match a, b with
  | light, light | dark, dark => true
  | _, _ => false
  end.

(** What the theme code touches of the browser.  [storageThrows] says
    that [localStorage] access raises (private mode, quota);
    [prefersDark] is [None] where [window.matchMedia] does not exist,
    else whether [(prefers-color-scheme: dark)] matches. *)
Record Browser := mkBrowser {
  localStorage : gmap string string;
  storageThrows : bool;
  prefersDark : option bool;
  bodyClassList : gset string;
  metaThemeColor : option string;
  toggleText : string;
  toggleLabel : string
}.

(** Side effects in the order they happen. *)
Inductive Effect :=
| ClassListAdd (cls : string)
| ClassListRemove (cls : string)
| SetMetaThemeColor (color : string)
| SetToggleButton (icon label : string)
| StorageSetItem (key val : string)
| StorageSetItemFailed (key val : string)
| OnThemeChange (t : Theme).

Module ThemeComponent.

Record State := mkState {
  currentTheme : Theme;
  browser : Browser;
  effects : list Effect
}.

Definition storageKey : string := "extinction-timeline-theme".

(** [themeConfig[theme]] *)
Definition icon (t : Theme) : string :=
  match t with light => "🌙" | dark => "☀️" end.
Definition label (t : Theme) : string :=
  match t with
  | light => "Switch to dark theme"
  | dark => "Switch to light theme"
  end.
Definition className (t : Theme) : string :=
  match t with light => "" | dark => "dark-theme" end.

Definition updateMetaThemeColor (theme : Theme) (this : State) : State :=
  let color := if theme_eqb theme dark then "#1a1a1a" else "#f5f5f5" in
  let b := browser this in
  mkState (currentTheme this)
    (mkBrowser (localStorage b) (storageThrows b) (prefersDark b)
               (bodyClassList b) (Some color) (toggleText b) (toggleLabel b))
    (effects this ++ [SetMetaThemeColor color]).

Definition applyTheme (theme : Theme) (this : State) : State :=
  let b := browser this in
  let this' :=
    if theme_eqb theme dark then
      mkState (currentTheme this)
        (mkBrowser (localStorage b) (storageThrows b) (prefersDark b)
                   ({[ className theme ]} ∪ bodyClassList b)
                   (metaThemeColor b) (toggleText b) (toggleLabel b))
        (effects this ++ [ClassListAdd (className theme)])
    else
      mkState (currentTheme this)
        (mkBrowser (localStorage b) (storageThrows b) (prefersDark b)
                   (bodyClassList b ∖ {[ className dark ]})
                   (metaThemeColor b) (toggleText b) (toggleLabel b))
        (effects this ++ [ClassListRemove (className dark)]) in
  updateMetaThemeColor theme this'.

Definition updateToggleButton (theme : Theme) (this : State) : State :=
  let b := browser this in
  mkState (currentTheme this)
    (mkBrowser (localStorage b) (storageThrows b) (prefersDark b)
               (bodyClassList b) (metaThemeColor b) (icon theme) (label theme))
    (effects this ++ [SetToggleButton (icon theme) (label theme)]).

(** [try { localStorage.setItem(...) } catch { console.warn(...) }] *)
Definition saveThemePreference (theme : Theme) (this : State) : State :=
  let b := browser this in
  if storageThrows b then
    mkState (currentTheme this) b
      (effects this ++ [StorageSetItemFailed storageKey (theme_name theme)])
  else
    mkState (currentTheme this)
      (mkBrowser (<[storageKey := theme_name theme]> (localStorage b))
                 (storageThrows b) (prefersDark b) (bodyClassList b)
                 (metaThemeColor b) (toggleText b) (toggleLabel b))
      (effects this ++ [StorageSetItem storageKey (theme_name theme)]).

Definition isValidTheme (v : option string) : option Theme :=
  match v with
  | Some s =>
      if String.eqb s "light" then Some light
      else if String.eqb s "dark" then Some dark
      else None
  | None => None
  end.

Definition loadThemePreference (this : State) : option Theme :=
  let b := browser this in
  if storageThrows b then None
  else isValidTheme (localStorage b !! storageKey).

Definition detectSystemTheme (this : State) : Theme :=
  match prefersDark (browser this) with
  | Some matches => if matches then dark else light
  | None => light
  end.

Definition setTheme (theme : Theme) (saveToStorage : bool) (this : State) :
    State :=
  if theme_eqb (currentTheme this) theme then this
  else
    let this := mkState theme (browser this) (effects this) in
    let this := applyTheme theme this in
    let this := updateToggleButton theme this in
    let this := if saveToStorage then saveThemePreference theme this
                else this in
    mkState (currentTheme this) (browser this)
            (effects this ++ [OnThemeChange theme]).

Definition toggleTheme (this : State) : State :=
  let newTheme := if theme_eqb (currentTheme this) light then dark else light in
  setTheme newTheme true this.

Definition initializeTheme (this : State) : State :=
  let savedTheme := loadThemePreference this in
  let initialTheme :=
    match savedTheme with
    | Some t => t
    | None => detectSystemTheme this
    end in
  setTheme initialTheme false this.

(** The constructor: the field initialiser, then [initializeTheme]. *)
Definition create (b : Browser) : State :=
  initializeTheme (mkState light b []).

Definition getCurrentTheme (this : State) : Theme := currentTheme this.

(** The listener that [setupEventListeners] puts on the media query
    [(prefers-color-scheme: dark)], for a change event whose [matches] is
    given.  [!savedTheme]: both themes are non-empty strings. *)
Definition onSystemThemeChange (matches : bool) (this : State) : State :=
  let savedTheme := loadThemePreference this in
  match savedTheme with
  | None =>
      let systemTheme := if matches then dark else light in
      setTheme systemTheme false this
  | Some _ => this
  end.

End ThemeComponent.

(** ** Theme, plain script ([toggleTheme], [initializeTheme]) *)

Module Script.

Definition isDark (b : Browser) : bool :=
  bool_decide ("dark-theme" ∈ bodyClassList b).

(** [toggleTheme]; the second component is the exception that escapes
    when [localStorage.setItem] raises, after the class has flipped. *)
Definition toggleTheme (b : Browser) : Browser * option Error :=
  let classes :=
    if bool_decide ("dark-theme" ∈ bodyClassList b)
    then bodyClassList b ∖ {[ "dark-theme" ]}
    else {[ "dark-theme" ]} ∪ bodyClassList b in
  let isDark := bool_decide ("dark-theme" ∈ classes) in
  let text := if isDark then "☀️" else "🌙" in
  let lbl := if isDark then "Switch to light theme"
             else "Switch to dark theme" in
  if storageThrows b then
    (mkBrowser (localStorage b) (storageThrows b) (prefersDark b) classes
               (metaThemeColor b) text lbl,
     Some (PlainError "The quota has been exceeded."))
  else
    (mkBrowser (<["theme" := if isDark then "dark" else "light"]>
                  (localStorage b))
               (storageThrows b) (prefersDark b) classes
               (metaThemeColor b) text lbl,
     None).

(** [initializeTheme]; [localStorage.getItem] is outside any [try]. *)
Definition initializeTheme (b : Browser) : Browser * option Error :=
  if storageThrows b then (b, Some (PlainError "The operation is insecure."))
  else
    let savedTheme := localStorage b !! "theme" in
    if bool_decide (savedTheme = Some "dark") then
      (mkBrowser (localStorage b) (storageThrows b) (prefersDark b)
                 ({[ "dark-theme" ]} ∪ bodyClassList b)
                 (metaThemeColor b) "☀️" "Switch to light theme",
       None)
    else
      (mkBrowser (localStorage b) (storageThrows b) (prefersDark b)
                 (bodyClassList b)
                 (metaThemeColor b) "🌙" "Switch to dark theme",
       None).

Definition truncateText (text : string) (maxLength : nat) : string :=
  if Nat.leb (String.length text) maxLength then text
  else substring 0 maxLength text +:+ "...".

End Script.

(** ** Theme, React hook ([useTheme]) *)

Module UseTheme.

Definition STORAGE_KEY : string := "extinction-timeline-theme-react".

(** The [useState] value and the page. *)
Record State := mkState {
  theme : Theme;
  browser : Browser
}.

(** [getSystemTheme] calls [window.matchMedia] without asking whether it
    exists; where it does not, the call raises (the message is V8's). *)
Definition getSystemTheme (b : Browser) : result Theme :=
  match prefersDark b with
  | Some matches => Return (if matches then dark else light)
  | None => Throw (TypeError "window.matchMedia is not a function")
  end.

Definition loadSavedTheme (b : Browser) : option Theme :=
  if storageThrows b then None
  else
    match localStorage b !! STORAGE_KEY with
    | Some saved =>
        if String.eqb saved "light" then Some light
        else if String.eqb saved "dark" then Some dark
        else None
    | None => None
    end.

Definition saveTheme (theme : Theme) (b : Browser) : Browser :=
  if storageThrows b then b
  else
    mkBrowser (<[STORAGE_KEY := theme_name theme]> (localStorage b))
              (storageThrows b) (prefersDark b) (bodyClassList b)
              (metaThemeColor b) (toggleText b) (toggleLabel b).

(** [updateMetaThemeColor] creates the [meta] element where the page has
    none. *)
Definition updateMetaThemeColor (theme : Theme) (b : Browser) : Browser :=
  let color := if theme_eqb theme dark then "#1a1a1a" else "#f5f5f5" in
  mkBrowser (localStorage b) (storageThrows b) (prefersDark b)
            (bodyClassList b) (Some color) (toggleText b) (toggleLabel b).

Definition applyTheme (theme : Theme) (b : Browser) : Browser :=
  let b :=
    if theme_eqb theme dark then
      mkBrowser (localStorage b) (storageThrows b) (prefersDark b)
                ({[ "dark-theme" ]} ∪ bodyClassList b)
                (metaThemeColor b) (toggleText b) (toggleLabel b)
    else
      mkBrowser (localStorage b) (storageThrows b) (prefersDark b)
                (bodyClassList b ∖ {[ "dark-theme" ]})
                (metaThemeColor b) (toggleText b) (toggleLabel b) in
  updateMetaThemeColor theme b.

Definition setTheme (newTheme : Theme) (st : State) : State :=
  let b := applyTheme newTheme (browser st) in
  let b := saveTheme newTheme b in
  mkState newTheme b.

Definition toggleTheme (st : State) : State :=
  let newTheme := if theme_eqb (theme st) light then dark else light in
  setTheme newTheme st.

(** The effect that runs on mount, from the initial [useState] value;
    [savedTheme || getSystemTheme()] asks the platform only where
    nothing valid is saved. *)
Definition mount (b : Browser) : result State :=
  let savedTheme := loadSavedTheme b in
  initialTheme ← match savedTheme with
                 | Some saved => Return saved
                 | None => getSystemTheme b
                 end;
  Return (mkState initialTheme (applyTheme initialTheme b)).

Definition handleSystemThemeChange (matches : bool) (st : State) : State :=
  let savedTheme := loadSavedTheme (browser st) in
  match savedTheme with
  | None =>
      let systemTheme := if matches then dark else light in
      mkState systemTheme (applyTheme systemTheme (browser st))
  | Some _ => st
  end.

End UseTheme.

(** ** Modal state, class-based ([ModalComponent]) *)

Module ModalComponent.

(** The two private fields, and what [showModal]/[hideModal] set on the
    page: the [hidden] class of the modal and [body.style.overflow]. *)
Record State := mkState {
  isOpen : bool;
  currentEvent : option ExtinctionEvent;
  hidden : bool;
  bodyOverflow : string;
  rendered : option ExtinctionEvent
}.

(** Field initialisers; the shell renders the modal hidden and empty. *)
Definition initial : State := mkState false None true "" None.

Definition renderModalContent (event : ExtinctionEvent) (this : State) : State :=
  mkState (isOpen this) (currentEvent this) (hidden this) (bodyOverflow this)
          (Some event).

Definition showModal (this : State) : State :=
  mkState true (currentEvent this) false "hidden" (rendered this).

Definition hideModal (this : State) : State :=
  mkState false (currentEvent this) true "" (rendered this).

Definition open (event : ExtinctionEvent) (this : State) : State :=
  let this := mkState (isOpen this) (Some event) (hidden this)
                      (bodyOverflow this) (rendered this) in
  let this := renderModalContent event this in
  showModal this.

Definition close (this : State) : State :=
  if negb (isOpen this) then this
  else
    let this := hideModal this in
    mkState (isOpen this) None (hidden this) (bodyOverflow this)
            (rendered this).

Definition isModalOpen (this : State) : bool := isOpen this.
Definition getCurrentEvent (this : State) : option ExtinctionEvent :=
  currentEvent this.

(** [handleBackdropClick]; [onBackdrop] says that the click's target is
    the modal element itself and not something inside it. *)
Definition handleBackdropClick (onBackdrop : bool) (this : State) : State :=
  if onBackdrop then close this else this.

(** [handleKeyDown].  [handleTabNavigation] moves the focus and touches
    none of the fields. *)
Definition handleKeyDown (key : string) (this : State) : State :=
  if negb (isOpen this) then this
  else if String.eqb key "Escape" then close this
  else this.

End ModalComponent.

(** ** Modal state, React hook ([useModal]) *)

Module UseModal.

Record State := mkState {
  isOpen : bool;
  selectedEvent : option ExtinctionEvent;
  bodyOverflow : string
}.

Definition initial : State := mkState false None "".

Definition openModal (event : ExtinctionEvent) (st : State) : State :=
  let st := mkState (isOpen st) (Some event) (bodyOverflow st) in
  let st := mkState true (selectedEvent st) (bodyOverflow st) in
  mkState (isOpen st) (selectedEvent st) "hidden".

Definition closeModal (st : State) : State :=
  let st := mkState false (selectedEvent st) (bodyOverflow st) in
  let st := mkState (isOpen st) None (bodyOverflow st) in
  mkState (isOpen st) (selectedEvent st) "".

(** A key press on the document: the effect keeps [handleKeyDown]
    attached only while [isOpen]. *)
Definition handleKeyDown (key : string) (st : State) : State :=
  if isOpen st then
    if String.eqb key "Escape" && isOpen st then closeModal st else st
  else st.

End UseModal.

(** A call made on either modal. *)
Inductive ModalCall :=
| Open (event : ExtinctionEvent)
| Close.

Definition ModalComponent_step (this : ModalComponent.State) (c : ModalCall) :
    ModalComponent.State :=
  match c with
  | Open event => ModalComponent.open event this
  | Close => ModalComponent.close this
  end.

Definition UseModal_step (st : UseModal.State) (c : ModalCall) :
    UseModal.State :=
  match c with
  | Open event => UseModal.openModal event st
  | Close => UseModal.closeModal st
  end.

(** ** Renderer, React tree ([Timeline]) *)

Module Timeline.

(** What the component returns, by the element at its core. *)
Inductive View :=
| LoadingSpinner (message : string)
| ErrorDisplay (message : string)
| NoEvents
| EventMarkers (events : list ExtinctionEvent).

(** [if (error)] on a [string | null]: [null] and the empty string are
    falsy. *)
Definition truthy (error : option string) : bool :=
  match error with
  | None => false
  | Some s => negb (String.eqb s "")
  end.

Definition Timeline (events : list ExtinctionEvent) (isLoading : bool)
    (error : option string) : View :=
  if isLoading then LoadingSpinner "Loading extinction timeline..."
  else if truthy error then ErrorDisplay (default "" error)
  else if Nat.eqb (length events) 0 then NoEvents
  else EventMarkers events.

End Timeline.

(** ** Event entry, React tree ([EventMarker]) *)

Module EventMarker.

Record KeyboardEvent := mkKeyboardEvent { key : string; shiftKey : bool }.
Record MouseEvent := mkMouseEvent { button : nat }.

(** A value handed to the [onClick] prop.  The prop is typed to take an
    [ExtinctionEvent]; at run time it takes whatever it is called with. *)
Inductive Argument :=
| OfExtinctionEvent (e : ExtinctionEvent)
| OfKeyboardEvent (e : KeyboardEvent)
| OfMouseEvent (e : MouseEvent).

(** What a handler does, in order. *)
Inductive Action :=
| PreventDefault
| StopPropagation
| OnClick (argument : Argument).

Section Component.
(** The [event] prop. *)
Context (event : ExtinctionEvent).

Definition handleClick : list Action :=
  [OnClick (OfExtinctionEvent event)].

(** The parameter is named [event] too and hides the prop: outside the
    section the handler has no [ExtinctionEvent] argument left. *)
Definition handleKeyDown : KeyboardEvent -> list Action :=
  fun event =>
    if String.eqb (key event) "Enter" || String.eqb (key event) " " then
      [PreventDefault; OnClick (OfKeyboardEvent event)]
    else [].

Definition handleLearnMoreClick : MouseEvent -> list Action :=
  fun event => [StopPropagation; OnClick (OfMouseEvent event)].
End Component.

Definition truncateText (text : string) (maxLength : nat) : string :=
  if Nat.leb (String.length text) maxLength then text
  else substring 0 maxLength text +:+ "...".

End EventMarker.

(** ** Event entry, class-based ([TimelineRenderer.handleKeydown]) *)

Module TimelineRenderer.

(** The element under the key press: its classes, which the handler
    reads, and its [data-event-id], by which the click handler finds the
    entry's event. *)
Record Element := mkElement {
  classList : gset string;
  eventId : string
}.

Record KeyboardEvent := mkKeyboardEvent { key : string; target : Element }.

(** What the handler does, in order; [Click el] is [el.click()], the
    click that a pointer would dispatch on [el]. *)
Inductive Action :=
| PreventDefault
| Click (el : Element).

Definition handleKeydown (event : KeyboardEvent) : list Action :=
  if String.eqb (key event) "Enter" || String.eqb (key event) " " then
    let target := target event in
    if bool_decide ("event" ∈ classList target) then
      [PreventDefault; Click target]
    else []
  else [].

Definition truncateText (text : string) (maxLength : nat) : string :=
  if Nat.leb (String.length text) maxLength then text
  else substring 0 maxLength text +:+ "...".

(** [RenderOptions]; an option left out reads as [undefined], falsy. *)
Record RenderOptions := mkRenderOptions {
  animate : bool;
  skipImages : bool
}.

(** [createEventElement], by what the handlers read of the article: its
    classes and its [data-event-id]. *)
Definition createEventElement `{NumberToString} (event : ExtinctionEvent)
    (index : nat) (options : RenderOptions) : Element :=
  mkElement
    (if animate options then {["event"; "fade-in-animation"]} else {["event"]})
    (toString (id event)).

(** What the timeline element holds: the markup the page shipped with,
    nothing, the empty-state message, the error panel around an escaped
    message, or the entries [createEventElement] builds for a list of
    events, one each and in order. *)
Inductive Content :=
| Shell
| Cleared
| EmptyState
| ErrorPanel (html : string)
| Entries (events : list ExtinctionEvent) (options : RenderOptions).

(** The page as the renderer leaves it: the timeline element's content
    and listeners, and [style.display] of the element with id [loading],
    [None] where the page has no such element.  [onEventClick] is one
    function, which [addEventListener] registers at most once;
    [handleKeydown.bind(this)] is a new function at every call. *)
Record State := mkState {
  content : Content;
  clickListener : bool;
  keydownListeners : nat;
  loadingDisplay : option string
}.

(** [escapeHtml]: the text is made the content of a fresh [div] and read
    back as markup, which writes [&], [<], [>] and the no-break space as
    character references. *)
Fixpoint escapeHtml (text : string) : string :=
  match text with
  | EmptyString => EmptyString
  | String c text' =>
      (if Ascii.eqb c "&" then "&amp;"
       else if Ascii.eqb c "<" then "&lt;"
       else if Ascii.eqb c ">" then "&gt;"
       else if Nat.eqb (nat_of_ascii c) 160 then "&nbsp;"
       else String c EmptyString) +:+ escapeHtml text'
  end.

Definition clearTimeline (this : State) : State :=
  mkState Cleared false (keydownListeners this) (loadingDisplay this).

Definition renderEmptyState (this : State) : State :=
  mkState EmptyState (clickListener this) (keydownListeners this)
          (loadingDisplay this).

Definition setupEventListeners (this : State) : State :=
  mkState (content this) true (S (keydownListeners this)) (loadingDisplay this).

Definition render (events : list ExtinctionEvent) (options : RenderOptions)
    (this : State) : State :=
  let this := clearTimeline this in
  if Nat.eqb (length events) 0 then renderEmptyState this
  else
    let this := mkState (Entries events options) (clickListener this)
                        (keydownListeners this) (loadingDisplay this) in
    setupEventListeners this.

Definition renderError (message : string) (this : State) : State :=
  mkState (ErrorPanel (escapeHtml message)) (clickListener this)
          (keydownListeners this) (loadingDisplay this).

Definition setLoading (isLoading : bool) (this : State) : State :=
  match loadingDisplay this with
  | Some _ =>
      mkState (content this) (clickListener this) (keydownListeners this)
              (Some (if isLoading then "block" else "none"))
  | None => this
  end.

End TimelineRenderer.

(** ** Coordinator, class-based ([ExtinctionTimelineApp]) *)

Module ExtinctionTimelineApp.

Record FilterState := mkFilterState {
  activeCategory : string;
  filteredEvents : list ExtinctionEvent
}.

Record AppState := mkAppState {
  events : list ExtinctionEvent;
  filter : FilterState;
  theme : Theme;
  isLoading : bool;
  error : option string
}.

(** [appState] and the two components whose state the load and the
    filter drive. *)
Record State := mkState {
  appState : AppState;
  timelineRenderer : TimelineRenderer.State;
  filterComponent : FilterComponent.State
}.

(** The field initialiser of [appState]. *)
Definition initialAppState : AppState :=
  mkAppState [] (mkFilterState "All" []) light false None.

Definition setLoadingState (isLoading : bool) (this : State) : State :=
  let a := appState this in
  mkState (mkAppState (events a) (filter a) (theme a) isLoading (error a))
          (TimelineRenderer.setLoading isLoading (timelineRenderer this))
          (filterComponent this).

Definition renderTimeline (events : list ExtinctionEvent) (this : State) :
    State :=
  mkState (appState this)
          (TimelineRenderer.render events
             (TimelineRenderer.mkRenderOptions
                (negb (isLoading (appState this))) false)
             (timelineRenderer this))
          (filterComponent this).

Definition handleFilterChange (filteredEvents : list ExtinctionEvent)
    (this : State) : State :=
  let a := appState this in
  let this :=
    mkState (mkAppState (events a)
                        (mkFilterState (activeCategory (filter a))
                                       filteredEvents)
                        (theme a) (isLoading a) (error a))
            (timelineRenderer this) (filterComponent this) in
  renderTimeline filteredEvents this.

Definition handleThemeChange (theme : Theme) (this : State) : State :=
  let a := appState this in
  mkState (mkAppState (events a) (filter a) theme (isLoading a) (error a))
          (timelineRenderer this) (filterComponent this).

(** The constructor hands [handleFilterChange] to the filter component
    as its [onFilterChange]: a method of the component, then
    [handleFilterChange] for each call of [onFilterChange] it made. *)
Definition withFilterComponent
    (method : FilterComponent.State ->
              FilterComponent.State * list (list ExtinctionEvent))
    (this : State) : State :=
  let '(component, calls) := method (filterComponent this) in
  foldl (fun this filteredEvents => handleFilterChange filteredEvents this)
        (mkState (appState this) (timelineRenderer this) component) calls.

Definition initializeComponentsWithData (events : list ExtinctionEvent)
    (this : State) : State :=
  withFilterComponent (FilterComponent.updateEvents events) this.

(** [error instanceof Error] holds of every thrown value of the model. *)
Definition handleApplicationError (error : Error) (this : State) : State :=
  let errorMessage := message error in
  let a := appState this in
  mkState (mkAppState (events a) (filter a) (theme a) false
                      (Some errorMessage))
          (TimelineRenderer.setLoading false
             (TimelineRenderer.renderError errorMessage
                (timelineRenderer this)))
          (filterComponent this).

(** [loadEvents]: the outcome of [dataFetcher.fetchEvents()], which the
    minimum loading time only delays. *)
Definition loadEvents (TimelineError_bound : bool)
    (fetched : result Response) : result (list ExtinctionEvent) :=
  DataFetcher.fetchEvents TimelineError_bound fetched.

(** [initialize] up to its [await]: the page stays in this state, and
    takes clicks, until the load settles. *)
Definition initialize_begin (this : State) : State :=
  setLoadingState true this.

(** [initialize] from the [await] on, given how the load settled. *)
Definition initialize_resume (loaded : result (list ExtinctionEvent))
    (this : State) : State :=
  match loaded with
  | Return events =>
      let a := appState this in
      let this :=
        mkState (mkAppState events (mkFilterState "All" events) (theme a)
                            (isLoading a) None)
                (timelineRenderer this) (filterComponent this) in
      let this := initializeComponentsWithData events this in
      let this := renderTimeline events this in
      setLoadingState false this
  | Throw error => handleApplicationError error this
  end.

Definition initialize (TimelineError_bound : bool)
    (fetched : result Response) (this : State) : State :=
  initialize_resume (loadEvents TimelineError_bound fetched)
                    (initialize_begin this).

(** [target.closest(selector)] for a class selector; [path] is the
    target followed by its ancestors, the nearest first. *)
Definition closest (cls : string) (path : list TimelineRenderer.Element) :
    option TimelineRenderer.Element :=
  List.find (fun el => bool_decide (cls ∈ TimelineRenderer.classList el)) path.

(** [handleTimelineClick], for a click whose target has the ancestors
    [path], on the modal the coordinator holds.  [x || '0']: the empty
    string is falsy, as a missing attribute is. *)
Definition handleTimelineClick (path : list TimelineRenderer.Element)
    (this : State) (modalComponent : ModalComponent.State) :
    ModalComponent.State :=
  match closest "event" path with
  | None => modalComponent
  | Some eventElement =>
      let eventId :=
        parseInt (if String.eqb (TimelineRenderer.eventId eventElement) ""
                  then "0" else TimelineRenderer.eventId eventElement) in
      let eventData :=
        List.find (fun e => num_eqb (id e) eventId) (events (appState this)) in
      match eventData with
      | Some eventData => ModalComponent.open eventData modalComponent
      | None => modalComponent
      end
  end.

End ExtinctionTimelineApp.

(** * Vocabulary of the properties *)

(** ** Sorting *)

(** [a] has key [k], by the equality of numbers ([===]). *)
Definition same_key {A : Type} (key : A -> number) (k : number) (a : A) : Prop :=
  num_eqb (key a) k = true.

#[export] Instance same_key_dec {A : Type} (key : A -> number) (k : number)
  (a : A) : Decision (same_key key k a).
Proof. unfold same_key. apply _. Defined.

(** Non-decreasing by [year], every earlier entry against every later. *)
Definition sorted_by_year (l : list ExtinctionEvent) : Prop :=
  StronglySorted (fun a b => num_le (year a) (year b)) l.

(** The events of any one year come out in the order they went in. *)
Definition stable_by_year (input output : list ExtinctionEvent) : Prop :=
  forall y : number,
    filter (same_key year y) output = filter (same_key year y) input.

(** ** Payloads *)

(** The array under [events], when the payload is an object holding one. *)
Definition events_of (data : value) : option (list value) :=
  match data with
  | Object fields =>
      match fields !! "events" with
      | Some (Array items) => Some items
      | _ => None
      end
  | _ => None
  end.

(** The primitive kind the data model gives a field, and the closed
    enumeration for [category]. *)
Definition well_kinded (field : string) (v : value) : bool :=
  match v with
  | Num _ => bool_decide (field ∈ ["id"; "year"])
  | Str s =>
      if String.eqb field "category"
      then bool_decide (s ∈ ["Mammals"; "Birds"; "Reptiles"])
      else negb (bool_decide (field ∈ ["id"; "year"]))
  | _ => false
  end.

(** The field is present, of the right kind and, for [category], in the
    enumeration. *)
Definition field_ok (element : value) (field : string) : bool :=
  match get element field with
  | Some v => well_kinded field v
  | None => false
  end.

Definition element_ok (element : value) : bool :=
  forallb (field_ok element) DataFetcher.requiredFields.


(** A payload the hook takes: an [events] array whose elements all pass,
    with years as [JSON.parse] yields them, never NaN. *)
Definition hook_valid (items : list value) : Prop :=
  forallb element_ok items = true
  /\ Forall (fun item => get item "year" <> Some (Num NaN)) items.

(** What [DataFetcher] asks of a field on top of [field_ok]: a number is
    finite, a text is not blank. *)
Definition field_accepted (element : value) (field : string) : bool :=
  match get element field with
  | Some (Num n) => well_kinded field (Num n) && isFinite n
  | Some (Str s) => well_kinded field (Str s) && negb (String.eqb (trim s) "")
  | _ => false
  end.

Definition element_accepted (element : value) : bool :=
  DataFetcher.isObject element
  && forallb (field_accepted element) DataFetcher.requiredFields.

(** The four messages of [validateEvent] that carry an index and a field. *)
Inductive names_field (index : nat) (field : string) (msg : string) : Prop :=
| names_missing :
    msg = "Event at index " +:+ pretty index
          +:+ " missing required field: " +:+ field ->
    names_field index field msg
| names_number :
    msg = ("Event " +:+ pretty index +:+ " " +:+ field)
          +:+ " must be a valid number" ->
    names_field index field msg
| names_string :
    msg = ("Event " +:+ pretty index +:+ " " +:+ field)
          +:+ " must be a non-empty string" ->
    names_field index field msg
| names_category :
    msg = ("Event " +:+ pretty index +:+ " " +:+ field)
          +:+ " must be one of: Mammals, Birds, Reptiles" ->
    names_field index field msg.


(** ** The data model of a loaded collection *)

Definition nonblank (s : string) : Prop := trim s <> "".

Definition unique_ids (l : list ExtinctionEvent) : Prop :=
  forall (i j : nat) (a b : ExtinctionEvent),
    l !! i = Some a -> l !! j = Some b ->
    num_eqb (id a) (id b) = true -> i = j.

(** The data model as the specification words it. *)
Definition data_model (l : list ExtinctionEvent) : Prop :=
  Forall (fun e => isInteger (id e) /\ isInteger (year e)
                   /\ nonblank (title e) /\ nonblank (description e)
                   /\ nonblank (location e) /\ nonblank (cause e)) l
  /\ unique_ids l.

(** What [DataFetcher] establishes for an event. *)
Definition checked_event (e : ExtinctionEvent) : Prop :=
  isFinite (id e) = true /\ isFinite (year e) = true
  /\ nonblank (title e) /\ trim (title e) = title e
  /\ nonblank (description e) /\ trim (description e) = description e
  /\ nonblank (imageURL e) /\ trim (imageURL e) = imageURL e
  /\ category e ∈ DataFetcher.validCategories
  /\ nonblank (location e) /\ trim (location e) = location e
  /\ nonblank (cause e) /\ trim (cause e) = cause e.

(** ** Filtering and counting *)

(** [r] is exactly the sub-sequence of the events of category [c]: a
    sub-sequence of [events], all of category [c], that every other such
    sub-sequence embeds into. *)
Definition exact_subsequence (c : string) (events r : list ExtinctionEvent) :
    Prop :=
  r `sublist_of` events
  /\ Forall (fun e => category e = c) r
  /\ forall l, l `sublist_of` events -> Forall (fun e => category e = c) l ->
               l `sublist_of` r.

Definition count_of (c : string) (events : list ExtinctionEvent) : nat :=
  length (filter (fun e => category e = c) events).

(** All four categories are reported, and the counts add up. *)
Definition counts_ok (counts : gmap string number)
    (events : list ExtinctionEvent) : Prop :=
  dom counts = ({["All"; "Mammals"; "Birds"; "Reptiles"]} : gset string)
  /\ counts !! "All" = Some (of_nat (length events))
  /\ counts !! "Mammals" = Some (of_nat (count_of "Mammals" events))
  /\ counts !! "Birds" = Some (of_nat (count_of "Birds" events))
  /\ counts !! "Reptiles" = Some (of_nat (count_of "Reptiles" events))
  /\ count_of "Mammals" events + count_of "Birds" events
     + count_of "Reptiles" events = length events
  /\ add (add (of_nat (count_of "Mammals" events))
              (of_nat (count_of "Birds" events)))
         (of_nat (count_of "Reptiles" events))
     = of_nat (length events).

Definition valid_category (e : ExtinctionEvent) : Prop :=
  category e ∈ DataFetcher.validCategories.

(** The hook's state after a series of fetches, retries included. *)
Definition hook_after (fetches : list (result Response)) :
    UseExtinctionEvents.State :=
  foldl (fun st fetched => UseExtinctionEvents.fetchEvents fetched st)
        UseExtinctionEvents.initial fetches.

(** ** Theme *)

Definition flip (t : Theme) : Theme :=
  match t with light => dark | dark => light end.

(** The persisted value under [key] as the page can read it; storage
    that raises reads as absent. *)
Definition persisted (b : Browser) (key : string) : option string :=
  if storageThrows b then None else localStorage b !! key.

(** The precedence in the specification's words: a valid persisted
    preference, else the platform's preference, else Light. *)
Definition precedence (saved : option string) (platform : option bool) : Theme :=
  if decide (saved = Some "light") then light
  else if decide (saved = Some "dark") then dark
  else match platform with
       | Some true => dark
       | _ => light
       end.

(** The theme the plain script shows: the body class. *)
Definition script_theme (b : Browser) : Theme :=
  if Script.isDark b then dark else light.

(** The same page on a platform of another colour-scheme preference. *)
Definition with_prefersDark (platform : option bool) (b : Browser) : Browser :=
  mkBrowser (localStorage b) (storageThrows b) platform (bodyClassList b)
            (metaThemeColor b) (toggleText b) (toggleLabel b).

(** ** Modal *)

Definition modal_consistent (isOpen : bool)
    (selected : option ExtinctionEvent) : Prop :=
  isOpen = false <-> selected = None.

(** ** Renderer *)

(** The precedence in the specification's words: loading, else an error
    that is set, else the empty state, else the entries. *)
Definition view_by_precedence (events : list ExtinctionEvent)
    (isLoading : bool) (error : option string) : Timeline.View :=
  if isLoading then Timeline.LoadingSpinner "Loading extinction timeline..."
  else match error with
       | Some message => Timeline.ErrorDisplay message
       | None =>
           match events with
           | [] => Timeline.NoEvents
           | _ => Timeline.EventMarkers events
           end
       end.

(** An error is set when the repository's own tests find one: [if (error)]
    in [Timeline], [!!this.appState.error] in the coordinator. *)
Definition set_error (error : option string) : option string :=
  if Timeline.truthy error then error else None.

(** A click on a filter button of the class-based page, as it reaches
    the coordinator. *)
Definition filter_click (button : FilterComponent.Button)
    (this : ExtinctionTimelineApp.State) : ExtinctionTimelineApp.State :=
  ExtinctionTimelineApp.withFilterComponent
    (FilterComponent.handleFilterClick button) this.

(** ** Runs *)

(** What happens to the hook's state over time: a fetch settles (the
    first load, a retry), or the filter is set. *)
Inductive HookCall :=
| Fetch (fetched : result Response)
| SetActiveFilter (filter : string).

Definition hook_step (st : UseExtinctionEvents.State) (c : HookCall) :
    UseExtinctionEvents.State :=
  match c with
  | Fetch fetched => UseExtinctionEvents.fetchEvents fetched st
  | SetActiveFilter filter => UseExtinctionEvents.setActiveFilterSafe filter st
  end.

(** What happens to a [ThemeComponent]: a toggle, a programmatic
    [setTheme], or the platform's preference changing to [matches], which
    the media query reports to the listener. *)
Inductive ThemeCall :=
| Toggle
| SetTheme (theme : Theme) (saveToStorage : bool)
| SystemChange (matches : bool).

Definition theme_step (this : ThemeComponent.State) (c : ThemeCall) :
    ThemeComponent.State :=
  match c with
  | Toggle => ThemeComponent.toggleTheme this
  | SetTheme theme saveToStorage =>
      ThemeComponent.setTheme theme saveToStorage this
  | SystemChange matches =>
      ThemeComponent.onSystemThemeChange matches
        (ThemeComponent.mkState (ThemeComponent.currentTheme this)
           (with_prefersDark (Some matches) (ThemeComponent.browser this))
           (ThemeComponent.effects this))
  end.

(** What a visitor does to the class-based modal: activates an entry,
    presses a key, clicks on the backdrop or inside the content, or
    clicks the close button. *)
Inductive ModalEvent :=
| Activate (event : ExtinctionEvent)
| Key (key : string)
| ModalClick (onBackdrop : bool)
| CloseButton.

Definition modal_step (this : ModalComponent.State) (ev : ModalEvent) :
    ModalComponent.State :=
  match ev with
  | Activate event => ModalComponent.open event this
  | Key key => ModalComponent.handleKeyDown key this
  | ModalClick onBackdrop => ModalComponent.handleBackdropClick onBackdrop this
  | CloseButton => ModalComponent.close this
  end.

(** What the page shows of the modal agrees with its two fields: it is
    hidden and the body scrolls exactly when it is closed, and while it
    is open its content is the selected event's. *)
Definition modal_page_consistent (this : ModalComponent.State) : Prop :=
  modal_consistent (ModalComponent.isOpen this) (ModalComponent.currentEvent this)
  /\ ModalComponent.hidden this = negb (ModalComponent.isOpen this)
  /\ ModalComponent.bodyOverflow this
     = (if ModalComponent.isOpen this then "hidden" else "")
  /\ (ModalComponent.isOpen this = true ->
      ModalComponent.rendered this = ModalComponent.currentEvent this).

(** What [render] leaves in the timeline for a list of events. *)
Definition rendered_as (events : list ExtinctionEvent)
    (options : TimelineRenderer.RenderOptions) : TimelineRenderer.Content :=
  match events with
  | [] => TimelineRenderer.EmptyState
  | _ => TimelineRenderer.Entries events options
  end.

(** The actions of a key press on an element of the timeline: every
    keydown listener of the timeline element runs. *)
Definition dispatch_keydown (this : TimelineRenderer.State)
    (event : TimelineRenderer.KeyboardEvent) : list TimelineRenderer.Action :=
  concat (replicate (TimelineRenderer.keydownListeners this)
                    (TimelineRenderer.handleKeydown event)).

Definition is_click (a : TimelineRenderer.Action) : bool :=
  match a with TimelineRenderer.Click _ => true | _ => false end.

(** The lists among [lists] that hold an event. *)
Definition populated (lists : list (list ExtinctionEvent)) : nat :=
  length (List.filter (fun events => negb (Nat.eqb (length events) 0)) lists).

(** The class-based page shows the filter component's current filter:
    the timeline holds the events of that filter, and the coordinator's
    [filteredEvents] are those events. *)
Definition shows_current_filter (this : ExtinctionTimelineApp.State) : Prop :=
  let shown :=
    FilterComponent.getFilteredEvents
      (ExtinctionTimelineApp.filterComponent this) in
  ExtinctionTimelineApp.filteredEvents
    (ExtinctionTimelineApp.filter (ExtinctionTimelineApp.appState this))
  = shown
  /\ exists options,
       TimelineRenderer.content (ExtinctionTimelineApp.timelineRenderer this)
       = rendered_as shown options.

(** An event with its free texts trimmed, as [validateString] stores
    them. *)
Definition trimmed (e : ExtinctionEvent) : ExtinctionEvent :=
  mkEvent (id e) (year e) (trim (title e)) (trim (description e))
          (trim (imageURL e)) (category e) (trim (location e))
          (trim (cause e)).

(** Below 2^53 the digits of a natural number are its decimal digits. *)
Definition decimal_naturals `{NumberToString} : Prop :=
  forall n : nat, (Z.of_nat n < 2 ^ 53)%Z -> toString (of_nat n) = pretty n.

(** ** Sample data *)

(** An event object as it comes out of [JSON.parse]. *)
Definition event_object (i y : number) (t c : string) : value :=
  Object (list_to_map
    [("id", Num i); ("year", Num y); ("title", Str t);
     ("description", Str "Hunted to extinction."); ("imageURL", Str "x.jpg");
     ("category", Str c); ("location", Str " Mauritius ");
     ("cause", Str "Hunting")]).

Definition payload_of (items : list value) : value :=
  Object (list_to_map [("events", Array items)]).

Definition ok_response (data : value) : Response :=
  mkResponse true 200 "OK" (Return data).

(** Two events, years 1936 and 1662. *)
Definition two_items : list value :=
  [event_object (of_nat 1) (of_nat 1936) "Tasmanian Tiger" "Mammals";
   event_object (of_nat 2) (of_nat 1662) "Dodo Bird" "Birds"].

Definition two_events : value := payload_of two_items.

Definition two_events_validated : list ExtinctionEvent :=
  [mkEvent (of_nat 1) (of_nat 1936) "Tasmanian Tiger" "Hunted to extinction."
           "x.jpg" "Mammals" "Mauritius" "Hunting";
   mkEvent (of_nat 2) (of_nat 1662) "Dodo Bird" "Hunted to extinction."
           "x.jpg" "Birds" "Mauritius" "Hunting"].

(** The same read at the static type, as the hook does. *)
Definition two_events_cast : list ExtinctionEvent :=
  [mkEvent (of_nat 1) (of_nat 1936) "Tasmanian Tiger" "Hunted to extinction."
           "x.jpg" "Mammals" " Mauritius " "Hunting";
   mkEvent (of_nat 2) (of_nat 1662) "Dodo Bird" "Hunted to extinction."
           "x.jpg" "Birds" " Mauritius " "Hunting"].

(** Two events that share the id 1.5, the first of year 1662.5. *)
Definition fractional_twins : value :=
  payload_of
    [event_object (Finite (3 # 2)) (Finite (3325 # 2)) "Dodo Bird" "Birds";
     event_object (Finite (3 # 2)) (of_nat 1936) "Tasmanian Tiger" "Mammals"].




Definition dodo : ExtinctionEvent :=
  mkEvent (of_nat 2) (of_nat 1662) "Dodo Bird" "Hunted to extinction."
          "x.jpg" "Birds" "Mauritius" "Hunting".

(** The article that [createEventElement] builds for [dodo]. *)
Definition dodo_article : TimelineRenderer.Element :=
  TimelineRenderer.mkElement {["event"; "fade-in-animation"]} "2".

(** A first visit on a platform that prefers dark: nothing persisted. *)
Definition fresh_dark_platform : Browser :=
  mkBrowser ∅ false (Some true) ∅ None "" "".

(** A page on which the user has chosen dark before. *)
Definition returning_dark : Browser :=
  mkBrowser {["theme" := "dark"]} false (Some false) ∅ None "" "".

(** The class-based page before [initialize]: the shell's markup, the
    loading indicator hidden, the filter on "All". *)
Definition fresh_page : ExtinctionTimelineApp.State :=
  ExtinctionTimelineApp.mkState
    ExtinctionTimelineApp.initialAppState
    (TimelineRenderer.mkState TimelineRenderer.Shell false 0 (Some "none"))
    (FilterComponent.mkState [] "All").

(** The request never got an answer. *)
Definition network_failure : result Response :=
  Throw (TypeError "Failed to fetch").

Definition birds_button : FilterComponent.Button :=
  FilterComponent.mkButton (Some "Birds") "Birds".

(** Digits for the integers; enough of an engine for an example. *)
Definition integer_digits : NumberToString :=
  fun n =>
    match n with
    | Finite q => pretty (Z.to_nat (Qnum q / Zpos (Qden q)))
    | PosInfinity => "Infinity"
    | NegInfinity => "-Infinity"
    | NaN => "NaN"
    end.

(** A button that carries its category in its text alone. *)
Definition plain_birds_button : FilterComponent.Button :=
  FilterComponent.mkButton None "Birds".

(** * Properties *)

(** ** Numbers and the comparator *)

Lemma gt0_sub_false (a b : number) :
  a <> NaN -> b <> NaN -> gt0 (sub a b) = false -> num_le a b.
Proof.
  destruct a as [x| | |], b as [y| | |]; simpl; try done.
  intros _ _ H.
  destruct (x - y ?= 0)%Q eqn:E; try discriminate.
  - apply Qeq_alt in E. lra.
  - apply Qlt_alt in E. lra.
Qed.

Lemma gt0_sub_true (a b : number) :
  gt0 (sub a b) = true -> num_le b a /\ num_eqb a b = false.
Proof.
  destruct a as [x| | |], b as [y| | |]; simpl; try done.
  destruct (x - y ?= 0)%Q eqn:E; try discriminate. intros _.
  apply Qgt_alt in E.
  split; [lra|].
  destruct (Qeq_bool x y) eqn:Heq; [|done].
  apply Qeq_bool_iff in Heq. lra.
Qed.

Lemma num_le_trans (a b c : number) : num_le a b -> num_le b c -> num_le a c.
Proof.
  destruct a, b, c; simpl; try done. apply Qle_trans.
Qed.

Lemma num_eqb_trans (a b c : number) :
  num_eqb a c = true -> num_eqb b c = true -> num_eqb a b = true.
Proof.
  destruct a, b, c; simpl; try done.
  rewrite !Qeq_bool_iff. intros -> ->. reflexivity.
Qed.

Lemma add_of_nat (a b : nat) : add (of_nat a) (of_nat b) = of_nat (a + b).
Proof.
  unfold of_nat, add, Qplus, inject_Z; simpl.
  rewrite !Z.mul_1_r, Nat2Z.inj_add. reflexivity.
Qed.

(** ** [Array.prototype.sort] by a numeric key *)

Section SortByKey.
Context {A : Type} (key : A -> number).

Let comparefn := fun a b : A => sub (key a) (key b).
Let le := fun a b : A => num_le (key a) (key b).
Let same := same_key key.

Lemma sort_insert_perm (x : A) (l : list A) :
  sort_insert comparefn x l ≡ₚ x :: l.
Proof.
  induction l as [|y l IH]; simpl; [done|].
  destruct (gt0 (comparefn x y)); [|done].
  rewrite IH. apply Permutation_swap.
Qed.

Lemma sort_perm (l : list A) : sort comparefn l ≡ₚ l.
Proof.
  induction l as [|x l IH]; simpl; [done|].
  rewrite sort_insert_perm. by rewrite IH.
Qed.

Lemma sort_insert_sorted (x : A) (l : list A) :
  key x <> NaN -> Forall (fun a => key a <> NaN) l ->
  StronglySorted le l -> StronglySorted le (sort_insert comparefn x l).
Proof.
  intros Hx Hl Hs. induction Hs as [|y l Hs IH Hy]; simpl.
  - repeat constructor.
  - apply Forall_cons in Hl as [Hyn Hl].
    destruct (gt0 (comparefn x y)) eqn:E.
    + apply gt0_sub_true in E as [E _].
      constructor; [by apply IH|].
      rewrite sort_insert_perm. by constructor.
    + apply gt0_sub_false in E; [|done..].
      constructor; [by constructor|].
      constructor; [done|].
      eapply Forall_impl; [exact Hy|].
      intros z Hz. by eapply num_le_trans.
Qed.

Lemma sort_sorted (l : list A) :
  Forall (fun a => key a <> NaN) l -> StronglySorted le (sort comparefn l).
Proof.
  induction 1 as [|x l Hx Hl IH]; simpl; [constructor|].
  apply sort_insert_sorted; [done| |done].
  by rewrite sort_perm.
Qed.

Lemma sort_insert_stable (k : number) (x : A) (l : list A) :
  filter (same k) (sort_insert comparefn x l) = filter (same k) (x :: l).
Proof.
  induction l as [|y l IH]; simpl; [done|].
  destruct (gt0 (comparefn x y)) eqn:E; [|done].
  apply gt0_sub_true in E as [_ E].
  rewrite (filter_cons _ y), IH, !(filter_cons _ x), (filter_cons _ y).
  destruct (decide (same k y)) as [Hy|Hy]; [|done].
  destruct (decide (same k x)) as [Hx|Hx]; [|done].
  unfold same, same_key in Hx, Hy.
  rewrite (num_eqb_trans _ _ _ Hx Hy) in E. done.
Qed.

Lemma sort_stable (k : number) (l : list A) :
  filter (same k) (sort comparefn l) = filter (same k) l.
Proof.
  induction l as [|x l IH]; simpl; [done|].
  rewrite sort_insert_stable, !filter_cons. by rewrite IH.
Qed.
End SortByKey.

(** Decide a closed decidable proposition by evaluation. *)
Ltac by_compute := apply (bool_decide_unpack _); vm_compute; exact I.

(** ** The error monad *)

Lemma bind_Return {A B : Type} (f : A -> result B) (a : A) :
  Return a ≫= f = f a.
Proof. reflexivity. Qed.

Lemma bind_Throw {A B : Type} (f : A -> result B) (e : Error) :
  Throw e ≫= f = Throw e.
Proof. reflexivity. Qed.

(** ** [trim] *)

Lemma trimEnd_idem (s : string) : trimEnd (trimEnd s) = trimEnd s.
Proof.
  induction s as [|c s IH]; simpl; [done|].
  destruct (trimEnd s) as [|d r] eqn:E.
  - destruct (is_whitespace c) eqn:W; simpl; [done|]. by rewrite W.
  - change (trimEnd (String c (String d r)))
      with (match trimEnd (String d r) with
            | EmptyString =>
                if is_whitespace c then EmptyString else String c EmptyString
            | t => String c t
            end).
    rewrite IH. done.
Qed.

Lemma trimEnd_head (c : ascii) (s : string) :
  is_whitespace c = false -> exists t, trimEnd (String c s) = String c t.
Proof.
  intros W. simpl. destruct (trimEnd s); rewrite ?W; eauto.
Qed.

Lemma trimStart_head (s : string) :
  trimStart s = "" \/
  exists c t, trimStart s = String c t /\ is_whitespace c = false.
Proof.
  induction s as [|c s IH]; simpl; [by left|].
  destruct (is_whitespace c) eqn:W; [done|]. right. eauto.
Qed.

Lemma trim_idem (s : string) : trim (trim s) = trim s.
Proof.
  unfold trim.
  destruct (trimStart_head s) as [->|(c & t & -> & W)]; [done|].
  destruct (trimEnd_head c t W) as [u Hu]. rewrite Hu.
  simpl trimStart. rewrite W, <- Hu. apply trimEnd_idem.
Qed.

(** ** [includes] *)

Lemma append_cons (c : ascii) (s t : string) :
  String c s +:+ t = String c (s +:+ t).
Proof. reflexivity. Qed.

Lemma append_nil_l (t : string) : "" +:+ t = t.
Proof. reflexivity. Qed.








Lemma includes_after (pre s hay : string) :
  includes s hay = true -> includes s (pre +:+ hay) = true.
Proof.
  intros H. induction pre as [|c pre IH]; [done|].
  rewrite append_cons. cbn [includes]. rewrite IH. apply orb_true_r.
Qed.


(** ** [map] with a callback that may throw *)

Lemma mapi_from_cases {A B : Type} (f : A -> nat -> result B) (l : list A) :
  forall k : nat,
    (exists ys, mapi_from f k l = Return ys /\ length ys = length l /\
       forall j x, l !! j = Some x ->
                   exists y, ys !! j = Some y /\ f x (k + j) = Return y)
    \/ (exists i x e, l !! i = Some x /\ f x (k + i) = Throw e /\
          mapi_from f k l = Throw e /\
          forall j x', j < i -> l !! j = Some x' ->
                       exists y, f x' (k + j) = Return y).
Proof.
  induction l as [|x l IH]; intros k.
  - left. exists []. repeat split. intros j x Hj. by destruct j.
  - simpl. destruct (f x k) as [y|e] eqn:Hx.
    + destruct (IH (S k)) as [(ys & Hys & Hlen & Hall)|(i & x' & e & Hi & He & Hm & Hlt)].
      * left. exists (y :: ys). rewrite Hys. simpl.
        split; [done|]. split; [by rewrite Hlen|].
        intros [|j] z Hz; simpl in *.
        -- injection Hz as <-. exists y. by rewrite Nat.add_0_r.
        -- destruct (Hall j z Hz) as (y' & ? & ?). exists y'.
           by rewrite Nat.add_succ_r.
      * right. exists (S i), x', e. rewrite Hm. simpl.
        split; [done|]. split; [by rewrite Nat.add_succ_r|]. split; [done|].
        intros [|j] z Hj Hz; simpl in *.
        -- injection Hz as <-. exists y. by rewrite Nat.add_0_r.
        -- destruct (Hlt j z) as [y' ?]; [lia|done|]. exists y'.
           by rewrite Nat.add_succ_r.
    + right. exists 0, x, e. simpl. rewrite Nat.add_0_r.
      repeat split; try done. intros j x' Hj. lia.
Qed.

Lemma mapi_Return_elem {A B : Type} (f : A -> nat -> result B) (l : list A)
    (ys : list B) (y : B) :
  mapi f l = Return ys -> y ∈ ys -> exists x j, l !! j = Some x /\ f x j = Return y.
Proof.
  unfold mapi. intros Hm Hy.
  destruct (mapi_from_cases f l 0) as [(ys' & Hys & Hlen & Hall)|(i & x & e & _ & _ & Hthrow & _)];
    [|congruence].
  assert (ys' = ys) as -> by congruence.
  apply list_elem_of_lookup in Hy as [j Hj].
  assert (j < length l) as Hlt by (rewrite <- Hlen; by eapply lookup_lt_Some).
  apply lookup_lt_is_Some in Hlt as [x Hx].
  destruct (Hall j x Hx) as (y' & Hy' & Hf). simpl in Hf.
  exists x, j. split; [done|]. congruence.
Qed.

Lemma mapi_from_all_Return {A B : Type} (f : A -> nat -> result B)
    (l : list A) :
  forall k : nat,
    (forall j x, l !! j = Some x -> exists y, f x (k + j) = Return y) ->
    exists ys, mapi_from f k l = Return ys
               /\ Forall2 (fun x y => exists i, f x i = Return y) l ys.
Proof.
  induction l as [|x l IH]; intros k H.
  - exists []. by split.
  - destruct (H 0 x eq_refl) as [y Hy]. rewrite Nat.add_0_r in Hy.
    destruct (IH (S k)) as (ys & Hys & Hall).
    { intros j x' Hx'. destruct (H (S j) x' Hx') as [y' Hy'].
      exists y'. by rewrite Nat.add_succ_r in Hy'. }
    exists (y :: ys). simpl. rewrite Hy, bind_Return, Hys, bind_Return.
    split; [done|]. constructor; eauto.
Qed.

Lemma mapi_from_map {A B : Type} (f : A -> nat -> result B) (g : A -> B)
    (l : list A) :
  forall k : nat,
    (forall x, x ∈ l -> forall i, f x i = Return (g x)) ->
    mapi_from f k l = Return (map g l).
Proof.
  induction l as [|x l IH]; intros k H; [done|].
  simpl. rewrite (H x) by by left. rewrite bind_Return.
  rewrite (IH (S k)) by (intros x' Hx' i; apply H; by right).
  by rewrite bind_Return.
Qed.

(** ** The validators of [DataFetcher] *)

Section Validators.
Import DataFetcher.

Lemma validateNumber_Return v name n :
  validateNumber v name = Return n -> v = Some (Num n) /\ isFinite n = true.
Proof.
  unfold validateNumber. destruct v as [[]|]; try done.
  destruct (isFinite n0) eqn:E; simpl; [|done]. by intros [= ->].
Qed.

Lemma validateNumber_Throw v name e :
  validateNumber v name = Throw e ->
  message e = name +:+ " must be a valid number" /\
  forall n, v = Some (Num n) -> isFinite n = false.
Proof.
  unfold validateNumber. destruct v as [[]|]; try (intros [= <-]; by split).
  destruct (isFinite n) eqn:E; simpl; [done|]. intros [= <-].
  split; [done|]. by intros ? [= <-].
Qed.

Lemma validateString_Return v name s :
  validateString v name = Return s ->
  exists raw, v = Some (Str raw) /\ s = trim raw /\ trim raw <> "".
Proof.
  unfold validateString. destruct v as [[]|]; try done.
  destruct (String.eqb (trim s0) "") eqn:E; [done|]. intros [= <-].
  exists s0. repeat split. by apply String.eqb_neq.
Qed.

Lemma validateString_Throw v name e :
  validateString v name = Throw e ->
  message e = name +:+ " must be a non-empty string" /\
  forall raw, v = Some (Str raw) -> String.eqb (trim raw) "" = true.
Proof.
  unfold validateString. destruct v as [[]|]; try (intros [= <-]; by split).
  destruct (String.eqb (trim s) "") eqn:E; [|done]. intros [= <-].
  split; [done|]. by intros ? [= <-].
Qed.

Lemma validateCategory_Return v name s :
  validateCategory v name = Return s ->
  v = Some (Str s) /\ s ∈ validCategories.
Proof.
  unfold validateCategory. destruct v as [[]|]; try done.
  destruct (bool_decide (s0 ∈ validCategories)) eqn:E; simpl; [|done].
  intros [= <-]. split; [done|]. by apply bool_decide_eq_true in E.
Qed.

Lemma validateCategory_Throw v name e :
  validateCategory v name = Throw e ->
  message e = name +:+ " must be one of: Mammals, Birds, Reptiles" /\
  forall s, v = Some (Str s) -> bool_decide (s ∈ validCategories) = false.
Proof.
  unfold validateCategory. destruct v as [[]|]; try (intros [= <-]; by split).
  destruct (bool_decide (s ∈ validCategories)) eqn:E; simpl; [done|].
  intros [= <-]. split; [done|]. by intros ? [= <-].
Qed.

Lemma checkRequired_Throw x i fields e :
  checkRequired x i fields = Throw e ->
  exists f, f ∈ fields /\ field_accepted x f = false /\
    message e = "Event at index " +:+ pretty i
                +:+ " missing required field: " +:+ f.
Proof.
  induction fields as [|f fields IH]; simpl; [done|].
  destruct (negb (has x f) || _) eqn:E.
  - intros [= <-]. exists f. split; [by left|]. split; [|done].
    unfold field_accepted. apply orb_true_iff in E as [E|E].
    + destruct x; simpl in *; try done.
      apply negb_true_iff, bool_decide_eq_false in E.
      destruct (fields0 !! f) eqn:G; [|done]. destruct E. eauto.
    + by destruct (get x f) as [[]|].
  - intros H. destruct (IH H) as (g & ? & ? & ?). exists g.
    split; [by right|done].
Qed.

Lemma field_accepted_number x f n :
  f ∈ ["id"; "year"] -> get x f = Some (Num n) -> isFinite n = true ->
  field_accepted x f = true.
Proof.
  intros Hf Hx Hn. unfold field_accepted. rewrite Hx, Hn. simpl.
  by rewrite bool_decide_eq_true_2.
Qed.

Lemma field_accepted_string x f raw :
  f ∉ ["id"; "year"] -> f <> "category" ->
  get x f = Some (Str raw) -> trim raw <> "" -> field_accepted x f = true.
Proof.
  intros Hf Hc Hx Hr. unfold field_accepted. rewrite Hx. simpl.
  apply String.eqb_neq in Hc, Hr. rewrite Hc, Hr.
  by rewrite bool_decide_eq_false_2.
Qed.

Lemma field_accepted_category x s :
  get x "category" = Some (Str s) -> s ∈ validCategories ->
  field_accepted x "category" = true.
Proof.
  intros Hx Hs. unfold field_accepted. rewrite Hx. simpl.
  rewrite bool_decide_eq_true_2; [|done]. simpl.
  destruct (String.eqb (trim s) "") eqn:E; [|done].
  apply String.eqb_eq in E. unfold validCategories in Hs.
  repeat (apply elem_of_cons in Hs as [->|Hs]; [vm_compute in E; done|]).
  by apply elem_of_nil in Hs.
Qed.
End Validators.

(** ** [validateEvent] *)

Section ValidateEvent.
Import DataFetcher.

Local Ltac step H v E :=
  match type of H with
  | context [mbind _ ?m] =>
      destruct m as [v|?] eqn:E;
      rewrite ?bind_Return, ?bind_Throw in H; [|done]
  end.

Lemma validateEvent_Return x i ev :
  validateEvent x i = Return ev ->
  checked_event ev /\ element_accepted x = true.
Proof.
  unfold validateEvent, element_accepted.
  destruct (isObject x); cbn [negb]; [|done]. intros H.
  step H u Hreq. clear Hreq.
  step H vid Hid. apply validateNumber_Return in Hid as [Gid Fid].
  step H vyear Hyear. apply validateNumber_Return in Hyear as [Gyear Fyear].
  step H vtitle Ht. apply validateString_Return in Ht as (rt & Gt & -> & Nt).
  step H vdesc Hd. apply validateString_Return in Hd as (rd & Gd & -> & Nd).
  step H vimg Hi. apply validateString_Return in Hi as (ri & Gi & -> & Ni).
  step H vcat Hc. apply validateCategory_Return in Hc as [Gc Mc].
  step H vloc Hl. apply validateString_Return in Hl as (rl & Gl & -> & Nl).
  step H vcause Hk. apply validateString_Return in Hk as (rk & Gk & -> & Nk).
  injection H as <-. split.
  - unfold checked_event, nonblank; simpl.
    rewrite !trim_idem. repeat split; done.
  - unfold requiredFields. cbn [forallb andb].
    rewrite (field_accepted_number x "id" vid), (field_accepted_number x "year" vyear),
      (field_accepted_string x "title" rt), (field_accepted_string x "description" rd),
      (field_accepted_string x "imageURL" ri), (field_accepted_category x vcat),
      (field_accepted_string x "location" rl), (field_accepted_string x "cause" rk);
      try done; try by_compute.
Qed.

Local Ltac number_case H Hv f :=
  injection H as ->; apply validateNumber_Throw in Hv as [Hm Hv];
  exists f; split; [by_compute|];
  split; [|by apply names_number];
  unfold field_accepted;
  destruct (get _ f) as [[| |n| | |]|]; try done;
  rewrite (Hv n eq_refl); apply andb_false_r.
Local Ltac string_case H Hv f :=
  injection H as ->; apply validateString_Throw in Hv as [Hm Hv];
  exists f; split; [by_compute|];
  split; [|by apply names_string];
  unfold field_accepted;
  destruct (get _ f) as [[| | |s| |]|]; try done;
  rewrite (Hv s eq_refl); apply andb_false_r.

Lemma validateEvent_Throw x i e :
  validateEvent x i = Throw e ->
  if isObject x then
    exists f, f ∈ requiredFields /\ field_accepted x f = false /\
              names_field i f (message e)
  else message e = "Event at index " +:+ pretty i +:+ " is not a valid object".
Proof.
  unfold validateEvent.
  destruct (isObject x); cbn [negb]; [|by intros [= <-]]. intros H.
  destruct (checkRequired x i requiredFields) as [u|e'] eqn:Hreq;
    rewrite ?bind_Return, ?bind_Throw in H.
  2: { injection H as ->.
       apply checkRequired_Throw in Hreq as (f & ? & ? & ?).
       exists f. repeat split; try done. by apply names_missing. }
  destruct (validateNumber (get x "id") _) as [vid|e'] eqn:Hid;
    rewrite ?bind_Return, ?bind_Throw in H;
    [|number_case H Hid "id"].
  destruct (validateNumber (get x "year") _) as [vyear|e'] eqn:Hyear;
    rewrite ?bind_Return, ?bind_Throw in H; [|number_case H Hyear "year"].
  destruct (validateString (get x "title") _) as [vt|e'] eqn:Ht;
    rewrite ?bind_Return, ?bind_Throw in H; [|string_case H Ht "title"].
  destruct (validateString (get x "description") _) as [vd|e'] eqn:Hd;
    rewrite ?bind_Return, ?bind_Throw in H; [|string_case H Hd "description"].
  destruct (validateString (get x "imageURL") _) as [vi|e'] eqn:Hi;
    rewrite ?bind_Return, ?bind_Throw in H; [|string_case H Hi "imageURL"].
  destruct (validateCategory (get x "category") _) as [vc|e'] eqn:Hc;
    rewrite ?bind_Return, ?bind_Throw in H.
  2: { injection H as ->. apply validateCategory_Throw in Hc as [Hm Hv].
       exists "category". split; [by_compute|].
       split; [|by apply names_category].
       unfold field_accepted.
       destruct (get _ "category") as [[| | |s| |]|]; try done.
       simpl. unfold validCategories in Hv. by rewrite (Hv s eq_refl). }
  destruct (validateString (get x "location") _) as [vl|e'] eqn:Hl;
    rewrite ?bind_Return, ?bind_Throw in H; [|string_case H Hl "location"].
  destruct (validateString (get x "cause") _) as [vk|e'] eqn:Hk;
    rewrite ?bind_Return, ?bind_Throw in H; [|string_case H Hk "cause"].
  done.
Qed.
End ValidateEvent.

(** ** Payloads *)

Lemma field_accepted_ok x f : field_accepted x f = true -> field_ok x f = true.
Proof.
  unfold field_accepted, field_ok.
  destruct (get x f) as [[]|]; try done; by intros [? _]%andb_true_iff.
Qed.

Lemma element_accepted_ok x : element_accepted x = true -> element_ok x = true.
Proof.
  unfold element_accepted, element_ok.
  intros [_ H]%andb_true_iff. rewrite forallb_forall in H |- *.
  intros f Hf. by apply field_accepted_ok, H.
Qed.

Lemma validateEvent_Throw_rejected x i e :
  DataFetcher.validateEvent x i = Throw e -> element_accepted x = false.
Proof.
  intros H. apply validateEvent_Throw in H. unfold element_accepted.
  destruct (DataFetcher.isObject x); [|done].
  destruct H as (f & Hf & Hacc & _). cbn [andb].
  destruct (forallb _ _) eqn:E; [|done].
  rewrite forallb_forall in E. rewrite E in Hacc; [done|].
  by apply list_elem_of_In.
Qed.


Lemma events_of_Some data items :
  events_of data = Some items ->
  exists fields, data = Object fields /\ fields !! "events" = Some (Array items).
Proof.
  unfold events_of. destruct data; try done.
  destruct (fields !! "events") as [[]|] eqn:E; try done.
  intros [= ->]. eauto.
Qed.


Lemma validateResponse_items fields items :
  fields !! "events" = Some (Array items) ->
  DataFetcher.validateResponse (Object fields)
  = mapi DataFetcher.validateEvent items.
Proof.
  intros H. unfold DataFetcher.validateResponse.
  change (negb (DataFetcher.isObject (Object fields))) with false. cbn iota.
  cbn [has get]. rewrite H.
  rewrite bool_decide_eq_true_2; [done|eauto].
Qed.

Lemma fetchEvents_Throw bound response data e :
  ok response = true -> json response = Return data ->
  DataFetcher.validateResponse data = Throw e ->
  exists e', DataFetcher.fetchEvents bound (Return response) = Throw e'.
Proof.
  intros Hok Hjson Hval.
  unfold DataFetcher.fetchEvents, DataFetcher.createTimelineError.
  rewrite bind_Return, Hok. cbn [negb].
  rewrite Hjson, bind_Return, Hval, bind_Throw.
  destruct bound; eexists; reflexivity.
Qed.

(** The hook's predicate is the conjunction of the field checks. *)
Lemma isValidEvent_element_ok x :
  UseExtinctionEvents.isValidEvent x = element_ok x.
Proof.
  destruct x; try reflexivity.
  unfold UseExtinctionEvents.isValidEvent.
  change (negb (String.eqb (typeof (Object fields)) "object") || false)
    with false. cbn iota.
  unfold element_ok, DataFetcher.requiredFields. cbn [forallb].
  cbv beta iota delta [get].
  assert (forall f, f ∈ ["id"; "year"] ->
    String.eqb (UseExtinctionEvents.typeof_prop (fields !! f)) "number"
    = field_ok (Object fields) f) as Hnum.
  { intros f Hf. unfold field_ok, well_kinded. cbv beta iota delta [get].
    destruct (fields !! f) as [[]|]; try reflexivity.
    - by rewrite bool_decide_eq_true_2.
    - repeat (apply elem_of_cons in Hf as [->|Hf]; [reflexivity|]).
      by apply elem_of_nil in Hf. }
  assert (forall f, f ∉ ["id"; "year"] -> f <> "category" ->
    String.eqb (UseExtinctionEvents.typeof_prop (fields !! f)) "string"
    = field_ok (Object fields) f) as Hstr.
  { intros f Hf Hc. unfold field_ok, well_kinded. cbv beta iota delta [get].
    destruct (fields !! f) as [[]|]; try reflexivity.
    - by rewrite bool_decide_eq_false_2.
    - apply String.eqb_neq in Hc. rewrite Hc.
      by rewrite bool_decide_eq_false_2. }
  assert (String.eqb (UseExtinctionEvents.typeof_prop (fields !! "category"))
            "string"
          && match fields !! "category" with
             | Some (Str s) => bool_decide (s ∈ ["Mammals"; "Birds"; "Reptiles"])
             | _ => false
             end
          = field_ok (Object fields) "category") as Hcat.
  { unfold field_ok. cbv beta iota delta [get].
    destruct (fields !! "category") as [[]|]; reflexivity. }
  rewrite <- (Hnum "id"), <- (Hnum "year"), <- (Hstr "title"),
    <- (Hstr "description"), <- (Hstr "imageURL"), <- Hcat,
    <- (Hstr "location"), <- (Hstr "cause"); try by_compute.
  btauto.
Qed.

Lemma validateEvent_accepted x i :
  element_accepted x = true ->
  exists ev, DataFetcher.validateEvent x i = Return ev.
Proof.
  intros Hacc. destruct (DataFetcher.validateEvent x i) as [ev|e] eqn:E; [eauto|].
  apply validateEvent_Throw_rejected in E. congruence.
Qed.

Lemma hook_validateEvents_valid items :
  forallb element_ok items = true ->
  UseExtinctionEvents.validateEvents (Some (Array items))
  = Return (map UseExtinctionEvents.asEvent items).
Proof.
  intros Hvalid. unfold UseExtinctionEvents.validateEvents, mapi.
  apply mapi_from_map. intros x Hx i.
  rewrite isValidEvent_element_ok.
  rewrite forallb_forall in Hvalid.
  by rewrite (Hvalid x (proj1 (list_elem_of_In _ _) Hx)).
Qed.

(** ** Loading *)

Lemma validateResponse_checked data validated :
  DataFetcher.validateResponse data = Return validated ->
  Forall checked_event validated.
Proof.
  unfold DataFetcher.validateResponse.
  destruct (negb (DataFetcher.isObject data)); [done|].
  destruct (negb (has data "events")); [done|].
  destruct (get data "events") as [[| | | |items|]|]; try done.
  intros H. apply Forall_forall. intros ev Hev.
  destruct (mapi_Return_elem _ _ _ _ H Hev) as (x & j & _ & Hx).
  by apply validateEvent_Return in Hx as [? _].
Qed.

Lemma isFinite_not_NaN (n : number) : isFinite n = true -> n <> NaN.
Proof. by destruct n. Qed.

Lemma sortEventsByYear_spec (l : list ExtinctionEvent) :
  Forall (fun e => year e <> NaN) l ->
  sorted_by_year (DataFetcher.sortEventsByYear l)
  /\ l ≡ₚ DataFetcher.sortEventsByYear l
  /\ stable_by_year l (DataFetcher.sortEventsByYear l).
Proof.
  intros H. unfold DataFetcher.sortEventsByYear. split; [|split].
  - by apply (sort_sorted year).
  - symmetry. apply (sort_perm year).
  - intros y. apply (sort_stable year).
Qed.

(** C1. For every valid payload, [load()] returns the events sorted
    non-decreasing by [year], and the sort is stable: the events of any
    one year keep their original array order.  First part:
    [DataFetcher.fetchEvents], where valid means that every element of
    the [events] array is accepted; [validated] is the array read element
    by element.  Second part: the hook's [fetchEvents], where valid means
    that every element passes [isValidEvent]; the years are those of
    [JSON.parse], never NaN. *)
Theorem load_sorted_stable :
  (forall response data items,
     ok response = true -> json response = Return data ->
     events_of data = Some items ->
     forallb element_accepted items = true ->
     exists validated sortedEvents,
       Forall2 (fun item ev =>
                  exists i, DataFetcher.validateEvent item i = Return ev)
               items validated
       /\ (forall bound,
             DataFetcher.fetchEvents bound (Return response)
             = Return sortedEvents)
       /\ sorted_by_year sortedEvents
       /\ validated ≡ₚ sortedEvents
       /\ stable_by_year validated sortedEvents)
  /\
  (forall response data items st,
     ok response = true -> json response = Return data ->
     events_of data = Some items ->
     hook_valid items ->
     exists sortedEvents,
       UseExtinctionEvents.fetchEvents (Return response) st
       = UseExtinctionEvents.mkState sortedEvents false None
           (UseExtinctionEvents.activeFilter st)
       /\ sorted_by_year sortedEvents
       /\ map UseExtinctionEvents.asEvent items ≡ₚ sortedEvents
       /\ stable_by_year (map UseExtinctionEvents.asEvent items) sortedEvents).
Proof.
  split.
  - intros response data items Hok Hjson Hev Hacc.
    apply events_of_Some in Hev as (fields & -> & Hfields).
    destruct (mapi_from_all_Return DataFetcher.validateEvent items 0)
      as (validated & Hmap & Hall).
    { intros j x Hx. apply validateEvent_accepted.
      rewrite forallb_forall in Hacc. apply Hacc, list_elem_of_In.
      by eapply list_elem_of_lookup_2. }
    assert (DataFetcher.validateResponse (Object fields) = Return validated)
      as Hval by (by rewrite (validateResponse_items _ _ Hfields)).
    exists validated, (DataFetcher.sortEventsByYear validated).
    split; [done|]. split.
    + intros bound.
      unfold DataFetcher.fetchEvents. rewrite bind_Return, Hok. cbn [negb].
      by rewrite Hjson, bind_Return, Hval, bind_Return.
    + apply sortEventsByYear_spec.
      eapply Forall_impl; [by eapply validateResponse_checked|].
      intros e He. apply isFinite_not_NaN, He.
  - intros response data items st Hok Hjson Hev [Hvalid Hnan].
    apply events_of_Some in Hev as (fields & -> & Hfields).
    exists (DataFetcher.sortEventsByYear
              (map UseExtinctionEvents.asEvent items)). split.
    + unfold UseExtinctionEvents.fetchEvents, UseExtinctionEvents.attempt.
      rewrite bind_Return, Hok. cbn [negb]. rewrite Hjson, bind_Return.
      unfold UseExtinctionEvents.read_events. rewrite bind_Return.
      cbv beta iota delta [get]. rewrite Hfields.
      by rewrite (hook_validateEvents_valid items Hvalid), bind_Return.
    + apply sortEventsByYear_spec. apply Forall_map.
      rewrite forallb_forall in Hvalid.
      apply Forall_forall. intros item Hitem.
      rewrite Forall_forall in Hnan. specialize (Hnan item Hitem).
      apply list_elem_of_In, Hvalid in Hitem.
      unfold element_ok in Hitem. rewrite forallb_forall in Hitem.
      assert (field_ok item "year" = true) as Hyear
        by (apply Hitem, list_elem_of_In; by_compute).
      unfold field_ok in Hyear. simpl.
      destruct (get item "year") as [[| |n| | |]|]; try done.
      simpl. by intros ->.
Qed.

(** The two-event payload of years 1936 and 1662 is valid for both loaders. *)
Lemma load_sorted_stable_witness :
  (exists validated sortedEvents,
     Forall2 (fun item ev =>
                exists i, DataFetcher.validateEvent item i = Return ev)
             two_items validated
     /\ (forall bound,
           DataFetcher.fetchEvents bound (Return (ok_response two_events))
           = Return sortedEvents)
     /\ sorted_by_year sortedEvents
     /\ validated ≡ₚ sortedEvents
     /\ stable_by_year validated sortedEvents)
  /\
  (exists sortedEvents,
     UseExtinctionEvents.fetchEvents (Return (ok_response two_events))
       UseExtinctionEvents.initial
     = UseExtinctionEvents.mkState sortedEvents false None
         (UseExtinctionEvents.activeFilter UseExtinctionEvents.initial)
     /\ sorted_by_year sortedEvents
     /\ map UseExtinctionEvents.asEvent two_items ≡ₚ sortedEvents
     /\ stable_by_year (map UseExtinctionEvents.asEvent two_items)
          sortedEvents).
Proof.
  split.
  - apply (proj1 load_sorted_stable (ok_response two_events) two_events
             two_items); reflexivity.
  - apply (proj2 load_sorted_stable (ok_response two_events) two_events
             two_items UseExtinctionEvents.initial); try reflexivity.
    split; [reflexivity|].
    repeat (constructor; [intros H; vm_compute in H; discriminate|]).
    constructor.
Defined.

(** ** The data model of a loaded collection *)

Lemma fetchEvents_Return bound fetched events :
  DataFetcher.fetchEvents bound fetched = Return events ->
  exists response data validated,
    fetched = Return response /\ ok response = true
    /\ json response = Return data
    /\ DataFetcher.validateResponse data = Return validated
    /\ events = DataFetcher.sortEventsByYear validated.
Proof.
  unfold DataFetcher.fetchEvents, DataFetcher.createTimelineError.
  destruct fetched as [response|e]; rewrite ?bind_Return, ?bind_Throw;
    [|by destruct bound].
  destruct (ok response) eqn:Hok; cbn [negb]; [|by destruct bound].
  destruct (json response) as [data|e] eqn:Hjson;
    rewrite ?bind_Return, ?bind_Throw; [|by destruct bound].
  destruct (DataFetcher.validateResponse data) as [validated|e] eqn:Hval;
    rewrite ?bind_Return, ?bind_Throw; [|by destruct bound].
  intros [= <-]. by exists response, data, validated.
Qed.

(** C3, as amended.  Every collection returned by a successful
    [DataFetcher.fetchEvents] has, for each event, a finite [id] and a
    finite [year], texts [title], [description], [imageURL], [location]
    and [cause] that are non-empty after trimming (and stored trimmed),
    and a [category] of the enumeration.  Neither integrality nor
    uniqueness of [id] is checked. *)
Theorem loaded_events_checked :
  forall bound fetched events,
    DataFetcher.fetchEvents bound fetched = Return events ->
    Forall checked_event events.
Proof.
  intros bound fetched events H.
  apply fetchEvents_Return in H as (response & data & validated & _ & _ & _ & Hval & ->).
  apply validateResponse_checked in Hval.
  unfold DataFetcher.sortEventsByYear.
  by rewrite (sort_perm year).
Qed.

(** The two-event payload loads, and what it loads is checked. *)
Lemma loaded_events_checked_witness :
  Forall checked_event (DataFetcher.sortEventsByYear two_events_validated).
Proof.
  apply (loaded_events_checked true (Return (ok_response two_events))).
  vm_compute. reflexivity.
Defined.

(** C3, as stated, fails: a payload whose two events share the id 1.5
    loads, and the loaded collection has neither integral nor unique
    ids, and a year that is not an integer. *)
Lemma load_admits_fractional_duplicate_ids :
  exists events,
    DataFetcher.fetchEvents true (Return (ok_response fractional_twins))
    = Return events
    /\ ~ data_model events
    /\ ~ unique_ids events
    /\ exists e, e ∈ events /\ ~ isInteger (id e) /\ ~ isInteger (year e).
Proof.
  eexists. split; [vm_compute; reflexivity|].
  assert (forall z : Z, ~ (3 # 2 == inject_Z z)%Q) as Hid.
  { intros z. unfold Qeq, inject_Z; simpl. lia. }
  assert (forall z : Z, ~ (3325 # 2 == inject_Z z)%Q) as Hyear.
  { intros z. unfold Qeq, inject_Z; simpl. lia. }
  assert (~ unique_ids
            [mkEvent (Finite (3 # 2)) (Finite (3325 # 2)) "Dodo Bird"
               "Hunted to extinction." "x.jpg" "Birds" "Mauritius" "Hunting";
             mkEvent (Finite (3 # 2)) (Finite (1936 # 1)) "Tasmanian Tiger"
               "Hunted to extinction." "x.jpg" "Mammals" "Mauritius"
               "Hunting"]) as Hdup.
  { intros U. specialize (U 0 1 _ _ eq_refl eq_refl eq_refl). discriminate. }
  split; [|split].
  - intros [_ U]. by apply Hdup.
  - exact Hdup.
  - eexists. split; [by left|]. simpl. split; intros [z Hz].
    + by apply (Hid z).
    + by apply (Hyear z).
Qed.

(** ** Malformed payloads *)











(** ** Filtering *)

Lemma filter_exact (c : string) (events : list ExtinctionEvent) :
  exact_subsequence c events (filter (fun e => category e = c) events).
Proof.
  split; [apply sublist_filter|]. split.
  - apply Forall_forall. intros e He. by apply list_elem_of_filter in He as [? _].
  - intros l Hl. induction Hl as [|x l k Hl IH|x l k Hl IH]; intros Hall.
    + apply sublist_nil_l.
    + apply Forall_cons in Hall as [Hx Hall].
      rewrite filter_cons_True by done. apply sublist_skip. by apply IH.
    + rewrite filter_cons. destruct (decide (category x = c)).
      * apply sublist_cons. by apply IH.
      * by apply IH.
Qed.

(** C4. For every event list and every filter category, the filtered
    list is exactly the sub-sequence of the events of that category, in
    order, and the full list when the filter is "All"; in
    [FilterComponent] and in the hook alike. *)
Theorem getFiltered_exact :
  (forall events,
     FilterComponent.getFilteredEvents (FilterComponent.mkState events "All")
     = events)
  /\ (forall events c,
        c <> "All" ->
        exact_subsequence c events
          (FilterComponent.getFilteredEvents (FilterComponent.mkState events c)))
  /\ (forall events loading err,
        UseExtinctionEvents.filteredEvents
          (UseExtinctionEvents.mkState events loading err "All")
        = events)
  /\ (forall events loading err c,
        c <> "All" ->
        exact_subsequence c events
          (UseExtinctionEvents.filteredEvents
             (UseExtinctionEvents.mkState events loading err c))).
Proof.
  split; [done|]. split.
  { intros events c Hc. unfold FilterComponent.getFilteredEvents; simpl.
    apply String.eqb_neq in Hc. rewrite Hc. apply filter_exact. }
  split; [done|].
  intros events loading err c Hc.
  unfold UseExtinctionEvents.filteredEvents; simpl.
  apply String.eqb_neq in Hc. rewrite Hc. apply filter_exact.
Qed.

(** The filter "Birds" on the two events. *)
Lemma getFiltered_exact_witness :
  exact_subsequence "Birds" two_events_validated
    (FilterComponent.getFilteredEvents
       (FilterComponent.mkState two_events_validated "Birds"))
  /\ exact_subsequence "Birds" two_events_cast
       (UseExtinctionEvents.filteredEvents
          (UseExtinctionEvents.mkState two_events_cast false None "Birds")).
Proof.
  split.
  - apply (proj1 (proj2 getFiltered_exact)). discriminate.
  - apply (proj2 (proj2 (proj2 getFiltered_exact))). discriminate.
Defined.

(** ** Counting *)

Lemma count_of_cons (c : string) (e : ExtinctionEvent) (events : list ExtinctionEvent) :
  count_of c (e :: events)
  = (if decide (category e = c) then 1 else 0) + count_of c events.
Proof.
  unfold count_of. rewrite filter_cons. by destruct (decide (category e = c)).
Qed.

Lemma count_of_sum (events : list ExtinctionEvent) :
  Forall valid_category events ->
  count_of "Mammals" events + count_of "Birds" events
  + count_of "Reptiles" events = length events.
Proof.
  induction 1 as [|e events He _ IH]; [done|].
  rewrite !count_of_cons. simpl length. rewrite <- IH.
  unfold valid_category, DataFetcher.validCategories in He.
  repeat (apply elem_of_cons in He as [->|He]; [simpl; lia|]).
  by apply elem_of_nil in He.
Qed.

Lemma increment_known (counts : gmap string number) (key : string) (n : nat) :
  counts !! key = Some (of_nat n) ->
  increment counts key = <[key := of_nat (n + 1)]> counts.
Proof.
  intros H. unfold increment. rewrite H. simpl default. by rewrite add_of_nat.
Qed.

(** The loop of [getCategoryCounts] and of [eventCounts]. *)
Lemma tally_spec (events : list ExtinctionEvent) :
  Forall valid_category events ->
  forall (counts : gmap string number) (a m b r : nat),
    dom counts = ({["All"; "Mammals"; "Birds"; "Reptiles"]} : gset string) ->
    counts !! "All" = Some (of_nat a) ->
    counts !! "Mammals" = Some (of_nat m) ->
    counts !! "Birds" = Some (of_nat b) ->
    counts !! "Reptiles" = Some (of_nat r) ->
    let final := foldl (fun counts event => increment counts (category event))
                       counts events in
    dom final = ({["All"; "Mammals"; "Birds"; "Reptiles"]} : gset string)
    /\ final !! "All" = Some (of_nat a)
    /\ final !! "Mammals" = Some (of_nat (m + count_of "Mammals" events))
    /\ final !! "Birds" = Some (of_nat (b + count_of "Birds" events))
    /\ final !! "Reptiles" = Some (of_nat (r + count_of "Reptiles" events)).
Proof.
  induction 1 as [|e events He _ IH]; intros counts a m b r Hdom Ha Hm Hb Hr.
  - simpl. unfold count_of. simpl. by rewrite !Nat.add_0_r.
  - simpl foldl. rewrite !count_of_cons.
    unfold valid_category, DataFetcher.validCategories in He.
    repeat (apply elem_of_cons in He as [He|He]);
      [..|by apply elem_of_nil in He]; rewrite He.
    + rewrite (increment_known _ _ _ Hm).
      destruct (IH (<["Mammals" := of_nat (m + 1)]> counts) a (m + 1) b r)
        as (? & ? & Hm' & ? & ?);
        rewrite ?lookup_insert_eq, ?lookup_insert_ne by done; try done.
      { rewrite dom_insert_L, Hdom. set_solver. }
      repeat split; try done. rewrite Hm'. do 2 f_equal. simpl. lia.
    + rewrite (increment_known _ _ _ Hb).
      destruct (IH (<["Birds" := of_nat (b + 1)]> counts) a m (b + 1) r)
        as (? & ? & ? & Hb' & ?);
        rewrite ?lookup_insert_eq, ?lookup_insert_ne by done; try done.
      { rewrite dom_insert_L, Hdom. set_solver. }
      repeat split; try done. rewrite Hb'. do 2 f_equal. simpl. lia.
    + rewrite (increment_known _ _ _ Hr).
      destruct (IH (<["Reptiles" := of_nat (r + 1)]> counts) a m b (r + 1))
        as (? & ? & ? & ? & Hr');
        rewrite ?lookup_insert_eq, ?lookup_insert_ne by done; try done.
      { rewrite dom_insert_L, Hdom. set_solver. }
      repeat split; try done. rewrite Hr'. do 2 f_equal. simpl. lia.
Qed.

Lemma initial_counts_ok (events : list ExtinctionEvent) :
  Forall valid_category events ->
  counts_ok
    (foldl (fun counts event => increment counts (category event))
       (<["All" := of_nat (length events)]>
          (<["Mammals" := of_nat 0]>
             (<["Birds" := of_nat 0]> (<["Reptiles" := of_nat 0]> ∅))))
       events)
    events.
Proof.
  intros Hvalid. unfold counts_ok.
  assert (dom (<["All" := of_nat (length events)]>
                 (<["Mammals" := of_nat 0]>
                    (<["Birds" := of_nat 0]>
                       (<["Reptiles" := of_nat 0]> (∅ : gmap string number)))))
          = ({["All"; "Mammals"; "Birds"; "Reptiles"]} : gset string)) as Hdom0.
  { rewrite !dom_insert_L, dom_empty_L. set_solver. }
  destruct (tally_spec events Hvalid _ (length events) 0 0 0 Hdom0)
    as (Hdom & Ha & Hm & Hb & Hr); try done.
  repeat split; try done.
  - by apply count_of_sum.
  - rewrite !add_of_nat. f_equal. by apply count_of_sum.
Qed.

Lemma fetchEvents_valid_category bound fetched events :
  DataFetcher.fetchEvents bound fetched = Return events ->
  Forall valid_category events.
Proof.
  intros H.
  apply fetchEvents_Return in H as (response & data & validated & _ & _ & _ & Hval & ->).
  apply validateResponse_checked in Hval.
  unfold DataFetcher.sortEventsByYear. rewrite (sort_perm year).
  eapply Forall_impl; [exact Hval|]. intros e He. apply He.
Qed.

Lemma hook_validateEvents_valid_category events validated :
  UseExtinctionEvents.validateEvents events = Return validated ->
  Forall valid_category validated.
Proof.
  unfold UseExtinctionEvents.validateEvents.
  destruct events as [[| | | |items|]|]; try done. intros H.
  apply Forall_forall. intros ev Hev.
  destruct (mapi_Return_elem _ _ _ _ H Hev) as (x & j & _ & Hx).
  simpl in Hx.
  destruct (UseExtinctionEvents.isValidEvent x) eqn:Hvalid; [|done].
  injection Hx as <-.
  rewrite isValidEvent_element_ok in Hvalid.
  unfold element_ok in Hvalid. rewrite forallb_forall in Hvalid.
  specialize (Hvalid "category"). unfold field_ok in Hvalid.
  unfold valid_category, UseExtinctionEvents.asEvent. simpl.
  destruct (get x "category") as [[| | |s| |]|];
    try (discriminate Hvalid; apply list_elem_of_In; by_compute).
  assert (well_kinded "category" (Str s) = true) as Hs
    by (apply Hvalid, list_elem_of_In; by_compute).
  change (bool_decide (s ∈ ["Mammals"; "Birds"; "Reptiles"]) = true) in Hs.
  by apply bool_decide_eq_true in Hs.
Qed.

Lemma hook_fetch_valid_category fetched st :
  Forall valid_category (UseExtinctionEvents.events st) ->
  Forall valid_category
    (UseExtinctionEvents.events (UseExtinctionEvents.fetchEvents fetched st)).
Proof.
  intros Hst. unfold UseExtinctionEvents.fetchEvents.
  destruct (UseExtinctionEvents.attempt fetched) as [sorted|e] eqn:Ha;
    simpl; [|done].
  unfold UseExtinctionEvents.attempt in Ha.
  destruct fetched as [response|]; rewrite ?bind_Return, ?bind_Throw in Ha;
    [|done].
  destruct (negb (ok response)); [done|].
  destruct (json response) as [data|];
    rewrite ?bind_Return, ?bind_Throw in Ha; [|done].
  destruct (UseExtinctionEvents.read_events data) as [events|];
    rewrite ?bind_Return, ?bind_Throw in Ha; [|done].
  destruct (UseExtinctionEvents.validateEvents events) as [validated|] eqn:Hv;
    rewrite ?bind_Return, ?bind_Throw in Ha; [|done].
  injection Ha as <-.
  unfold UseExtinctionEvents.sortEventsByYear. rewrite (sort_perm year).
  by eapply hook_validateEvents_valid_category.
Qed.

Lemma hook_after_valid_category fetches :
  Forall valid_category (UseExtinctionEvents.events (hook_after fetches)).
Proof.
  unfold hook_after.
  induction fetches as [|fetched fetches IH] using rev_ind; [constructor|].
  rewrite foldl_app. simpl. by apply hook_fetch_valid_category.
Qed.

(** C5. For every loaded event list the counts report all four
    categories, a category without events at zero; the count for "All" is
    the number of events, and the counts of Mammals, Birds and Reptiles
    add up to it.  First part: [FilterComponent.getCategoryCounts] on a
    list that [DataFetcher.fetchEvents] returned; second part:
    [App.eventCounts] on the hook's events after any series of fetches. *)
Theorem getCounts_total :
  (forall bound fetched events c,
     DataFetcher.fetchEvents bound fetched = Return events ->
     counts_ok
       (FilterComponent.getCategoryCounts (FilterComponent.mkState events c))
       events)
  /\ (forall fetches,
        counts_ok
          (App.eventCounts (UseExtinctionEvents.events (hook_after fetches)))
          (UseExtinctionEvents.events (hook_after fetches))).
Proof.
  split.
  - intros bound fetched events c H.
    apply fetchEvents_valid_category in H.
    unfold FilterComponent.getCategoryCounts. simpl.
    by apply initial_counts_ok.
  - intros fetches. unfold App.eventCounts.
    apply initial_counts_ok, hook_after_valid_category.
Qed.

(** The counts of the two loaded events. *)
Lemma getCounts_total_witness :
  counts_ok
    (FilterComponent.getCategoryCounts
       (FilterComponent.mkState
          (DataFetcher.sortEventsByYear two_events_validated) "All"))
    (DataFetcher.sortEventsByYear two_events_validated).
Proof.
  apply (proj1 getCounts_total true (Return (ok_response two_events))).
  vm_compute. reflexivity.
Defined.

(** ** Theme *)

Lemma theme_eqb_eq (a b : Theme) : theme_eqb a b = true <-> a = b.
Proof. by destruct a, b. Qed.

Lemma theme_eqb_refl (a : Theme) : theme_eqb a a = true.
Proof. by destruct a. Qed.

Lemma setTheme_currentTheme theme save this :
  ThemeComponent.currentTheme (ThemeComponent.setTheme theme save this) = theme.
Proof.
  unfold ThemeComponent.setTheme.
  destruct (theme_eqb (ThemeComponent.currentTheme this) theme) eqn:E.
  - by apply theme_eqb_eq in E.
  - unfold ThemeComponent.saveThemePreference.
    destruct theme, save; simpl; try destruct (storageThrows _); reflexivity.
Qed.

Lemma toggle_class_twice (classes : gset string) (cls : string) :
  (let once := if bool_decide (cls ∈ classes) then classes ∖ {[cls]}
               else {[cls]} ∪ classes in
   if bool_decide (cls ∈ once) then once ∖ {[cls]} else {[cls]} ∪ once)
  = classes.
Proof.
  simpl. destruct (bool_decide (cls ∈ classes)) eqn:E.
  - apply bool_decide_eq_true in E.
    rewrite bool_decide_eq_false_2 by set_solver.
    apply set_eq. intros x. destruct (decide (x = cls)); set_solver.
  - apply bool_decide_eq_false in E.
    rewrite bool_decide_eq_true_2 by set_solver. set_solver.
Qed.

(** C6. In every theme state [toggleTheme] flips the theme, whatever it
    is, and two toggles restore it; [setTheme] with the current theme
    returns the state as it was: nothing applied, no button update, no
    write to storage, no notification; a toggle, for its part, does
    persist the new theme where storage can be written.  The plain
    script's [toggleTheme] flips the body class and two toggles restore
    the class list. *)
Theorem toggle_involutive_setTheme_noop :
  (forall this,
     ThemeComponent.currentTheme (ThemeComponent.toggleTheme this)
     = flip (ThemeComponent.currentTheme this))
  /\ (forall this,
        ThemeComponent.currentTheme
          (ThemeComponent.toggleTheme (ThemeComponent.toggleTheme this))
        = ThemeComponent.currentTheme this)
  /\ (forall this saveToStorage,
        ThemeComponent.setTheme (ThemeComponent.currentTheme this)
          saveToStorage this = this)
  /\ (forall this,
        persisted (ThemeComponent.browser (ThemeComponent.toggleTheme this))
          ThemeComponent.storageKey
        = if storageThrows (ThemeComponent.browser this) then None
          else Some (theme_name (flip (ThemeComponent.currentTheme this))))
  /\ (forall b,
        script_theme (Script.toggleTheme b).1 = flip (script_theme b))
  /\ (forall b,
        bodyClassList (Script.toggleTheme (Script.toggleTheme b).1).1
        = bodyClassList b).
Proof.
  assert (forall this,
    ThemeComponent.currentTheme (ThemeComponent.toggleTheme this)
    = flip (ThemeComponent.currentTheme this)) as Hflip.
  { intros this. unfold ThemeComponent.toggleTheme.
    rewrite setTheme_currentTheme.
    by destruct (ThemeComponent.currentTheme this). }
  split; [done|]. split; [|split; [|split; [|split]]].
  - intros this. rewrite !Hflip.
    by destruct (ThemeComponent.currentTheme this).
  - intros this save. unfold ThemeComponent.setTheme.
    by rewrite theme_eqb_refl.
  - intros [theme b effects]. unfold persisted, ThemeComponent.toggleTheme,
      ThemeComponent.setTheme, ThemeComponent.saveThemePreference.
    destruct theme; simpl; destruct (storageThrows b) eqn:Ht; simpl;
      rewrite ?Ht; try done; by rewrite lookup_insert_eq.
  - intros b. unfold script_theme, Script.isDark, Script.toggleTheme.
    destruct (bool_decide ("dark-theme" ∈ bodyClassList b)) eqn:E;
      destruct (storageThrows b); simpl.
    all: first [ rewrite bool_decide_eq_false_2 by set_solver
               | rewrite bool_decide_eq_true_2 by set_solver ]; done.
  - intros b. unfold Script.toggleTheme.
    destruct (storageThrows b); simpl;
      apply (toggle_class_twice (bodyClassList b) "dark-theme").
Qed.

Lemma isValidTheme_precedence (saved : option string) (platform : option bool) :
  match ThemeComponent.isValidTheme saved with
  | Some t => t
  | None => match platform with
            | Some matches => if matches then dark else light
            | None => light
            end
  end = precedence saved platform.
Proof.
  unfold ThemeComponent.isValidTheme, precedence.
  destruct saved as [s|].
  - destruct (String.eqb s "light") eqn:El.
    + apply String.eqb_eq in El as ->. by rewrite decide_True.
    + apply String.eqb_neq in El.
      rewrite decide_False by congruence.
      destruct (String.eqb s "dark") eqn:Ed.
      * apply String.eqb_eq in Ed as ->. by rewrite decide_True.
      * apply String.eqb_neq in Ed. rewrite decide_False by congruence.
        by destruct platform as [[]|].
  - rewrite !decide_False by done. by destruct platform as [[]|].
Qed.

(** C7, as amended.  [ThemeComponent] starts in the theme the precedence
    gives: a persisted "light" or "dark", else the platform's
    colour-scheme preference, else Light; a corrupt, absent or unreadable
    persisted value counts as none.  The plain script's [initializeTheme]
    never asks the platform.  Where reading the storage raises, it throws
    and leaves the page as it was.  Otherwise it adds the dark class when
    the value persisted under its key is "dark" and never removes it: the
    page shows Dark when that value is "dark", and otherwise what its
    body class showed before, which is Light on a page that starts
    without the dark class. *)
Theorem initial_theme_precedence :
  (forall b,
     ThemeComponent.currentTheme (ThemeComponent.create b)
     = precedence (persisted b ThemeComponent.storageKey) (prefersDark b))
  /\ (forall b platform,
        (Script.initializeTheme (with_prefersDark platform b)).2
        = (Script.initializeTheme b).2
        /\ script_theme (Script.initializeTheme (with_prefersDark platform b)).1
           = script_theme (Script.initializeTheme b).1)
  /\ (forall b,
        if storageThrows b then
          (Script.initializeTheme b).1 = b
          /\ is_Some (Script.initializeTheme b).2
        else
          (Script.initializeTheme b).2 = None
          /\ bodyClassList (Script.initializeTheme b).1
             = (if decide (localStorage b !! "theme" = Some "dark")
                then {[ "dark-theme" ]} ∪ bodyClassList b
                else bodyClassList b)
          /\ script_theme (Script.initializeTheme b).1
             = (if decide (localStorage b !! "theme" = Some "dark") then dark
                else script_theme b))
  /\ (forall b,
        storageThrows b = false ->
        "dark-theme" ∉ bodyClassList b ->
        script_theme (Script.initializeTheme b).1
        = if decide (localStorage b !! "theme" = Some "dark") then dark
          else light).
Proof.
  assert (forall b,
    storageThrows b = false ->
    bodyClassList (Script.initializeTheme b).1
    = (if decide (localStorage b !! "theme" = Some "dark")
       then {[ "dark-theme" ]} ∪ bodyClassList b
       else bodyClassList b)
    /\ script_theme (Script.initializeTheme b).1
       = (if decide (localStorage b !! "theme" = Some "dark") then dark
          else script_theme b)) as Hscript.
  { intros b Ht. unfold Script.initializeTheme. rewrite Ht.
    unfold script_theme, Script.isDark.
    destruct (decide (localStorage b !! "theme" = Some "dark")) as [Hd|Hd].
    - rewrite (bool_decide_eq_true_2 (localStorage b !! "theme" = Some "dark"))
        by done. simpl.
      by rewrite bool_decide_eq_true_2 by set_solver.
    - by rewrite (bool_decide_eq_false_2
                    (localStorage b !! "theme" = Some "dark")) by done. }
  split; [|split; [|split]].
  - intros b. unfold ThemeComponent.create, ThemeComponent.initializeTheme.
    rewrite setTheme_currentTheme.
    unfold ThemeComponent.loadThemePreference,
      ThemeComponent.detectSystemTheme, persisted. simpl.
    destruct (storageThrows b).
    + apply (isValidTheme_precedence None).
    + apply isValidTheme_precedence.
  - intros b platform. unfold Script.initializeTheme, with_prefersDark.
    cbn [storageThrows localStorage bodyClassList].
    destruct (storageThrows b); [done|].
    by destruct (bool_decide (localStorage b !! "theme" = Some "dark")).
  - intros b. destruct (storageThrows b) eqn:Ht.
    + unfold Script.initializeTheme. rewrite Ht. by split.
    + split; [|by apply Hscript].
      unfold Script.initializeTheme. rewrite Ht.
      by destruct (bool_decide (localStorage b !! "theme" = Some "dark")).
  - intros b Ht Hclass. rewrite (proj2 (Hscript b Ht)).
    destruct (decide (localStorage b !! "theme" = Some "dark")); [done|].
    unfold script_theme, Script.isDark. by rewrite bool_decide_eq_false_2.
Qed.

(** The plain script on a page whose user chose dark before. *)
Lemma initial_theme_precedence_witness :
  script_theme (Script.initializeTheme returning_dark).1
  = if decide (localStorage returning_dark !! "theme" = Some "dark") then dark
    else light.
Proof.
  apply (proj2 (proj2 (proj2 initial_theme_precedence)) returning_dark).
  - reflexivity.
  - by_compute.
Defined.

(** C7, as stated, fails for the plain script: nothing persisted and a
    platform that prefers dark should give Dark, and the script shows
    Light. *)
Lemma script_ignores_platform_preference :
  precedence (persisted fresh_dark_platform "theme")
             (prefersDark fresh_dark_platform) = dark
  /\ script_theme (Script.initializeTheme fresh_dark_platform).1 = light
  /\ script_theme (Script.initializeTheme fresh_dark_platform).1
     <> precedence (persisted fresh_dark_platform "theme")
                   (prefersDark fresh_dark_platform).
Proof. repeat split; vm_compute; congruence. Qed.

(** ** Modal *)

Lemma ModalComponent_step_consistent this c :
  modal_consistent (ModalComponent.isOpen this)
                   (ModalComponent.currentEvent this) ->
  modal_consistent (ModalComponent.isOpen (ModalComponent_step this c))
                   (ModalComponent.currentEvent (ModalComponent_step this c)).
Proof.
  unfold modal_consistent. intros Hinv. destruct c as [event|]; simpl.
  - split; discriminate.
  - unfold ModalComponent.close.
    destruct (ModalComponent.isOpen this) eqn:E; simpl; [done|].
    by rewrite E.
Qed.

Lemma UseModal_step_consistent st c :
  modal_consistent (UseModal.isOpen (UseModal_step st c))
                   (UseModal.selectedEvent (UseModal_step st c)).
Proof.
  unfold modal_consistent. destruct c as [event|]; simpl; [split; discriminate|done].
Qed.

(** C8. Under every sequence of open and close calls the modal is closed
    exactly when no event is selected.  Opening twice leaves the second
    event as the selection; opening then closing leaves no selection and
    the modal closed; a second close in a row changes nothing.  In
    [ModalComponent] and in [useModal] alike. *)
Theorem modal_open_iff_selected :
  (forall calls,
     let this := foldl ModalComponent_step ModalComponent.initial calls in
     modal_consistent (ModalComponent.isModalOpen this)
                      (ModalComponent.getCurrentEvent this))
  /\ (forall this e1 e2,
        let this' := ModalComponent.open e2 (ModalComponent.open e1 this) in
        ModalComponent.getCurrentEvent this' = Some e2
        /\ ModalComponent.isModalOpen this' = true)
  /\ (forall this e,
        let this' := ModalComponent.close (ModalComponent.open e this) in
        ModalComponent.getCurrentEvent this' = None
        /\ ModalComponent.isModalOpen this' = false)
  /\ (forall this,
        ModalComponent.close (ModalComponent.close this)
        = ModalComponent.close this)
  /\ (forall calls,
        let st := foldl UseModal_step UseModal.initial calls in
        modal_consistent (UseModal.isOpen st) (UseModal.selectedEvent st))
  /\ (forall st e1 e2,
        let st' := UseModal.openModal e2 (UseModal.openModal e1 st) in
        UseModal.selectedEvent st' = Some e2 /\ UseModal.isOpen st' = true)
  /\ (forall st e,
        let st' := UseModal.closeModal (UseModal.openModal e st) in
        UseModal.selectedEvent st' = None /\ UseModal.isOpen st' = false)
  /\ (forall st,
        UseModal.closeModal (UseModal.closeModal st) = UseModal.closeModal st).
Proof.
  repeat apply conj; try done.
  - intros calls. induction calls as [|c calls IH] using rev_ind; [done|].
    rewrite foldl_app. simpl. by apply ModalComponent_step_consistent.
  - intros this. unfold ModalComponent.close.
    destruct (ModalComponent.isOpen this) eqn:E; simpl; by rewrite ?E.
  - intros calls. induction calls as [|c calls IH] using rev_ind; [done|].
    rewrite foldl_app. simpl. apply UseModal_step_consistent.
Qed.

(** ** Renderer *)

Lemma fetchEvents_Throw_message bound fetched e :
  DataFetcher.fetchEvents bound fetched = Throw e ->
  (exists m e0,
     e = TimelineError ("Failed to load timeline data: " +:+ m)
                       "FETCH_ERROR" (Some e0))
  \/ e = ReferenceError "TimelineError is not defined".
Proof.
  unfold DataFetcher.fetchEvents, DataFetcher.createTimelineError.
  match goal with |- match ?a with _ => _ end = _ -> _ => destruct a as [l|e0] end;
    [done|].
  destruct bound; rewrite ?bind_Return, ?bind_Throw; intros [= <-]; eauto.
Qed.

Lemma fetchEvents_Throw_truthy bound fetched e :
  DataFetcher.fetchEvents bound fetched = Throw e ->
  Timeline.truthy (Some (message e)) = true.
Proof.
  intros [(m & e0 & ->)| ->]%fetchEvents_Throw_message; reflexivity.
Qed.

(** A click on a button of a category other than the current one, on a
    page that holds no events: the empty state replaces whatever the
    timeline showed, and the coordinator's loading flag and error stay. *)
Lemma filter_click_empty this button category :
  FilterComponent.allEvents (ExtinctionTimelineApp.filterComponent this) = [] ->
  FilterComponent.getButtonCategory button = Some category ->
  category
  <> FilterComponent.currentFilter (ExtinctionTimelineApp.filterComponent this) ->
  let clicked := filter_click button this in
  ExtinctionTimelineApp.isLoading (ExtinctionTimelineApp.appState clicked)
  = ExtinctionTimelineApp.isLoading (ExtinctionTimelineApp.appState this)
  /\ ExtinctionTimelineApp.error (ExtinctionTimelineApp.appState clicked)
     = ExtinctionTimelineApp.error (ExtinctionTimelineApp.appState this)
  /\ ExtinctionTimelineApp.filteredEvents
       (ExtinctionTimelineApp.filter (ExtinctionTimelineApp.appState clicked))
     = []
  /\ TimelineRenderer.content (ExtinctionTimelineApp.timelineRenderer clicked)
     = TimelineRenderer.EmptyState
  /\ TimelineRenderer.loadingDisplay
       (ExtinctionTimelineApp.timelineRenderer clicked)
     = TimelineRenderer.loadingDisplay
         (ExtinctionTimelineApp.timelineRenderer this).
Proof.
  intros Hnone Hbutton Hother.
  destruct this as [a r [allEvents currentFilter]]. simpl in Hnone, Hother.
  subst allEvents. unfold filter_click, ExtinctionTimelineApp.withFilterComponent,
    FilterComponent.handleFilterClick. rewrite Hbutton.
  unfold FilterComponent.setActiveFilter. cbn [ExtinctionTimelineApp.filterComponent
    FilterComponent.currentFilter FilterComponent.allEvents].
  assert (String.eqb currentFilter category = false) as ->
    by (apply String.eqb_neq; congruence).
  unfold FilterComponent.applyCurrentFilter, FilterComponent.getFilteredEvents.
  cbn [FilterComponent.currentFilter FilterComponent.allEvents].
  rewrite filter_nil.
  by destruct (String.eqb category "All").
Qed.

(** C9.  The React [Timeline] follows the precedence: loading, else an
    error that is set, else the empty state, else the entries.  The
    class-based page does not.  After a load that failed, with the error
    recorded and the error panel up, a click on a filter button puts the
    empty-state message in the panel's place while the error stays set;
    and a click while the load is pending puts the empty-state message
    beside the loading indicator.  [TimelineRenderer.render] reads
    neither the loading flag nor the error. *)
Theorem filter_click_overrides_error_and_loading :
  (forall events isLoading error,
     Timeline.Timeline events isLoading error
     = view_by_precedence events isLoading (set_error error))
  /\
  (forall bound fetched e this button category,
     ExtinctionTimelineApp.loadEvents bound fetched = Throw e ->
     FilterComponent.allEvents (ExtinctionTimelineApp.filterComponent this) = [] ->
     FilterComponent.getButtonCategory button = Some category ->
     category
     <> FilterComponent.currentFilter
          (ExtinctionTimelineApp.filterComponent this) ->
     let failed := ExtinctionTimelineApp.initialize bound fetched this in
     let clicked := filter_click button failed in
     (ExtinctionTimelineApp.isLoading (ExtinctionTimelineApp.appState failed)
      = false
      /\ ExtinctionTimelineApp.error (ExtinctionTimelineApp.appState failed)
         = Some (message e)
      /\ TimelineRenderer.content
           (ExtinctionTimelineApp.timelineRenderer failed)
         = TimelineRenderer.ErrorPanel
             (TimelineRenderer.escapeHtml (message e)))
     /\
     (ExtinctionTimelineApp.isLoading (ExtinctionTimelineApp.appState clicked)
      = false
      /\ ExtinctionTimelineApp.error (ExtinctionTimelineApp.appState clicked)
         = Some (message e)
      /\ set_error (Some (message e)) = Some (message e)
      /\ ExtinctionTimelineApp.filteredEvents
           (ExtinctionTimelineApp.filter
              (ExtinctionTimelineApp.appState clicked)) = []
      /\ view_by_precedence [] false (set_error (Some (message e)))
         = Timeline.ErrorDisplay (message e)
      /\ TimelineRenderer.content
           (ExtinctionTimelineApp.timelineRenderer clicked)
         = TimelineRenderer.EmptyState))
  /\
  (forall this button category display,
     TimelineRenderer.loadingDisplay
       (ExtinctionTimelineApp.timelineRenderer this) = Some display ->
     FilterComponent.allEvents (ExtinctionTimelineApp.filterComponent this) = [] ->
     FilterComponent.getButtonCategory button = Some category ->
     category
     <> FilterComponent.currentFilter
          (ExtinctionTimelineApp.filterComponent this) ->
     let pending := ExtinctionTimelineApp.initialize_begin this in
     let clicked := filter_click button pending in
     ExtinctionTimelineApp.isLoading (ExtinctionTimelineApp.appState clicked)
     = true
     /\ TimelineRenderer.loadingDisplay
          (ExtinctionTimelineApp.timelineRenderer clicked) = Some "block"
     /\ TimelineRenderer.content
          (ExtinctionTimelineApp.timelineRenderer clicked)
        = TimelineRenderer.EmptyState).
Proof.
  split; [|split].
  - intros events isLoading error.
    unfold Timeline.Timeline, view_by_precedence, set_error.
    destruct isLoading; [done|].
    destruct (Timeline.truthy error) eqn:E.
    + by destruct error.
    + by destruct events.
  - intros bound fetched e this button category Hload Hnone Hbutton Hother
      failed clicked.
    assert (ExtinctionTimelineApp.isLoading
              (ExtinctionTimelineApp.appState failed) = false
            /\ ExtinctionTimelineApp.error
                 (ExtinctionTimelineApp.appState failed) = Some (message e)
            /\ TimelineRenderer.content
                 (ExtinctionTimelineApp.timelineRenderer failed)
               = TimelineRenderer.ErrorPanel
                   (TimelineRenderer.escapeHtml (message e))
            /\ ExtinctionTimelineApp.filterComponent failed
               = ExtinctionTimelineApp.filterComponent this) as (Hl & He & Hc & Hf).
    { subst failed. unfold ExtinctionTimelineApp.initialize. rewrite Hload.
      unfold ExtinctionTimelineApp.initialize_resume,
        ExtinctionTimelineApp.handleApplicationError,
        ExtinctionTimelineApp.initialize_begin,
        ExtinctionTimelineApp.setLoadingState, TimelineRenderer.setLoading,
        TimelineRenderer.renderError.
      destruct this as [a [c k n [d|]] f]; simpl; done. }
    split; [done|].
    destruct (filter_click_empty failed button category) as (Hl' & He' & Hf' & Hc' & _).
    { by rewrite Hf. } { done. } { by rewrite Hf. }
    fold clicked in Hl', He', Hf', Hc'.
    assert (set_error (Some (message e)) = Some (message e)) as Hset.
    { unfold set_error. unfold ExtinctionTimelineApp.loadEvents in Hload.
      by rewrite (fetchEvents_Throw_truthy _ _ _ Hload). }
    rewrite Hl', He', Hl, He, Hset. done.
  - intros this button category display Hdisplay Hnone Hbutton Hother
      pending clicked.
    assert (ExtinctionTimelineApp.isLoading
              (ExtinctionTimelineApp.appState pending) = true
            /\ TimelineRenderer.loadingDisplay
                 (ExtinctionTimelineApp.timelineRenderer pending)
               = Some "block"
            /\ ExtinctionTimelineApp.filterComponent pending
               = ExtinctionTimelineApp.filterComponent this) as (Hl & Hd & Hf).
    { subst pending. unfold ExtinctionTimelineApp.initialize_begin,
        ExtinctionTimelineApp.setLoadingState, TimelineRenderer.setLoading.
      rewrite Hdisplay. done. }
    destruct (filter_click_empty pending button category) as (Hl' & _ & _ & Hc' & Hd').
    { by rewrite Hf. } { done. } { by rewrite Hf. }
    fold clicked in Hl', Hc', Hd'. by rewrite Hl', Hd', Hl, Hd.
Qed.

(** The load fails for want of an answer, on a build in which
    [TimelineError] is unbound, and the visitor clicks "Birds". *)
Lemma filter_click_overrides_error_and_loading_witness :
  let failed :=
    ExtinctionTimelineApp.initialize false network_failure fresh_page in
  let clicked := filter_click birds_button failed in
  TimelineRenderer.content (ExtinctionTimelineApp.timelineRenderer failed)
  = TimelineRenderer.ErrorPanel "TimelineError is not defined"
  /\ ExtinctionTimelineApp.error (ExtinctionTimelineApp.appState clicked)
     = Some "TimelineError is not defined"
  /\ TimelineRenderer.content (ExtinctionTimelineApp.timelineRenderer clicked)
     = TimelineRenderer.EmptyState.
Proof.
  intros failed clicked.
  destruct (proj1 (proj2 filter_click_overrides_error_and_loading)
              false network_failure
              (ReferenceError "TimelineError is not defined")
              fresh_page birds_button "Birds")
    as ((_ & _ & Hpanel) & (_ & Herror & _ & _ & _ & Hcontent)).
  - reflexivity.
  - reflexivity.
  - reflexivity.
  - discriminate.
  - split; [exact Hpanel|]. split; [exact Herror|exact Hcontent].
Defined.

(** ** Event entry *)

(** C10 fails in [EventMarker]: on Enter and on Space [handleKeyDown]
    calls [onClick] with the keyboard event, the parameter that hides the
    [event] prop, where [handleClick] passes the entry's
    [ExtinctionEvent].  The handler does not depend on the entry at all,
    and no key makes it hand over an [ExtinctionEvent].  The class-based
    [TimelineRenderer.handleKeydown] answers both keys with the very
    click a pointer would make on the entry. *)
Theorem keyboard_activation_passes_dom_event :
  EventMarker.handleClick dodo
  = [EventMarker.OnClick (EventMarker.OfExtinctionEvent dodo)]
  /\ EventMarker.handleKeyDown (EventMarker.mkKeyboardEvent "Enter" false)
     = [EventMarker.PreventDefault;
        EventMarker.OnClick
          (EventMarker.OfKeyboardEvent
             (EventMarker.mkKeyboardEvent "Enter" false))]
  /\ EventMarker.handleKeyDown (EventMarker.mkKeyboardEvent " " false)
     = [EventMarker.PreventDefault;
        EventMarker.OnClick
          (EventMarker.OfKeyboardEvent (EventMarker.mkKeyboardEvent " " false))]
  /\ (forall event k,
        EventMarker.OnClick (EventMarker.OfExtinctionEvent event)
        ∉ EventMarker.handleKeyDown k)
  /\ TimelineRenderer.handleKeydown
       (TimelineRenderer.mkKeyboardEvent "Enter" dodo_article)
     = [TimelineRenderer.PreventDefault; TimelineRenderer.Click dodo_article]
  /\ TimelineRenderer.handleKeydown
       (TimelineRenderer.mkKeyboardEvent " " dodo_article)
     = [TimelineRenderer.PreventDefault; TimelineRenderer.Click dodo_article].
Proof.
  repeat split; try reflexivity.
  intros event k Hin. unfold EventMarker.handleKeyDown in Hin.
  destruct (_ || _).
  - repeat (apply elem_of_cons in Hin as [Hin|Hin]; [discriminate|]).
    by apply elem_of_nil in Hin.
  - by apply elem_of_nil in Hin.
Qed.

(** * Further properties *)

(** ** Excerpts *)

Lemma length_append (a b : string) :
  String.length (a +:+ b) = String.length a + String.length b.
Proof.
  induction a as [|c a IH]; [done|]. rewrite append_cons. simpl. by rewrite IH.
Qed.

Lemma substring_0_length (n : nat) (s : string) :
  String.length (substring 0 n s) = Nat.min n (String.length s).
Proof.
  revert s. induction n as [|n IH]; intros [|c s]; simpl; try done.
  by rewrite IH.
Qed.

Lemma substring_0_append (a b : string) :
  substring 0 (String.length a) (a +:+ b) = a.
Proof.
  induction a as [|c a IH]; [by destruct b|].
  rewrite append_cons. simpl. by rewrite IH.
Qed.

(** X1. [truncateText] returns a short text as it is and cuts a longer one
    to its first [maxLength] characters followed by three dots: the
    result is [maxLength + 3] long then, never longer, and agrees with
    the text on the first [maxLength] characters.  The three copies of
    the function are one function. *)
Theorem truncateText_bounded :
  forall text maxLength,
    String.length (TimelineRenderer.truncateText text maxLength)
    = (if Nat.leb (String.length text) maxLength then String.length text
       else maxLength + 3)
    /\ String.length (TimelineRenderer.truncateText text maxLength)
       <= maxLength + 3
    /\ substring 0 maxLength (TimelineRenderer.truncateText text maxLength)
       = substring 0 maxLength text
    /\ EventMarker.truncateText text maxLength
       = TimelineRenderer.truncateText text maxLength
    /\ Script.truncateText text maxLength
       = TimelineRenderer.truncateText text maxLength.
Proof.
  intros text maxLength. unfold TimelineRenderer.truncateText.
  destruct (Nat.leb (String.length text) maxLength) eqn:E.
  - pose proof E as E'. apply Nat.leb_le in E'.
    unfold EventMarker.truncateText, Script.truncateText. rewrite E.
    repeat split; try done. lia.
  - apply Nat.leb_gt in E.
    assert (String.length (substring 0 maxLength text) = maxLength) as Hlen
      by (rewrite substring_0_length; lia).
    repeat split.
    + rewrite length_append, Hlen. reflexivity.
    + rewrite length_append, Hlen. simpl. lia.
    + rewrite <- Hlen at 1. apply substring_0_append.
    + unfold EventMarker.truncateText.
      by rewrite (proj2 (Nat.leb_gt _ _) E).
    + unfold Script.truncateText.
      by rewrite (proj2 (Nat.leb_gt _ _) E).
Qed.

(** ** The filter component *)

Lemma Set_add_fold (events : list ExtinctionEvent) (acc : list string) :
  NoDup acc ->
  let categories :=
    foldl (fun categories event =>
             FilterComponent.Set_add (category event) categories) acc events in
  NoDup categories
  /\ acc `prefix_of` categories
  /\ forall c, c ∈ categories
               <-> c ∈ acc \/ exists e, e ∈ events /\ category e = c.
Proof.
  revert acc. induction events as [|e events IH]; intros acc Hacc; simpl.
  - split; [done|]. split; [done|]. intros c. split; [by left|].
    intros [?|(e & He & _)]; [done|]. by apply elem_of_nil in He.
  - assert (NoDup (FilterComponent.Set_add (category e) acc)) as Hnd.
    { unfold FilterComponent.Set_add.
      destruct (bool_decide (category e ∈ acc)) eqn:E; [done|].
      apply bool_decide_eq_false in E.
      apply NoDup_app. split; [done|]. split; [|apply NoDup_singleton].
      intros x Hx Hx'. apply list_elem_of_singleton in Hx' as ->. done. }
    destruct (IH _ Hnd) as (IH1 & IH2 & IH3). split; [done|]. split.
    + etrans; [|exact IH2]. unfold FilterComponent.Set_add.
      destruct (bool_decide (category e ∈ acc)); [done|].
      by apply prefix_app_r.
    + intros c. rewrite IH3. unfold FilterComponent.Set_add.
      destruct (bool_decide (category e ∈ acc)) eqn:E.
      * apply bool_decide_eq_true in E. split.
        -- intros [?|(e' & He' & Hc)]; [by left|]. right. exists e'.
           split; [by right|done].
        -- intros [?|(e' & He' & Hc)]; [by left|].
           apply elem_of_cons in He' as [->|He']; [left; by rewrite <- Hc|].
           right. by exists e'.
      * split.
        -- intros [Hc|(e' & He' & Hc)].
           ++ apply elem_of_app in Hc as [?|Hc]; [by left|].
              apply list_elem_of_singleton in Hc as ->. right. exists e.
              split; [by left|done].
           ++ right. exists e'. split; [by right|done].
        -- intros [?|(e' & He' & Hc)].
           ++ left. apply elem_of_app. by left.
           ++ apply elem_of_cons in He' as [->|He'].
              ** left. apply elem_of_app. right.
                 by apply list_elem_of_singleton.
              ** right. by exists e'.
Qed.

(** X2. [getAvailableCategories] lists "All" first and then the
    categories that occur among the events, each once: nothing is listed
    twice, and a category is listed exactly when it is "All" or some
    event has it. *)
Theorem available_categories_exact :
  forall this,
    NoDup (FilterComponent.getAvailableCategories this)
    /\ head (FilterComponent.getAvailableCategories this) = Some "All"
    /\ forall c,
         c ∈ FilterComponent.getAvailableCategories this
         <-> c = "All"
             \/ exists e, e ∈ FilterComponent.allEvents this /\ category e = c.
Proof.
  intros this. unfold FilterComponent.getAvailableCategories.
  destruct (Set_add_fold (FilterComponent.allEvents this) ["All"])
    as (Hnd & Hpre & Hin); [apply NoDup_singleton|].
  split; [done|]. split.
  - destruct Hpre as [k ->]. reflexivity.
  - intros c. rewrite Hin. by rewrite list_elem_of_singleton.
Qed.

Lemma getCategoryCounts_ok (this : FilterComponent.State) :
  Forall valid_category (FilterComponent.allEvents this) ->
  counts_ok (FilterComponent.getCategoryCounts this)
            (FilterComponent.allEvents this).
Proof. apply initial_counts_ok. Qed.

Lemma isValidCategory_cases (c : string) :
  FilterComponent.isValidCategory c = true ->
  c = "All" \/ c = "Mammals" \/ c = "Birds" \/ c = "Reptiles".
Proof.
  unfold FilterComponent.isValidCategory. intros H%bool_decide_eq_true.
  repeat (apply elem_of_cons in H as [->|H]; [tauto|]).
  by apply elem_of_nil in H.
Qed.

(** X3. Where the events are loaded ones and the current filter is one
    of the four, the statistics of [getFilterStats] agree with each
    other: the count reported for the active category is the number of
    filtered events, the count for "All" is the total, and the filtered
    events are no more than the total. *)
Theorem filter_stats_agree :
  forall this,
    Forall valid_category (FilterComponent.allEvents this) ->
    FilterComponent.isValidCategory (FilterComponent.currentFilter this) = true ->
    let stats := FilterComponent.getFilterStats this in
    FilterComponent.categories stats
      !! FilterComponent.stats_activeCategory stats
    = Some (FilterComponent.filtered stats)
    /\ FilterComponent.categories stats !! "All"
       = Some (FilterComponent.total stats)
    /\ length (FilterComponent.getFilteredEvents this)
       <= length (FilterComponent.allEvents this).
Proof.
  intros [events c] Hvalid Hc stats. subst stats.
  unfold FilterComponent.getFilterStats. simpl in *.
  destruct (getCategoryCounts_ok (FilterComponent.mkState events c) Hvalid)
    as (_ & Hall & Hm & Hb & Hr & _). simpl in *.
  split; [|split; [done|]].
  - unfold FilterComponent.getFilteredEvents. simpl.
    destruct (isValidCategory_cases c Hc) as [->|[->|[->| ->]]]; done.
  - unfold FilterComponent.getFilteredEvents. simpl.
    destruct (String.eqb c "All"); [done|]. apply length_filter.
Qed.

(** The two events under the filter "Birds". *)
Lemma filter_stats_agree_witness :
  let stats :=
    FilterComponent.getFilterStats
      (FilterComponent.mkState two_events_validated "Birds") in
  FilterComponent.categories stats !! "Birds" = Some (of_nat 1)
  /\ FilterComponent.categories stats !! "All" = Some (of_nat 2).
Proof.
  destruct (filter_stats_agree
              (FilterComponent.mkState two_events_validated "Birds"))
    as (H1 & H2 & _).
  - repeat constructor; by_compute.
  - reflexivity.
  - split; [exact H1|exact H2].
Defined.

(** ** The hook over time *)

Lemma setActiveFilterSafe_valid filter st :
  UseExtinctionEvents.activeFilter st ∈ ["All"; "Mammals"; "Birds"; "Reptiles"] ->
  UseExtinctionEvents.activeFilter
    (UseExtinctionEvents.setActiveFilterSafe filter st)
  ∈ ["All"; "Mammals"; "Birds"; "Reptiles"].
Proof.
  intros H. unfold UseExtinctionEvents.setActiveFilterSafe.
  destruct (bool_decide (filter ∈ ["All"; "Mammals"; "Birds"; "Reptiles"])) eqn:E;
    [|done].
  by apply bool_decide_eq_true in E.
Qed.

Lemma hook_step_invariant st c :
  UseExtinctionEvents.activeFilter st ∈ ["All"; "Mammals"; "Birds"; "Reptiles"]
  /\ Forall valid_category (UseExtinctionEvents.events st) ->
  UseExtinctionEvents.activeFilter (hook_step st c)
  ∈ ["All"; "Mammals"; "Birds"; "Reptiles"]
  /\ Forall valid_category (UseExtinctionEvents.events (hook_step st c)).
Proof.
  intros [Hf He]. destruct c as [fetched|filter]; simpl.
  - split; [|by apply hook_fetch_valid_category].
    unfold UseExtinctionEvents.fetchEvents.
    by destruct (UseExtinctionEvents.attempt fetched).
  - split; [by apply setActiveFilterSafe_valid|].
    unfold UseExtinctionEvents.setActiveFilterSafe.
    by destruct (bool_decide _).
Qed.

(** X4. Whatever fetches settle and whatever strings are passed as the
    filter, in whatever order, the hook's active filter is one of All,
    Mammals, Birds and Reptiles, and the count that [App] computes for
    the active filter is the number of events the hook hands to the
    timeline. *)
Theorem hook_count_of_active_filter_is_shown :
  forall calls,
    let st := foldl hook_step UseExtinctionEvents.initial calls in
    UseExtinctionEvents.activeFilter st
    ∈ ["All"; "Mammals"; "Birds"; "Reptiles"]
    /\ App.eventCounts (UseExtinctionEvents.events st)
         !! UseExtinctionEvents.activeFilter st
       = Some (of_nat (length (UseExtinctionEvents.filteredEvents st))).
Proof.
  intros calls st.
  assert (UseExtinctionEvents.activeFilter st
          ∈ ["All"; "Mammals"; "Birds"; "Reptiles"]
          /\ Forall valid_category (UseExtinctionEvents.events st)) as [Hf He].
  { subst st. induction calls as [|c calls IH] using rev_ind.
    - split; [by_compute|constructor].
    - rewrite foldl_app. simpl. by apply hook_step_invariant. }
  split; [done|].
  destruct (initial_counts_ok _ He) as (_ & Hall & Hm & Hb & Hr & _).
  unfold App.eventCounts, UseExtinctionEvents.filteredEvents.
  repeat (apply elem_of_cons in Hf as [->|Hf]; [done|]).
  by apply elem_of_nil in Hf.
Qed.

(** X5. In the React tree a change of filter touches neither the events
    nor the loading flag nor the error, so while a load is pending or an
    error is set the timeline shows after the change what it showed
    before: the spinner, or the error panel. *)
Theorem hook_filter_change_keeps_spinner_and_error :
  forall st filter,
    let st' := UseExtinctionEvents.setActiveFilterSafe filter st in
    UseExtinctionEvents.events st' = UseExtinctionEvents.events st
    /\ UseExtinctionEvents.isLoading st' = UseExtinctionEvents.isLoading st
    /\ UseExtinctionEvents.error st' = UseExtinctionEvents.error st
    /\ (UseExtinctionEvents.isLoading st = true
        \/ Timeline.truthy (UseExtinctionEvents.error st) = true ->
        Timeline.Timeline (UseExtinctionEvents.filteredEvents st')
          (UseExtinctionEvents.isLoading st') (UseExtinctionEvents.error st')
        = Timeline.Timeline (UseExtinctionEvents.filteredEvents st)
            (UseExtinctionEvents.isLoading st) (UseExtinctionEvents.error st)).
Proof.
  intros st filter st'. subst st'.
  unfold UseExtinctionEvents.setActiveFilterSafe.
  destruct (bool_decide _); [|done]. simpl.
  repeat split. intros H. unfold Timeline.Timeline.
  destruct (UseExtinctionEvents.isLoading st); [done|].
  destruct H as [H|H]; [done|]. by rewrite H.
Qed.

(** A failed load, then a click on "Birds": the error panel stays. *)
Lemma hook_filter_change_keeps_spinner_and_error_witness :
  let st := UseExtinctionEvents.fetchEvents network_failure
              UseExtinctionEvents.initial in
  Timeline.Timeline
    (UseExtinctionEvents.filteredEvents
       (UseExtinctionEvents.setActiveFilterSafe "Birds" st))
    false (Some "Failed to fetch")
  = Timeline.ErrorDisplay "Failed to fetch".
Proof.
  intros st.
  destruct (hook_filter_change_keeps_spinner_and_error st "Birds")
    as (_ & _ & _ & H).
  exact (H (or_intror eq_refl)).
Defined.

Lemma nonempty_truthy (c : ascii) (m : string) :
  Timeline.truthy (Some (String c m)) = true.
Proof. reflexivity. Qed.

Lemma hook_attempt_message response e :
  UseExtinctionEvents.attempt (Return response) = Throw e ->
  (ok response = true -> exists data, json response = Return data) ->
  exists c m, message e = String c m.
Proof.
  unfold UseExtinctionEvents.attempt. rewrite bind_Return.
  destruct (ok response); cbn [negb].
  - intros H Hjson. destruct (Hjson eq_refl) as [data Hdata].
    rewrite Hdata, bind_Return in H.
    destruct data; simpl in H; try (injection H as <-; by eexists _, _).
    destruct (fields !! "events") as [[| | | |items|]|];
      simpl in H; try (injection H as <-; by eexists _, _).
    unfold mapi in H.
    match type of H with
    | context [mapi_from ?f 0 items] =>
        destruct (mapi_from_cases f items 0)
          as [(ys & Hys & _)|(i & x & e' & _ & He & Hm & _)]
    end.
    + by rewrite Hys, bind_Return in H.
    + rewrite Hm, bind_Throw in H. injection H as <-.
      simpl in He. destruct (UseExtinctionEvents.isValidEvent x); [done|].
      injection He as <-. by eexists _, _.
  - intros [= <-] _. by eexists _, _.
Qed.

(** X6. When the server answered and the load still failed (a status
    that is not ok, or a body that parsed and did not validate), the
    hook keeps the events it had, records a message that is not empty,
    and the timeline shows the error panel with that message, whatever
    events are at hand and whatever the filter. *)
Theorem hook_failed_load_shows_error_panel :
  forall response st e,
    UseExtinctionEvents.attempt (Return response) = Throw e ->
    (ok response = true -> exists data, json response = Return data) ->
    let st' := UseExtinctionEvents.fetchEvents (Return response) st in
    UseExtinctionEvents.events st' = UseExtinctionEvents.events st
    /\ message e <> ""
    /\ Timeline.Timeline (UseExtinctionEvents.filteredEvents st')
         (UseExtinctionEvents.isLoading st') (UseExtinctionEvents.error st')
       = Timeline.ErrorDisplay (message e).
Proof.
  intros response st e Ha Hjson st'. subst st'.
  destruct (hook_attempt_message _ _ Ha Hjson) as (c & m & Hm).
  unfold UseExtinctionEvents.fetchEvents. rewrite Ha.
  cbn [UseExtinctionEvents.events UseExtinctionEvents.isLoading
       UseExtinctionEvents.error].
  split; [done|]. split; [by rewrite Hm|].
  unfold Timeline.Timeline. rewrite Hm, nonempty_truthy. reflexivity.
Qed.

(** A 404 with the two events at hand. *)
Lemma hook_failed_load_shows_error_panel_witness :
  let st' :=
    UseExtinctionEvents.fetchEvents
      (Return (mkResponse false 404 "Not Found" (Return Null)))
      (UseExtinctionEvents.mkState two_events_cast false None "All") in
  UseExtinctionEvents.events st' = two_events_cast
  /\ Timeline.Timeline (UseExtinctionEvents.filteredEvents st')
       (UseExtinctionEvents.isLoading st') (UseExtinctionEvents.error st')
     = Timeline.ErrorDisplay "HTTP 404: Not Found".
Proof.
  intros st'.
  destruct (hook_failed_load_shows_error_panel
              (mkResponse false 404 "Not Found" (Return Null))
              (UseExtinctionEvents.mkState two_events_cast false None "All")
              (PlainError "HTTP 404: Not Found"))
    as (H1 & _ & H2).
  - reflexivity.
  - discriminate.
  - split; [exact H1|exact H2].
Defined.

(** ** The theme over time *)

Lemma setTheme_bodyClassList theme save this :
  bodyClassList (ThemeComponent.browser (ThemeComponent.setTheme theme save this))
  = if theme_eqb (ThemeComponent.currentTheme this) theme
    then bodyClassList (ThemeComponent.browser this)
    else if theme_eqb theme dark
         then {[ "dark-theme" ]} ∪ bodyClassList (ThemeComponent.browser this)
         else bodyClassList (ThemeComponent.browser this) ∖ {[ "dark-theme" ]}.
Proof.
  unfold ThemeComponent.setTheme.
  destruct (theme_eqb (ThemeComponent.currentTheme this) theme); [done|].
  unfold ThemeComponent.saveThemePreference.
  destruct theme, save; simpl; try destruct (storageThrows _); reflexivity.
Qed.

Lemma setTheme_localStorage theme save this :
  localStorage (ThemeComponent.browser (ThemeComponent.setTheme theme save this))
  = if theme_eqb (ThemeComponent.currentTheme this) theme
       || negb save || storageThrows (ThemeComponent.browser this)
    then localStorage (ThemeComponent.browser this)
    else <[ThemeComponent.storageKey := theme_name theme]>
           (localStorage (ThemeComponent.browser this)).
Proof.
  unfold ThemeComponent.setTheme.
  destruct (theme_eqb (ThemeComponent.currentTheme this) theme); [done|].
  unfold ThemeComponent.saveThemePreference.
  destruct theme, save; simpl;
    try destruct (storageThrows (ThemeComponent.browser this)) eqn:E;
    simpl; rewrite ?E; reflexivity.
Qed.

Lemma setTheme_storageThrows theme save this :
  storageThrows (ThemeComponent.browser (ThemeComponent.setTheme theme save this))
  = storageThrows (ThemeComponent.browser this).
Proof.
  unfold ThemeComponent.setTheme.
  destruct (theme_eqb (ThemeComponent.currentTheme this) theme); [done|].
  unfold ThemeComponent.saveThemePreference.
  destruct theme, save; simpl;
    try destruct (storageThrows (ThemeComponent.browser this)) eqn:E;
    simpl; rewrite ?E; reflexivity.
Qed.

Lemma create_currentTheme b :
  ThemeComponent.currentTheme (ThemeComponent.create b)
  = match ThemeComponent.loadThemePreference (ThemeComponent.mkState light b [])
    with
    | Some t => t
    | None => ThemeComponent.detectSystemTheme (ThemeComponent.mkState light b [])
    end.
Proof.
  unfold ThemeComponent.create, ThemeComponent.initializeTheme.
  apply setTheme_currentTheme.
Qed.

Lemma isValidTheme_name (t : Theme) :
  ThemeComponent.isValidTheme (Some (theme_name t)) = Some t.
Proof. by destruct t. Qed.

Lemma toggleTheme_storage this :
  storageThrows (ThemeComponent.browser this) = false ->
  localStorage (ThemeComponent.browser (ThemeComponent.toggleTheme this))
    !! ThemeComponent.storageKey
  = Some (theme_name (flip (ThemeComponent.currentTheme this))).
Proof.
  intros Ht. unfold ThemeComponent.toggleTheme.
  rewrite setTheme_localStorage, Ht.
  destruct (ThemeComponent.currentTheme this); simpl;
    by rewrite lookup_insert_eq.
Qed.

Lemma toggleTheme_persisted this :
  storageThrows (ThemeComponent.browser this) = false ->
  ThemeComponent.loadThemePreference (ThemeComponent.toggleTheme this)
  = Some (flip (ThemeComponent.currentTheme this)).
Proof.
  intros Ht. unfold ThemeComponent.loadThemePreference.
  cbv zeta. rewrite (toggleTheme_storage this Ht).
  unfold ThemeComponent.toggleTheme. rewrite setTheme_storageThrows, Ht.
  apply isValidTheme_name.
Qed.

(** X7. A theme chosen with the toggle survives a reload: where the
    storage can be written and read, a page that starts on the storage
    the toggle left starts in the theme the toggle set, whatever the
    platform prefers. *)
Theorem toggled_theme_survives_reload :
  forall this b',
    storageThrows (ThemeComponent.browser this) = false ->
    storageThrows b' = false ->
    localStorage b'
    = localStorage (ThemeComponent.browser (ThemeComponent.toggleTheme this)) ->
    ThemeComponent.currentTheme (ThemeComponent.create b')
    = ThemeComponent.currentTheme (ThemeComponent.toggleTheme this)
    /\ ThemeComponent.currentTheme (ThemeComponent.create b')
       = flip (ThemeComponent.currentTheme this).
Proof.
  intros this b' Ht Ht' Hs.
  rewrite create_currentTheme. unfold ThemeComponent.loadThemePreference.
  cbn [ThemeComponent.browser]. cbv zeta.
  rewrite Ht', Hs, (toggleTheme_storage this Ht), isValidTheme_name.
  split; [|done]. unfold ThemeComponent.toggleTheme.
  rewrite setTheme_currentTheme.
  by destruct (ThemeComponent.currentTheme this).
Qed.

(** A first visit on a platform that prefers dark, a toggle to light,
    and a reload on the same platform. *)
Lemma toggled_theme_survives_reload_witness :
  ThemeComponent.currentTheme
    (ThemeComponent.create
       (mkBrowser {[ThemeComponent.storageKey := "light"]} false (Some true) ∅
                  None "" ""))
  = light.
Proof.
  destruct (toggled_theme_survives_reload
              (ThemeComponent.create fresh_dark_platform)
              (mkBrowser {[ThemeComponent.storageKey := "light"]} false
                         (Some true) ∅ None "" ""))
    as [_ H].
  - reflexivity.
  - reflexivity.
  - by_compute.
  - exact H.
Defined.

(** X8. The page follows the platform's colour scheme until the visitor
    chooses.  With no valid preference persisted, a change of the
    platform's preference sets the theme to it and writes nothing to the
    storage.  After a toggle on a storage that can be written, a change
    of the platform's preference changes nothing at all.  On a storage
    that raises, the toggle is not persisted, and the next change of the
    platform's preference overrides the visitor's choice. *)
Theorem system_theme_followed_until_choice :
  (forall this matches,
     ThemeComponent.loadThemePreference this = None ->
     let this' := ThemeComponent.onSystemThemeChange matches this in
     ThemeComponent.currentTheme this' = (if matches then dark else light)
     /\ localStorage (ThemeComponent.browser this')
        = localStorage (ThemeComponent.browser this))
  /\ (forall this matches,
        storageThrows (ThemeComponent.browser this) = false ->
        ThemeComponent.onSystemThemeChange matches
          (ThemeComponent.toggleTheme this)
        = ThemeComponent.toggleTheme this)
  /\ (forall this matches,
        storageThrows (ThemeComponent.browser this) = true ->
        ThemeComponent.currentTheme
          (ThemeComponent.onSystemThemeChange matches
             (ThemeComponent.toggleTheme this))
        = (if matches then dark else light)).
Proof.
  split; [|split].
  - intros this matches Hnone this'. subst this'.
    unfold ThemeComponent.onSystemThemeChange. rewrite Hnone.
    rewrite setTheme_currentTheme, setTheme_localStorage.
    split; [done|]. cbn [negb]. by rewrite orb_true_r.
  - intros this matches Ht. unfold ThemeComponent.onSystemThemeChange.
    by rewrite (toggleTheme_persisted this Ht).
  - intros this matches Ht. unfold ThemeComponent.onSystemThemeChange.
    assert (ThemeComponent.loadThemePreference (ThemeComponent.toggleTheme this)
            = None) as ->.
    { unfold ThemeComponent.loadThemePreference, ThemeComponent.toggleTheme.
      cbv zeta. by rewrite setTheme_storageThrows, Ht. }
    apply setTheme_currentTheme.
Qed.

(** A first visit on a platform that prefers dark; the platform turns
    to light. *)
Lemma system_theme_followed_until_choice_witness :
  ThemeComponent.currentTheme
    (ThemeComponent.onSystemThemeChange false
       (ThemeComponent.create fresh_dark_platform)) = light
  /\ ThemeComponent.onSystemThemeChange true
       (ThemeComponent.toggleTheme (ThemeComponent.create fresh_dark_platform))
     = ThemeComponent.toggleTheme (ThemeComponent.create fresh_dark_platform).
Proof.
  split.
  - apply (proj1 system_theme_followed_until_choice
             (ThemeComponent.create fresh_dark_platform) false).
    reflexivity.
  - apply (proj1 (proj2 system_theme_followed_until_choice)
             (ThemeComponent.create fresh_dark_platform) true).
    reflexivity.
Defined.

Lemma theme_step_localStorage this c :
  localStorage (ThemeComponent.browser (theme_step this c))
  = localStorage (ThemeComponent.browser this)
  \/ exists t,
       storageThrows (ThemeComponent.browser this) = false
       /\ (c = Toggle \/ c = SetTheme t true)
       /\ localStorage (ThemeComponent.browser (theme_step this c))
          = <[ThemeComponent.storageKey := theme_name t]>
              (localStorage (ThemeComponent.browser this)).
Proof.
  destruct c as [|theme save|matches]; simpl.
  - unfold ThemeComponent.toggleTheme. rewrite setTheme_localStorage.
    destruct (_ || _ || _) eqn:E; [by left|]. right.
    apply orb_false_iff in E as [_ E]. eexists. split; [done|].
    split; [by left|done].
  - rewrite setTheme_localStorage.
    destruct (_ || _ || _) eqn:E; [by left|]. right.
    apply orb_false_iff in E as [E Et].
    apply orb_false_iff in E as [_ Es]. apply negb_false_iff in Es as ->.
    exists theme. split; [done|]. split; [by right|done].
  - left. unfold ThemeComponent.onSystemThemeChange.
    destruct (ThemeComponent.loadThemePreference _); [done|].
    rewrite setTheme_localStorage. cbn [negb]. by rewrite orb_true_r.
Qed.

(** X9. The theme component keeps its hands off the storage but for its
    own key.  Construction writes nothing, so a theme that was only
    detected is never persisted; and whatever toggles, [setTheme] calls
    and changes of the platform's preference follow, every other key
    keeps its value, and the component's key holds what it held at first
    or the name of a theme. *)
Theorem theme_storage_frame :
  (forall b,
     localStorage (ThemeComponent.browser (ThemeComponent.create b))
     = localStorage b)
  /\ (forall this calls key,
        key <> ThemeComponent.storageKey ->
        localStorage (ThemeComponent.browser (foldl theme_step this calls))
          !! key
        = localStorage (ThemeComponent.browser this) !! key)
  /\ (forall this calls,
        let stored this :=
          localStorage (ThemeComponent.browser this)
            !! ThemeComponent.storageKey in
        stored (foldl theme_step this calls) = stored this
        \/ exists t, stored (foldl theme_step this calls) = Some (theme_name t)).
Proof.
  split; [|split].
  - intros b. unfold ThemeComponent.create, ThemeComponent.initializeTheme.
    rewrite setTheme_localStorage. cbn [negb]. by rewrite orb_true_r.
  - intros this calls key Hkey.
    induction calls as [|c calls IH] using rev_ind; [done|].
    rewrite foldl_app. simpl. rewrite <- IH.
    destruct (theme_step_localStorage (foldl theme_step this calls) c)
      as [->|(t & _ & _ & ->)]; [done|].
    by rewrite lookup_insert_ne.
  - intros this calls stored.
    induction calls as [|c calls IH] using rev_ind; [by left|].
    rewrite foldl_app. simpl. subst stored. cbv beta in *.
    destruct (theme_step_localStorage (foldl theme_step this calls) c)
      as [->|(t & _ & _ & ->)]; [done|].
    right. exists t. by rewrite lookup_insert_eq.
Qed.

Lemma setTheme_class_invariant theme save this :
  ("dark-theme" ∈ bodyClassList (ThemeComponent.browser this)
   <-> ThemeComponent.currentTheme this = dark) ->
  ("dark-theme"
   ∈ bodyClassList (ThemeComponent.browser
                      (ThemeComponent.setTheme theme save this))
   <-> ThemeComponent.currentTheme (ThemeComponent.setTheme theme save this)
       = dark).
Proof.
  intros Hinv. rewrite setTheme_bodyClassList, setTheme_currentTheme.
  destruct (theme_eqb (ThemeComponent.currentTheme this) theme) eqn:E.
  - apply theme_eqb_eq in E. by rewrite <- E.
  - destruct theme; simpl; set_solver.
Qed.

(** X10. On a page that starts without the dark class, the body carries
    the class "dark-theme" exactly while the component's current theme
    is dark: after construction and after every series of toggles,
    [setTheme] calls and changes of the platform's preference. *)
Theorem body_class_tracks_theme :
  forall b calls,
    "dark-theme" ∉ bodyClassList b ->
    let this := foldl theme_step (ThemeComponent.create b) calls in
    "dark-theme" ∈ bodyClassList (ThemeComponent.browser this)
    <-> ThemeComponent.currentTheme this = dark.
Proof.
  intros b calls Hclass this. subst this.
  induction calls as [|c calls IH] using rev_ind.
  - simpl. unfold ThemeComponent.create, ThemeComponent.initializeTheme.
    apply setTheme_class_invariant. simpl. split; [done|discriminate].
  - rewrite foldl_app. simpl.
    destruct c as [|theme save|matches]; simpl.
    + by apply setTheme_class_invariant.
    + by apply setTheme_class_invariant.
    + unfold ThemeComponent.onSystemThemeChange.
      destruct (ThemeComponent.loadThemePreference _); [exact IH|].
      by apply setTheme_class_invariant.
Qed.

(** A first visit on a platform that prefers dark, then two toggles and
    the platform turning to light. *)
Lemma body_class_tracks_theme_witness :
  let this :=
    foldl theme_step (ThemeComponent.create fresh_dark_platform)
          [Toggle; Toggle; SystemChange false] in
  "dark-theme" ∈ bodyClassList (ThemeComponent.browser this)
  <-> ThemeComponent.currentTheme this = dark.
Proof.
  apply (body_class_tracks_theme fresh_dark_platform
           [Toggle; Toggle; SystemChange false]).
  by_compute.
Defined.

(** The plain script's key survives a toggle of the component. *)
Lemma theme_storage_frame_witness :
  localStorage
    (ThemeComponent.browser
       (foldl theme_step (ThemeComponent.create returning_dark) [Toggle]))
    !! "theme"
  = Some "dark".
Proof.
  rewrite (proj1 (proj2 theme_storage_frame)
             (ThemeComponent.create returning_dark) [Toggle] "theme").
  - reflexivity.
  - discriminate.
Defined.

(** ** The modal under the visitor's events *)

Lemma close_page_consistent this :
  modal_page_consistent this -> modal_page_consistent (ModalComponent.close this).
Proof.
  intros (H1 & H2 & H3 & H4). unfold ModalComponent.close.
  destruct (ModalComponent.isOpen this) eqn:E; simpl.
  - unfold modal_page_consistent, modal_consistent. simpl.
    repeat split; done.
  - unfold modal_page_consistent. by rewrite E.
Qed.

Lemma modal_step_page_consistent this ev :
  modal_page_consistent this -> modal_page_consistent (modal_step this ev).
Proof.
  intros Hinv. destruct ev as [event|key|onBackdrop|]; simpl.
  - unfold modal_page_consistent, modal_consistent. simpl.
    repeat split; done.
  - unfold ModalComponent.handleKeyDown.
    destruct (negb (ModalComponent.isOpen this)); [done|].
    destruct (String.eqb key "Escape"); [by apply close_page_consistent|done].
  - unfold ModalComponent.handleBackdropClick.
    destruct onBackdrop; [by apply close_page_consistent|done].
  - by apply close_page_consistent.
Qed.

(** X11. Whatever the visitor does to the class-based modal (activating
    entries, pressing keys, clicking on the backdrop or inside the
    content, clicking the close button), in whatever order, the page
    agrees with the modal's fields: the modal is open exactly when an
    event is selected, it is hidden and the body scrolls exactly when it
    is closed, and while it is open it shows the selected event.  A key
    pressed while the modal is closed changes nothing, Escape pressed
    while it is open closes it, and a click inside the content changes
    nothing. *)
Theorem modal_page_agrees_with_state :
  (forall events,
     modal_page_consistent (foldl modal_step ModalComponent.initial events))
  /\ (forall this key,
        ModalComponent.isOpen this = false ->
        ModalComponent.handleKeyDown key this = this)
  /\ (forall this,
        ModalComponent.isOpen this = true ->
        let this' := ModalComponent.handleKeyDown "Escape" this in
        ModalComponent.isOpen this' = false
        /\ ModalComponent.currentEvent this' = None
        /\ ModalComponent.bodyOverflow this' = "")
  /\ (forall this key,
        key <> "Escape" -> ModalComponent.handleKeyDown key this = this)
  /\ (forall this, ModalComponent.handleBackdropClick false this = this).
Proof.
  split; [|split; [|split; [|split]]].
  - intros events. induction events as [|ev events IH] using rev_ind.
    + unfold modal_page_consistent, modal_consistent. simpl.
      repeat split; done.
    + rewrite foldl_app. simpl. by apply modal_step_page_consistent.
  - intros this key Hclosed. unfold ModalComponent.handleKeyDown.
    by rewrite Hclosed.
  - intros this Hopen. simpl. unfold ModalComponent.handleKeyDown,
      ModalComponent.close. by rewrite Hopen.
  - intros this key Hkey. unfold ModalComponent.handleKeyDown.
    destruct (negb (ModalComponent.isOpen this)); [done|].
    apply String.eqb_neq in Hkey. by rewrite Hkey.
  - done.
Qed.

(** The dodo's entry is activated and Escape is pressed. *)
Lemma modal_page_agrees_with_state_witness :
  let this := ModalComponent.open dodo ModalComponent.initial in
  ModalComponent.handleKeyDown "Escape" ModalComponent.initial
  = ModalComponent.initial
  /\ ModalComponent.isOpen (ModalComponent.handleKeyDown "Escape" this) = false
  /\ ModalComponent.handleKeyDown "Tab" this = this.
Proof.
  intros this. split; [|split].
  - apply (proj1 (proj2 modal_page_agrees_with_state)). reflexivity.
  - apply (proj1 (proj2 (proj2 modal_page_agrees_with_state)) this).
    reflexivity.
  - apply (proj1 (proj2 (proj2 (proj2 modal_page_agrees_with_state)))).
    discriminate.
Defined.

(** ** The class-based renderer and its coordinator *)

Lemma render_spec events options this :
  TimelineRenderer.render events options this
  = TimelineRenderer.mkState
      (rendered_as events options)
      (negb (Nat.eqb (length events) 0))
      (TimelineRenderer.keydownListeners this
       + (if Nat.eqb (length events) 0 then 0 else 1))
      (TimelineRenderer.loadingDisplay this).
Proof.
  unfold TimelineRenderer.render. destruct events as [|e events]; simpl.
  - by rewrite Nat.add_0_r.
  - by rewrite Nat.add_1_r.
Qed.

Lemma dispatch_keydown_clicks this event :
  length (List.filter is_click (dispatch_keydown this event))
  = TimelineRenderer.keydownListeners this
    * length (List.filter is_click (TimelineRenderer.handleKeydown event)).
Proof.
  unfold dispatch_keydown.
  induction (TimelineRenderer.keydownListeners this) as [|n IH]; [done|].
  simpl. rewrite List.filter_app, length_app, IH. reflexivity.
Qed.

(** X12. Every [render] of a list that holds an event adds a keydown
    listener to the timeline element and none is ever removed, while
    the click listener is there at most once: after a series of renders
    the element carries one keydown listener more for every populated
    list rendered, and Enter on an entry is answered with that many
    clicks on it. *)
Theorem keydown_listeners_accumulate :
  forall lists options this target,
    let this' :=
      foldl (fun this events => TimelineRenderer.render events options this)
            this lists in
    TimelineRenderer.keydownListeners this'
    = TimelineRenderer.keydownListeners this + populated lists
    /\ ("event" ∈ TimelineRenderer.classList target ->
        length (List.filter is_click
                  (dispatch_keydown this'
                     (TimelineRenderer.mkKeyboardEvent "Enter" target)))
        = TimelineRenderer.keydownListeners this + populated lists).
Proof.
  intros lists options this target this'.
  assert (TimelineRenderer.keydownListeners this'
          = TimelineRenderer.keydownListeners this + populated lists) as Hk.
  { subst this'. induction lists as [|events lists IH] using rev_ind.
    - unfold populated. simpl. lia.
    - rewrite foldl_app. simpl. rewrite render_spec. simpl. rewrite IH.
      unfold populated. rewrite List.filter_app, length_app. simpl.
      destruct (Nat.eqb (length events) 0); simpl; lia. }
  split; [done|]. intros Htarget.
  rewrite dispatch_keydown_clicks, Hk.
  unfold TimelineRenderer.handleKeydown. simpl.
  rewrite bool_decide_eq_true_2 by done. simpl. lia.
Qed.

(** The dodo is rendered twice, as [initialize] does. *)
Lemma keydown_listeners_accumulate_witness :
  let this' :=
    foldl (fun this events =>
             TimelineRenderer.render events
               (TimelineRenderer.mkRenderOptions false false) this)
          (TimelineRenderer.mkState TimelineRenderer.Shell false 0 None)
          [[dodo]; [dodo]] in
  TimelineRenderer.clickListener this' = true
  /\ length (List.filter is_click
               (dispatch_keydown this'
                  (TimelineRenderer.mkKeyboardEvent "Enter" dodo_article)))
     = 2.
Proof.
  intros this'. split; [reflexivity|].
  apply (proj2 (keydown_listeners_accumulate [[dodo]; [dodo]]
                  (TimelineRenderer.mkRenderOptions false false)
                  (TimelineRenderer.mkState TimelineRenderer.Shell false 0 None)
                  dodo_article)).
  by_compute.
Defined.

Lemma filter_click_cases button this :
  filter_click button this = this
  \/ exists category,
       FilterComponent.getButtonCategory button = Some category
       /\ category
          <> FilterComponent.currentFilter
               (ExtinctionTimelineApp.filterComponent this)
       /\ let component :=
            FilterComponent.mkState
              (FilterComponent.allEvents
                 (ExtinctionTimelineApp.filterComponent this)) category in
          filter_click button this
          = ExtinctionTimelineApp.handleFilterChange
              (FilterComponent.getFilteredEvents component)
              (ExtinctionTimelineApp.mkState
                 (ExtinctionTimelineApp.appState this)
                 (ExtinctionTimelineApp.timelineRenderer this) component).
Proof.
  unfold filter_click, ExtinctionTimelineApp.withFilterComponent,
    FilterComponent.handleFilterClick.
  destruct (FilterComponent.getButtonCategory button) as [category|];
    [|left; by destruct this].
  unfold FilterComponent.setActiveFilter.
  destruct (String.eqb _ category) eqn:E; [left; by destruct this|].
  right. exists category. apply String.eqb_neq in E.
  split; [done|]. split; [congruence|]. reflexivity.
Qed.

Lemma filter_click_currentFilter button this :
  FilterComponent.currentFilter
    (ExtinctionTimelineApp.filterComponent (filter_click button this))
  = default (FilterComponent.currentFilter
               (ExtinctionTimelineApp.filterComponent this))
            (FilterComponent.getButtonCategory button).
Proof.
  unfold filter_click, ExtinctionTimelineApp.withFilterComponent,
    FilterComponent.handleFilterClick.
  destruct (FilterComponent.getButtonCategory button) as [category|];
    [|by destruct this].
  unfold FilterComponent.setActiveFilter.
  destruct (String.eqb _ category) eqn:E; [|done].
  apply String.eqb_eq in E. by destruct this.
Qed.

Lemma filter_click_frame button this :
  let this' := filter_click button this in
  ExtinctionTimelineApp.events (ExtinctionTimelineApp.appState this')
  = ExtinctionTimelineApp.events (ExtinctionTimelineApp.appState this)
  /\ ExtinctionTimelineApp.activeCategory
       (ExtinctionTimelineApp.filter (ExtinctionTimelineApp.appState this'))
     = ExtinctionTimelineApp.activeCategory
         (ExtinctionTimelineApp.filter (ExtinctionTimelineApp.appState this))
  /\ FilterComponent.allEvents (ExtinctionTimelineApp.filterComponent this')
     = FilterComponent.allEvents (ExtinctionTimelineApp.filterComponent this)
  /\ (shows_current_filter this -> shows_current_filter this').
Proof.
  simpl. destruct (filter_click_cases button this)
    as [->|(category & _ & _ & ->)]; [done|].
  unfold ExtinctionTimelineApp.handleFilterChange,
    ExtinctionTimelineApp.renderTimeline. simpl.
  split; [done|]. split; [done|]. split; [done|].
  intros _. unfold shows_current_filter. simpl.
  split; [done|]. rewrite render_spec. simpl. by eexists.
Qed.

Lemma initialize_Return bound fetched events this :
  ExtinctionTimelineApp.loadEvents bound fetched = Return events ->
  ExtinctionTimelineApp.initialize bound fetched this
  = let a := ExtinctionTimelineApp.appState this in
    let r := ExtinctionTimelineApp.timelineRenderer this in
    let component :=
      FilterComponent.mkState events
        (FilterComponent.currentFilter
           (ExtinctionTimelineApp.filterComponent this)) in
    let filtered := FilterComponent.getFilteredEvents component in
    ExtinctionTimelineApp.mkState
      (ExtinctionTimelineApp.mkAppState events
         (ExtinctionTimelineApp.mkFilterState "All" filtered)
         (ExtinctionTimelineApp.theme a) false None)
      (TimelineRenderer.mkState
         (rendered_as events (TimelineRenderer.mkRenderOptions false false))
         (negb (Nat.eqb (length events) 0))
         (TimelineRenderer.keydownListeners r
          + (if Nat.eqb (length filtered) 0 then 0 else 1)
          + (if Nat.eqb (length events) 0 then 0 else 1))
         (match TimelineRenderer.loadingDisplay r with
          | Some _ => Some "none"
          | None => None
          end))
      component.
Proof.
  intros Hload. unfold ExtinctionTimelineApp.initialize. rewrite Hload.
  unfold ExtinctionTimelineApp.initialize_resume,
    ExtinctionTimelineApp.initialize_begin,
    ExtinctionTimelineApp.initializeComponentsWithData,
    ExtinctionTimelineApp.withFilterComponent, FilterComponent.updateEvents,
    FilterComponent.applyCurrentFilter,
    ExtinctionTimelineApp.setLoadingState. cbn [foldl].
  unfold ExtinctionTimelineApp.handleFilterChange,
    ExtinctionTimelineApp.renderTimeline.
  cbn [ExtinctionTimelineApp.appState ExtinctionTimelineApp.timelineRenderer
       ExtinctionTimelineApp.filterComponent ExtinctionTimelineApp.isLoading
       ExtinctionTimelineApp.events ExtinctionTimelineApp.filter
       ExtinctionTimelineApp.theme ExtinctionTimelineApp.error
       ExtinctionTimelineApp.activeCategory negb].
  rewrite !render_spec.
  destruct this as [a [c k n [d|]] f]; reflexivity.
Qed.

Lemma loaded_sorted bound fetched events :
  DataFetcher.fetchEvents bound fetched = Return events ->
  sorted_by_year events.
Proof.
  intros H.
  apply fetchEvents_Return in H
    as (response & data & validated & _ & _ & _ & Hval & ->).
  apply sortEventsByYear_spec.
  eapply Forall_impl; [by eapply validateResponse_checked|].
  intros e He. apply isFinite_not_NaN, He.
Qed.

(** X13. When the load succeeds, [initialize] leaves the class-based
    page out of the loading state and without error, holding the loaded
    events; the timeline shows all of them, in order of year and without
    animation (or the empty-state message when there is none), whatever
    filter the component took from the markup; the loading indicator, if
    the page has one, is hidden; and the coordinator's [filteredEvents]
    are the events of the component's filter. *)
Theorem initialize_shows_all_events :
  forall bound fetched events this,
    ExtinctionTimelineApp.loadEvents bound fetched = Return events ->
    let this' := ExtinctionTimelineApp.initialize bound fetched this in
    let a := ExtinctionTimelineApp.appState this' in
    ExtinctionTimelineApp.events a = events
    /\ sorted_by_year events
    /\ ExtinctionTimelineApp.isLoading a = false
    /\ ExtinctionTimelineApp.error a = None
    /\ ExtinctionTimelineApp.filteredEvents (ExtinctionTimelineApp.filter a)
       = FilterComponent.getFilteredEvents
           (ExtinctionTimelineApp.filterComponent this')
    /\ ExtinctionTimelineApp.filterComponent this'
       = FilterComponent.mkState events
           (FilterComponent.currentFilter
              (ExtinctionTimelineApp.filterComponent this))
    /\ TimelineRenderer.content (ExtinctionTimelineApp.timelineRenderer this')
       = rendered_as events (TimelineRenderer.mkRenderOptions false false)
    /\ TimelineRenderer.loadingDisplay
         (ExtinctionTimelineApp.timelineRenderer this')
       = match TimelineRenderer.loadingDisplay
                 (ExtinctionTimelineApp.timelineRenderer this) with
         | Some _ => Some "none"
         | None => None
         end.
Proof.
  intros bound fetched events this Hload this' a. subst a this'.
  rewrite (initialize_Return _ _ _ _ Hload). simpl.
  repeat split; try done. by eapply loaded_sorted.
Qed.

(** The two events load on a fresh page: 1662 comes first. *)
Lemma initialize_shows_all_events_witness :
  TimelineRenderer.content
    (ExtinctionTimelineApp.timelineRenderer
       (ExtinctionTimelineApp.initialize false
          (Return (ok_response two_events)) fresh_page))
  = TimelineRenderer.Entries
      (DataFetcher.sortEventsByYear two_events_validated)
      (TimelineRenderer.mkRenderOptions false false).
Proof.
  destruct (initialize_shows_all_events false
              (Return (ok_response two_events))
              (DataFetcher.sortEventsByYear two_events_validated) fresh_page)
    as (_ & _ & _ & _ & _ & _ & H & _).
  - vm_compute. reflexivity.
  - exact H.
Defined.

(** X14. After a successful load on a page whose filter starts at
    "All", whatever filter buttons are clicked: the component's filter
    is the category of the last button clicked that has one; the
    timeline holds exactly the events of that filter, or the empty-state
    message when there is none, and the coordinator's [filteredEvents]
    are those events; the loaded events stay as they are; and the
    coordinator's own [activeCategory] still reads "All". *)
Theorem timeline_shows_current_filter :
  forall bound fetched events this buttons,
    ExtinctionTimelineApp.loadEvents bound fetched = Return events ->
    FilterComponent.currentFilter (ExtinctionTimelineApp.filterComponent this)
    = "All" ->
    let this' :=
      foldl (fun this button => filter_click button this)
            (ExtinctionTimelineApp.initialize bound fetched this) buttons in
    shows_current_filter this'
    /\ FilterComponent.currentFilter
         (ExtinctionTimelineApp.filterComponent this')
       = default "All" (last (omap FilterComponent.getButtonCategory buttons))
    /\ FilterComponent.allEvents (ExtinctionTimelineApp.filterComponent this')
       = events
    /\ ExtinctionTimelineApp.events (ExtinctionTimelineApp.appState this')
       = events
    /\ ExtinctionTimelineApp.activeCategory
         (ExtinctionTimelineApp.filter (ExtinctionTimelineApp.appState this'))
       = "All".
Proof.
  intros bound fetched events this buttons Hload Hall this'. subst this'.
  induction buttons as [|button buttons IH] using rev_ind.
  - simpl. rewrite (initialize_Return _ _ _ _ Hload), Hall.
    unfold shows_current_filter. simpl. repeat split; try done. by eexists.
  - rewrite foldl_app. simpl.
    destruct IH as (Hshow & Hcur & Hev & Hev' & Hact).
    destruct (filter_click_frame button
                (foldl (fun this button => filter_click button this)
                   (ExtinctionTimelineApp.initialize bound fetched this)
                   buttons)) as (H1 & H2 & H3 & H4).
    split; [by apply H4|]. split.
    + rewrite filter_click_currentFilter, Hcur, omap_app. simpl.
      destruct (FilterComponent.getButtonCategory button) as [category|];
        simpl.
      * by rewrite last_snoc.
      * by rewrite app_nil_r.
    + split; [by rewrite H3|]. split; [by rewrite H1|by rewrite H2].
Qed.

(** The two events load and the visitor clicks "Birds": the dodo alone. *)
Lemma timeline_shows_current_filter_witness :
  let this' :=
    filter_click birds_button
      (ExtinctionTimelineApp.initialize false
         (Return (ok_response two_events)) fresh_page) in
  FilterComponent.currentFilter (ExtinctionTimelineApp.filterComponent this')
  = "Birds"
  /\ ExtinctionTimelineApp.activeCategory
       (ExtinctionTimelineApp.filter (ExtinctionTimelineApp.appState this'))
     = "All".
Proof.
  destruct (timeline_shows_current_filter false
              (Return (ok_response two_events))
              (DataFetcher.sortEventsByYear two_events_validated) fresh_page
              [birds_button])
    as (_ & H1 & _ & _ & H2).
  - vm_compute. reflexivity.
  - reflexivity.
  - split; [exact H1|exact H2].
Defined.

(** ** The two repositories side by side *)

Lemma sort_insert_map {A B : Type} (f : A -> B) (cmpA : A -> A -> number)
    (cmpB : B -> B -> number) (x : A) (l : list A) :
  (forall a b, cmpB (f a) (f b) = cmpA a b) ->
  sort_insert cmpB (f x) (map f l) = map f (sort_insert cmpA x l).
Proof.
  intros H. induction l as [|y l IH]; [done|].
  simpl. rewrite H. destruct (gt0 (cmpA x y)); [|done]. by rewrite IH.
Qed.

Lemma sort_map {A B : Type} (f : A -> B) (cmpA : A -> A -> number)
    (cmpB : B -> B -> number) (l : list A) :
  (forall a b, cmpB (f a) (f b) = cmpA a b) ->
  sort cmpB (map f l) = map f (sort cmpA l).
Proof.
  intros H. unfold sort. induction l as [|x l IH]; [done|].
  simpl. rewrite IH. by apply sort_insert_map.
Qed.

Ltac next_field H v E :=
  match type of H with
  | context [mbind _ ?m] =>
      destruct m as [v|?] eqn:E;
      rewrite ?bind_Return, ?bind_Throw in H; [|done]
  end.

Lemma validateEvent_trimmed x i ev :
  DataFetcher.validateEvent x i = Return ev ->
  ev = trimmed (UseExtinctionEvents.asEvent x).
Proof.
  unfold DataFetcher.validateEvent.
  destruct (DataFetcher.isObject x); cbn [negb]; [|done]. intros H.
  next_field H u Hreq. clear Hreq.
  next_field H vid Hid. apply validateNumber_Return in Hid as [Gid _].
  next_field H vyear Hyear. apply validateNumber_Return in Hyear as [Gyear _].
  next_field H vtitle Ht. apply validateString_Return in Ht as (rt & Gt & -> & _).
  next_field H vdesc Hd. apply validateString_Return in Hd as (rd & Gd & -> & _).
  next_field H vimg Hi. apply validateString_Return in Hi as (ri & Gi & -> & _).
  next_field H vcat Hc. apply validateCategory_Return in Hc as [Gc _].
  next_field H vloc Hl. apply validateString_Return in Hl as (rl & Gl & -> & _).
  next_field H vcause Hca. apply validateString_Return in Hca as (rc & Gca & -> & _).
  injection H as <-.
  unfold trimmed, UseExtinctionEvents.asEvent.
  rewrite Gid, Gyear, Gt, Gd, Gi, Gc, Gl, Gca. reflexivity.
Qed.

(** X15. Where [DataFetcher] accepts every element of a payload, the
    hook accepts the payload too, and the two repositories return the
    same events in the same order, except that [DataFetcher] has trimmed
    the free texts and the hook has them as they came. *)
Theorem repositories_agree_up_to_trimming :
  forall response data items,
    ok response = true -> json response = Return data ->
    events_of data = Some items ->
    forallb element_accepted items = true ->
    exists hookEvents,
      UseExtinctionEvents.attempt (Return response) = Return hookEvents
      /\ forall bound,
           DataFetcher.fetchEvents bound (Return response)
           = Return (map trimmed hookEvents).
Proof.
  intros response data items Hok Hjson Hev Hacc.
  apply events_of_Some in Hev as (fields & -> & Hfields).
  assert (forallb element_ok items = true) as Hvalid.
  { rewrite forallb_forall in Hacc |- *. intros x Hx.
    by apply element_accepted_ok, Hacc. }
  exists (UseExtinctionEvents.sortEventsByYear
            (map UseExtinctionEvents.asEvent items)). split.
  - unfold UseExtinctionEvents.attempt.
    rewrite bind_Return, Hok. cbn [negb]. rewrite Hjson, bind_Return.
    unfold UseExtinctionEvents.read_events. rewrite bind_Return.
    cbv beta iota delta [get]. rewrite Hfields.
    by rewrite (hook_validateEvents_valid items Hvalid), bind_Return.
  - intros bound.
    assert (DataFetcher.validateResponse (Object fields)
            = Return (map (fun x => trimmed (UseExtinctionEvents.asEvent x))
                          items)) as Hval.
    { rewrite (validateResponse_items _ _ Hfields). unfold mapi.
      apply mapi_from_map. intros x Hx j.
      destruct (validateEvent_accepted x j) as [ev Hev'].
      { rewrite forallb_forall in Hacc. by apply Hacc, list_elem_of_In. }
      rewrite Hev'. f_equal. by eapply validateEvent_trimmed. }
    unfold DataFetcher.fetchEvents. rewrite bind_Return, Hok. cbn [negb].
    rewrite Hjson, bind_Return, Hval, bind_Return. f_equal.
    unfold DataFetcher.sortEventsByYear, UseExtinctionEvents.sortEventsByYear.
    rewrite <- (sort_map trimmed (fun a b => sub (year a) (year b))
                  (fun a b => sub (year a) (year b))) by done.
    by rewrite map_map.
Qed.

(** The two events, whose locations come with blanks around them. *)
Lemma repositories_agree_up_to_trimming_witness :
  exists hookEvents,
    UseExtinctionEvents.attempt (Return (ok_response two_events))
    = Return hookEvents
    /\ forall bound,
         DataFetcher.fetchEvents bound (Return (ok_response two_events))
         = Return (map trimmed hookEvents).
Proof.
  apply (repositories_agree_up_to_trimming (ok_response two_events) two_events
           two_items); reflexivity.
Defined.

(** ** The plain script's theme across a reload *)

(** X16. In the plain script, too, a theme chosen with the toggle
    survives a reload: where the storage can be written and read, a page
    that starts without the dark class on the storage the toggle left
    shows, after [initializeTheme], the theme the toggle showed, with the
    same icon and the same label on the button. *)
Theorem script_toggled_theme_survives_reload :
  forall b b',
    storageThrows b = false ->
    storageThrows b' = false ->
    localStorage b' = localStorage (Script.toggleTheme b).1 ->
    "dark-theme" ∉ bodyClassList b' ->
    let toggled := (Script.toggleTheme b).1 in
    let reloaded := (Script.initializeTheme b').1 in
    script_theme reloaded = script_theme toggled
    /\ script_theme reloaded = flip (script_theme b)
    /\ toggleText reloaded = toggleText toggled
    /\ toggleLabel reloaded = toggleLabel toggled.
Proof.
  intros b b' Ht Ht' Hs Hclass toggled reloaded. subst toggled reloaded.
  unfold Script.initializeTheme. rewrite Ht', Hs.
  unfold Script.toggleTheme, script_theme, Script.isDark. rewrite Ht.
  destruct (bool_decide ("dark-theme" ∈ bodyClassList b)) eqn:E.
  - apply bool_decide_eq_true in E.
    rewrite (bool_decide_eq_false_2 ("dark-theme" ∈ bodyClassList b ∖ {["dark-theme"]}))
      by set_solver.
    cbn [fst localStorage bodyClassList toggleText toggleLabel].
    rewrite lookup_insert_eq.
    rewrite (bool_decide_eq_false_2 (Some "light" = Some "dark")) by done.
    cbn [fst bodyClassList toggleText toggleLabel].
    rewrite (bool_decide_eq_false_2 ("dark-theme" ∈ bodyClassList b')) by done.
    rewrite (bool_decide_eq_false_2 ("dark-theme" ∈ bodyClassList b ∖ {["dark-theme"]}))
      by set_solver.
    done.
  - apply bool_decide_eq_false in E.
    rewrite (bool_decide_eq_true_2 ("dark-theme" ∈ {["dark-theme"]} ∪ bodyClassList b))
      by set_solver.
    cbn [fst localStorage bodyClassList toggleText toggleLabel].
    rewrite lookup_insert_eq.
    rewrite (bool_decide_eq_true_2 (Some "dark" = Some "dark")) by done.
    cbn [fst bodyClassList toggleText toggleLabel].
    rewrite (bool_decide_eq_true_2 ("dark-theme" ∈ {["dark-theme"]} ∪ bodyClassList b'))
      by set_solver.
    rewrite (bool_decide_eq_true_2 ("dark-theme" ∈ {["dark-theme"]} ∪ bodyClassList b))
      by set_solver.
    done.
Qed.

(** A first visit, a toggle to dark, and a reload. *)
Lemma script_toggled_theme_survives_reload_witness :
  script_theme
    (Script.initializeTheme
       (mkBrowser {["theme" := "dark"]} false None ∅ None "" "")).1
  = dark.
Proof.
  destruct (script_toggled_theme_survives_reload
              (mkBrowser ∅ false None ∅ None "" "")
              (mkBrowser {["theme" := "dark"]} false None ∅ None "" ""))
    as (H & _).
  - reflexivity.
  - reflexivity.
  - by_compute.
  - by_compute.
  - exact H.
Defined.

(** ** The error panel *)

Lemma list_ascii_append (a b : string) :
  list_ascii_of_string (a +:+ b)
  = (list_ascii_of_string a ++ list_ascii_of_string b)%list.
Proof.
  induction a as [|c a IH]; [done|]. rewrite append_cons. simpl. by rewrite IH.
Qed.

(** X17. The message of the error panel cannot bring markup with it:
    what [renderError] puts into the panel holds neither [<] nor [>],
    whatever the message, and a message without [&], [<], [>] and
    no-break space is put there as it is. *)
Theorem error_panel_holds_no_markup :
  forall message this,
    TimelineRenderer.content (TimelineRenderer.renderError message this)
    = TimelineRenderer.ErrorPanel (TimelineRenderer.escapeHtml message)
    /\ (forall c,
          c ∈ list_ascii_of_string (TimelineRenderer.escapeHtml message) ->
          c <> "<"%char /\ c <> ">"%char)
    /\ (Forall (fun c => c <> "&"%char /\ c <> "<"%char /\ c <> ">"%char
                         /\ nat_of_ascii c <> 160)
               (list_ascii_of_string message) ->
        TimelineRenderer.escapeHtml message = message).
Proof.
  intros message this. split; [done|]. split.
  - induction message as [|x message IH]; intros c Hc.
    + by apply elem_of_nil in Hc.
    + simpl in Hc. rewrite list_ascii_append in Hc.
      apply elem_of_app in Hc as [Hc|Hc]; [|by apply IH].
      destruct (Ascii.eqb x "&") eqn:E1;
        [simpl in Hc; set_solver|].
      destruct (Ascii.eqb x "<") eqn:E2;
        [simpl in Hc; set_solver|].
      destruct (Ascii.eqb x ">") eqn:E3;
        [simpl in Hc; set_solver|].
      apply Ascii.eqb_neq in E2, E3.
      destruct (Nat.eqb (nat_of_ascii x) 160);
        [simpl in Hc; set_solver|].
      simpl in Hc. apply list_elem_of_singleton in Hc as ->. done.
  - induction message as [|x message IH]; intros Hplain; [done|].
    simpl in Hplain. apply Forall_cons in Hplain as [(H1 & H2 & H3 & H4) Hplain].
    simpl. apply Ascii.eqb_neq in H1, H2, H3. rewrite H1, H2, H3.
    apply Nat.eqb_neq in H4. rewrite H4.
    rewrite append_cons, append_nil_l. by rewrite IH.
Qed.

(** A message that tries to bring a tag. *)
Lemma error_panel_holds_no_markup_witness :
  TimelineRenderer.escapeHtml "HTTP 404: Not Found" = "HTTP 404: Not Found"
  /\ TimelineRenderer.escapeHtml "<b>&" = "&lt;b&gt;&amp;".
Proof.
  split; [|reflexivity].
  apply (proj2 (proj2 (error_panel_holds_no_markup "HTTP 404: Not Found"
                         (TimelineRenderer.mkState TimelineRenderer.Shell false
                                                   0 None)))).
  repeat (constructor; [repeat split; discriminate|]). constructor.
Defined.

(** ** From an entry back to its event *)

Lemma digit_value_char (d : N) :
  (d < 10)%N -> digit_value 10 (pretty_N_char d) = Some (Z.of_N d).
Proof.
  intros H.
  assert (d = 0 \/ d = 1 \/ d = 2 \/ d = 3 \/ d = 4 \/ d = 5 \/ d = 6
          \/ d = 7 \/ d = 8 \/ d = 9)%N as Hd by lia.
  repeat (destruct Hd as [->|Hd]; [reflexivity|]). by subst.
Qed.

Lemma parse_digits_pretty_go (x : N) :
  (0 < x)%N ->
  forall s acc,
    exists k : Z,
      parse_digits 10 acc (pretty_N_go x s)
      = parse_digits 10 (Some (default 0 acc * 10 ^ k + Z.of_N x)%Z) s
      /\ (0 <= k)%Z.
Proof.
  induction (N.lt_wf_0 x) as [x _ IH]. intros Hx s acc.
  rewrite pretty_N_go_step by done.
  assert (x `mod` 10 < 10)%N as Hmod by (apply N.mod_lt; lia).
  pose proof (N.div_mod x 10 ltac:(lia)) as Hdm.
  destruct (decide (x `div` 10 = 0)%N) as [Hz|Hz].
  - rewrite Hz, pretty_N_go_0. cbn [parse_digits].
    rewrite (digit_value_char _ Hmod). exists 1%Z. split; [|lia].
    do 2 f_equal. lia.
  - destruct (IH (x `div` 10)%N) with
      (s := String (pretty_N_char (x `mod` 10)) s) (acc := acc)
      as (k & Hk & Hk0).
    { apply N.div_lt; lia. } { lia. }
    rewrite Hk. cbn [parse_digits]. rewrite (digit_value_char _ Hmod).
    cbn [default]. exists (k + 1)%Z. split; [|lia].
    do 2 f_equal.
    assert (Z.of_N x = 10 * Z.of_N (x `div` 10) + Z.of_N (x `mod` 10))%Z
      as -> by lia.
    rewrite Z.pow_add_r, Z.pow_1_r, Z.mul_assoc by lia.
    unfold Datatypes.id.
    generalize (default 0%Z acc * 10 ^ k)%Z. intros a. lia.
Qed.

Lemma pretty_go_head (x : N) :
  (0 < x)%N ->
  forall s,
    exists d rest,
      (0 < d < 10)%N /\ pretty_N_go x s = String (pretty_N_char d) rest.
Proof.
  induction (N.lt_wf_0 x) as [x _ IH]. intros Hx s.
  rewrite pretty_N_go_step by done.
  assert (x `mod` 10 < 10)%N as Hmod by (apply N.mod_lt; lia).
  pose proof (N.div_mod x 10 ltac:(lia)) as Hdm.
  destruct (decide (x `div` 10 = 0)%N) as [Hz|Hz].
  - rewrite Hz, pretty_N_go_0. exists (x `mod` 10)%N, s. split; [lia|done].
  - apply IH; [apply N.div_lt; lia|lia].
Qed.

Lemma parseInt_leading_digit (d : N) (rest : string) :
  (0 < d < 10)%N ->
  parseInt (String (pretty_N_char d) rest)
  = match parse_digits 10 None (String (pretty_N_char d) rest) with
    | None => NaN
    | Some z => Finite (inject_Z (1 * z))
    end.
Proof.
  intros H.
  assert (d = 1 \/ d = 2 \/ d = 3 \/ d = 4 \/ d = 5 \/ d = 6
          \/ d = 7 \/ d = 8 \/ d = 9)%N as Hd by lia.
  repeat (destruct Hd as [->|Hd]; [reflexivity|]). by subst.
Qed.

(** The digits of a natural number read back as the number. *)
Lemma parseInt_pretty (n : nat) : parseInt (pretty n) = of_nat n.
Proof.
  unfold pretty, pretty_nat, pretty, pretty_N.
  destruct (decide (N.of_nat n = 0)%N) as [Hz|Hz].
  - assert (n = 0) as -> by lia. reflexivity.
  - assert (0 < N.of_nat n)%N as Hpos by lia.
    destruct (pretty_go_head _ Hpos "") as (d & rest & Hd & Hhead).
    destruct (parse_digits_pretty_go _ Hpos "" None) as (k & Hk & _).
    rewrite Hhead in Hk |- *. rewrite (parseInt_leading_digit d rest Hd), Hk.
    cbn [parse_digits default]. unfold of_nat. do 2 f_equal. lia.
Qed.

Lemma num_eqb_of_nat (n : nat) : num_eqb (of_nat n) (of_nat n) = true.
Proof. unfold num_eqb, of_nat. apply Qeq_bool_iff. reflexivity. Qed.

Lemma find_unique_id (events : list ExtinctionEvent) (e : ExtinctionEvent) :
  unique_ids events -> e ∈ events ->
  num_eqb (id e) (id e) = true ->
  List.find (fun e' => num_eqb (id e') (id e)) events = Some e.
Proof.
  intros Hunique He Hid.
  destruct (List.find _ events) as [e'|] eqn:Hfind.
  - apply List.find_some in Hfind as [Hin Heq].
    apply list_elem_of_In, list_elem_of_lookup in Hin as [i Hi].
    apply list_elem_of_lookup in He as [j Hj].
    assert (i = j) as -> by (by eapply Hunique).
    congruence.
  - apply list_elem_of_In in He.
    by rewrite (List.find_none _ _ Hfind e He) in Hid.
Qed.

(** X18. A click inside an entry opens the modal for that entry's event.
    Where the loaded events have ids that differ from one another, the
    engine writes a natural number below 2^53 in decimal digits, and the
    nearest element of class [event] around the click's target is the
    article that [createEventElement] built for an event of the
    collection whose id is such a number, [handleTimelineClick] reads
    the id back from the article and opens the modal with that very
    event.  A click with no such element around it leaves the modal as
    it is. *)
Theorem click_opens_the_event_of_the_entry :
  forall `{NumberToString} this modalComponent path e index options n,
    decimal_naturals ->
    unique_ids (ExtinctionTimelineApp.events (ExtinctionTimelineApp.appState this)) ->
    e ∈ ExtinctionTimelineApp.events (ExtinctionTimelineApp.appState this) ->
    id e = of_nat n -> (Z.of_nat n < 2 ^ 53)%Z ->
    (ExtinctionTimelineApp.closest "event" path
     = Some (TimelineRenderer.createEventElement e index options) ->
     ExtinctionTimelineApp.handleTimelineClick path this modalComponent
     = ModalComponent.open e modalComponent)
    /\ (ExtinctionTimelineApp.closest "event" path = None ->
        ExtinctionTimelineApp.handleTimelineClick path this modalComponent
        = modalComponent).
Proof.
  intros engine this modalComponent path e index options n
    Hdigits Hunique He Hid Hn.
  unfold ExtinctionTimelineApp.handleTimelineClick. split; intros ->; [|done].
  unfold TimelineRenderer.createEventElement.
  cbn [TimelineRenderer.eventId]. rewrite Hid, (Hdigits n Hn).
  assert (String.eqb (pretty n) "" = false) as ->.
  { apply String.eqb_neq. intros Hempty.
    pose proof (parseInt_pretty n) as Hp. rewrite Hempty in Hp.
    discriminate Hp. }
  rewrite parseInt_pretty, <- Hid.
  rewrite (find_unique_id _ e Hunique He); [done|].
  rewrite Hid. apply num_eqb_of_nat.
Qed.

(** A click on the figure inside the dodo's entry, the two events at
    hand. *)
Lemma click_opens_the_event_of_the_entry_witness :
  ExtinctionTimelineApp.handleTimelineClick
    [TimelineRenderer.mkElement ∅ ""; dodo_article]
    (ExtinctionTimelineApp.mkState
       (ExtinctionTimelineApp.mkAppState
          (DataFetcher.sortEventsByYear two_events_validated)
          (ExtinctionTimelineApp.mkFilterState "All" [])
          light false None)
       (TimelineRenderer.mkState TimelineRenderer.Shell false 0 None)
       (FilterComponent.mkState [] "All"))
    ModalComponent.initial
  = ModalComponent.open dodo ModalComponent.initial.
Proof.
  destruct (@click_opens_the_event_of_the_entry integer_digits
              (ExtinctionTimelineApp.mkState
                 (ExtinctionTimelineApp.mkAppState
                    (DataFetcher.sortEventsByYear two_events_validated)
                    (ExtinctionTimelineApp.mkFilterState "All" [])
                    light false None)
                 (TimelineRenderer.mkState TimelineRenderer.Shell false 0
                                           None)
                 (FilterComponent.mkState [] "All"))
              ModalComponent.initial
              [TimelineRenderer.mkElement ∅ ""; dodo_article]
              dodo 0 (TimelineRenderer.mkRenderOptions true false) 2)
    as [H _].
  - intros n Hn. unfold toString, integer_digits, of_nat. simpl.
    rewrite Z.div_1_r. by rewrite Nat2Z.id.
  - intros i j a b Hi Hj Hab.
    destruct i as [|[|i]], j as [|[|j]]; try done;
      vm_compute in Hi, Hj; simplify_eq; vm_compute in Hab; done.
  - vm_compute. left.
  - reflexivity.
  - reflexivity.
  - apply H. reflexivity.
Defined.

(** ** The count labels of the filter buttons *)

Lemma includes_paren_cons (c : ascii) (s : string) :
  includes "(" (String c s) = Ascii.eqb c "(" || includes "(" s.
Proof.
  cbn [includes String.prefix].
  destruct (Ascii.ascii_dec "(" c) as [<-|Hne].
  - by destruct s.
  - assert (Ascii.eqb c "(" = false) as -> by (apply Ascii.eqb_neq; congruence).
    done.
Qed.

Lemma whitespace_not_paren (c : ascii) :
  is_whitespace c = true -> Ascii.eqb c "(" = false.
Proof.
  intros H. apply Ascii.eqb_neq. intros ->. discriminate H.
Qed.

Lemma includes_paren_trimStart (s : string) :
  includes "(" s = true -> includes "(" (trimStart s) = true.
Proof.
  induction s as [|c s IH]; [done|]. intros H.
  cbn [trimStart]. destruct (is_whitespace c) eqn:E; [|done].
  rewrite includes_paren_cons, (whitespace_not_paren c E) in H. by apply IH.
Qed.

Lemma includes_paren_trimEnd (s : string) :
  includes "(" s = true -> includes "(" (trimEnd s) = true.
Proof.
  induction s as [|c s IH]; [done|]. intros H.
  rewrite includes_paren_cons in H. cbn [trimEnd].
  destruct (Ascii.eqb c "(") eqn:E.
  - apply Ascii.eqb_eq in E as ->. by destruct (trimEnd s).
  - simpl in H. specialize (IH H).
    destruct (trimEnd s) as [|c' t]; [done|].
    rewrite includes_paren_cons, E. exact IH.
Qed.

Lemma valid_trim_no_paren (text : string) :
  FilterComponent.isValidCategory (trim text) = true ->
  includes "(" text = false.
Proof.
  intros Hvalid. destruct (includes "(" text) eqn:E; [|done].
  apply includes_paren_trimStart, includes_paren_trimEnd in E.
  fold (trim text) in E.
  destruct (isValidCategory_cases _ Hvalid) as [H|[H|[H|H]]];
    rewrite H in E; discriminate E.
Qed.

Lemma getButtonCategory_valid button category :
  FilterComponent.getButtonCategory button = Some category ->
  FilterComponent.isValidCategory category = true.
Proof.
  unfold FilterComponent.getButtonCategory. cbv zeta.
  set (text := trim (FilterComponent.textContent button)).
  destruct (FilterComponent.dataCategory button) as [d|] eqn:Hd.
  - destruct (negb (String.eqb d "") && FilterComponent.isValidCategory d)
      eqn:E.
    + intros [= <-]. by apply andb_true_iff in E as [_ E].
    + destruct (negb (String.eqb text "")
                && FilterComponent.isValidCategory text) eqn:E'; [|done].
      intros [= <-]. by apply andb_true_iff in E' as [_ E'].
  - destruct (negb (String.eqb text "")
              && FilterComponent.isValidCategory text) eqn:E'; [|done].
    intros [= <-]. by apply andb_true_iff in E' as [_ E'].
Qed.

Lemma tally_keeps_keys (events : list ExtinctionEvent)
    (counts : gmap string number) (key : string) :
  is_Some (counts !! key) ->
  is_Some (foldl (fun counts event => increment counts (category event))
                 counts events !! key).
Proof.
  revert counts. induction events as [|e events IH]; intros counts H; [done|].
  simpl. apply IH. unfold increment.
  destruct (decide (category e = key)) as [->|Hne].
  - rewrite lookup_insert_eq. eauto.
  - by rewrite lookup_insert_ne.
Qed.

Lemma getCategoryCounts_valid this category :
  FilterComponent.isValidCategory category = true ->
  is_Some (FilterComponent.getCategoryCounts this !! category).
Proof.
  intros H. unfold FilterComponent.getCategoryCounts. apply tally_keeps_keys.
  destruct (isValidCategory_cases _ H) as [->|[->|[->| ->]]];
    rewrite ?lookup_insert_eq, ?lookup_insert_ne by done; eauto.
Qed.

Lemma label_includes_paren (category digits : string) :
  includes "(" (category +:+ " (" +:+ digits +:+ ")") = true.
Proof.
  apply includes_after.
  change (" (" +:+ digits +:+ ")") with (String " " (String "(" (digits +:+ ")"))).
  by rewrite !includes_paren_cons.
Qed.

(** X20. The count labels that [updateButtonCounts] writes on the filter
    buttons are written once: a second round leaves every button as the
    first left it, whatever events the component holds by then, so the
    counts do not follow the events.  A button that carries a valid
    [data-category] keeps its category under its label.  A button that
    has its category from its text alone loses it with the label: after
    the first round [getButtonCategory] finds none for it, and a click
    on it changes no filter and notifies no one. *)
Theorem count_labels_written_once :
  forall `{NumberToString} this,
    (forall this' buttons,
       FilterComponent.updateButtonCounts this'
         (FilterComponent.updateButtonCounts this buttons)
       = FilterComponent.updateButtonCounts this buttons)
    /\ (forall button button' category,
          FilterComponent.dataCategory button = Some category ->
          FilterComponent.isValidCategory category = true ->
          FilterComponent.updateButtonCounts this [button] = [button'] ->
          FilterComponent.getButtonCategory button' = Some category)
    /\ (forall button button' category,
          FilterComponent.dataCategory button = None ->
          FilterComponent.getButtonCategory button = Some category ->
          FilterComponent.updateButtonCounts this [button] = [button'] ->
          FilterComponent.getButtonCategory button' = None
          /\ forall component,
               FilterComponent.handleFilterClick button' component
               = (component, [])).
Proof.
  intros engine this. split; [|split].
  - intros this' buttons. unfold FilterComponent.updateButtonCounts.
    rewrite map_map. apply map_ext. intros button.
    destruct (FilterComponent.getButtonCategory button) as [category|] eqn:Hc.
    + destruct (getCategoryCounts_valid this category
                  (getButtonCategory_valid _ _ Hc)) as [count ->].
      destruct (includes "(" (FilterComponent.textContent button)) eqn:Hp;
        cbn [negb].
      * rewrite Hc.
        destruct (getCategoryCounts_valid this' category
                    (getButtonCategory_valid _ _ Hc)) as [count' ->].
        by rewrite Hp.
      * destruct (FilterComponent.getButtonCategory
                    (FilterComponent.mkButton _ _)) as [category'|]; [|done].
        destruct (FilterComponent.getCategoryCounts this' !! category');
          [|done].
        cbn [FilterComponent.textContent].
        by rewrite label_includes_paren.
    + by rewrite Hc.
  - intros button button' category Hd Hvalid.
    assert (forall b, FilterComponent.dataCategory b = Some category ->
                      FilterComponent.getButtonCategory b = Some category)
      as Hdata.
    { intros b Hb. unfold FilterComponent.getButtonCategory. rewrite Hb, Hvalid.
      destruct (String.eqb category "") eqn:E; [|done].
      apply String.eqb_eq in E. subst category. discriminate Hvalid. }
    unfold FilterComponent.updateButtonCounts. cbn [map].
    rewrite (Hdata button Hd). intros [= <-].
    destruct (FilterComponent.getCategoryCounts this !! category);
      [|by apply Hdata].
    destruct (negb _); apply Hdata; done.
  - intros button button' category Hd Hc.
    assert (FilterComponent.isValidCategory
              (trim (FilterComponent.textContent button)) = true
            /\ category = trim (FilterComponent.textContent button))
      as [Hvalid Htext].
    { unfold FilterComponent.getButtonCategory in Hc. rewrite Hd in Hc.
      destruct (negb _ && FilterComponent.isValidCategory _) eqn:E; [|done].
      injection Hc as <-. by apply andb_true_iff in E as [_ E]. }
    unfold FilterComponent.updateButtonCounts. cbn [map]. rewrite Hc.
    destruct (getCategoryCounts_valid this category
                (getButtonCategory_valid _ _ Hc)) as [count ->].
    rewrite (valid_trim_no_paren _ Hvalid). cbn [negb]. intros [= <-].
    assert (FilterComponent.getButtonCategory
              (FilterComponent.mkButton (FilterComponent.dataCategory button)
                 (category +:+ " (" +:+ toString count +:+ ")")) = None)
      as Hdead.
    { unfold FilterComponent.getButtonCategory.
      cbn [FilterComponent.dataCategory FilterComponent.textContent].
      rewrite Hd.
      destruct (FilterComponent.isValidCategory
                  (trim (category +:+ " (" +:+ toString count +:+ ")")))
        eqn:E.
      - apply valid_trim_no_paren in E.
        by rewrite label_includes_paren in E.
      - by rewrite andb_false_r. }
    split; [done|]. intros component.
    unfold FilterComponent.handleFilterClick. by rewrite Hdead.
Qed.

(** The two events; a button that says "Birds" and no more. *)
Lemma count_labels_written_once_witness :
  FilterComponent.getButtonCategory plain_birds_button = Some "Birds"
  /\ FilterComponent.getButtonCategory
       (FilterComponent.mkButton None "Birds (1)") = None
  /\ FilterComponent.getButtonCategory
       (FilterComponent.mkButton (Some "Birds") "Birds (1)") = Some "Birds".
Proof.
  split; [reflexivity|].
  destruct (@count_labels_written_once integer_digits
              (FilterComponent.mkState two_events_validated "All"))
    as (_ & Hdata & Htext).
  split.
  - apply (Htext plain_birds_button _ "Birds"); reflexivity.
  - apply (Hdata birds_button _ "Birds"); reflexivity.
Defined.

(** ** The theme hook *)

(** X21. The React hook's [setTheme] has no guard: it applies and
    persists the theme it is given even when that is the current theme.
    So on a storage that can be written a [setTheme] with the current
    theme, nothing being persisted before, turns a theme that was only
    detected into a persisted preference, after which a change of the
    platform's preference is no longer followed.  [toggleTheme] flips
    the theme and two toggles restore it.  On mount a valid saved theme
    wins over the platform's; with nothing valid saved and no
    [matchMedia] the mount raises. *)
Theorem useTheme_setTheme_always_persists :
  (forall st newTheme,
     storageThrows (UseTheme.browser st) = false ->
     let st' := UseTheme.setTheme newTheme st in
     UseTheme.theme st' = newTheme
     /\ localStorage (UseTheme.browser st') !! UseTheme.STORAGE_KEY
        = Some (theme_name newTheme)
     /\ UseTheme.loadSavedTheme (UseTheme.browser st') = Some newTheme
     /\ forall matches, UseTheme.handleSystemThemeChange matches st' = st')
  /\ (forall st,
        UseTheme.theme (UseTheme.toggleTheme st) = flip (UseTheme.theme st)
        /\ UseTheme.theme (UseTheme.toggleTheme (UseTheme.toggleTheme st))
           = UseTheme.theme st)
  /\ (forall b saved,
        UseTheme.loadSavedTheme b = Some saved ->
        exists st, UseTheme.mount b = Return st /\ UseTheme.theme st = saved)
  /\ (forall b,
        UseTheme.loadSavedTheme b = None -> prefersDark b = None ->
        exists e, UseTheme.mount b = Throw e).
Proof.
  split; [|split; [|split]].
  - intros [theme b] newTheme Ht st'. subst st'. simpl in Ht.
    assert (UseTheme.loadSavedTheme
              (UseTheme.browser (UseTheme.setTheme newTheme
                                   (UseTheme.mkState theme b)))
            = Some newTheme) as Hsaved.
    { unfold UseTheme.setTheme, UseTheme.saveTheme, UseTheme.applyTheme,
        UseTheme.updateMetaThemeColor, UseTheme.loadSavedTheme.
      destruct newTheme; simpl; rewrite ?Ht; simpl; rewrite ?Ht;
        by rewrite lookup_insert_eq. }
    split; [done|]. split; [|split; [done|]].
    + unfold UseTheme.setTheme, UseTheme.saveTheme, UseTheme.applyTheme,
        UseTheme.updateMetaThemeColor.
      destruct newTheme; simpl; rewrite ?Ht; simpl;
        by rewrite lookup_insert_eq.
    + intros matches. unfold UseTheme.handleSystemThemeChange.
      by rewrite Hsaved.
  - intros [theme b]. split; by destruct theme.
  - intros b saved Hsaved. unfold UseTheme.mount. rewrite Hsaved.
    rewrite bind_Return. by eexists.
  - intros b Hsaved Hplatform. unfold UseTheme.mount, UseTheme.getSystemTheme.
    rewrite Hsaved, Hplatform, bind_Throw. by eexists.
Qed.

(** A first visit on a platform that prefers dark: the hook mounts in
    dark, [setTheme] is called with dark, and the platform turns to
    light. *)
Lemma useTheme_setTheme_always_persists_witness :
  let st := UseTheme.mkState dark (UseTheme.applyTheme dark fresh_dark_platform) in
  UseTheme.mount fresh_dark_platform = Return st
  /\ UseTheme.theme
       (UseTheme.handleSystemThemeChange false (UseTheme.setTheme dark st))
     = dark
  /\ UseTheme.theme (UseTheme.handleSystemThemeChange false st) = light.
Proof.
  intros st. split; [reflexivity|]. split; [|reflexivity].
  destruct (proj1 useTheme_setTheme_always_persists st dark)
    as (_ & _ & _ & H).
  - reflexivity.
  - by rewrite H.
Defined.

(** ** Every way a load can fail *)

(** X19. [DataFetcher.fetchEvents] either returns, and then the events
    are sorted by year and checked, or fails, and then the caller never
    sees the failure itself.  Whether the request got no answer, the
    status was not ok (the body is not read then), the body did not
    parse or the payload did not validate, the caller gets a
    [TimelineError] of code FETCH_ERROR whose message is "Failed to load
    timeline data: " followed by the failure's message, with the failure
    attached; or, where [TimelineError] is unbound, always the same
    ReferenceError. *)
Theorem every_load_failure_is_wrapped :
  forall fetched,
    (exists events,
       (forall bound, DataFetcher.fetchEvents bound fetched = Return events)
       /\ sorted_by_year events /\ Forall checked_event events)
    \/ (exists e,
          DataFetcher.fetchEvents true fetched
          = Throw (TimelineError
                     ("Failed to load timeline data: " +:+ message e)
                     "FETCH_ERROR" (Some e))
          /\ DataFetcher.fetchEvents false fetched
             = Throw (ReferenceError "TimelineError is not defined")
          /\ (fetched = Throw e
              \/ (exists response,
                    fetched = Return response /\ ok response = false
                    /\ e = PlainError ("HTTP " +:+ pretty (status response)
                                       +:+ ": " +:+ statusText response))
              \/ (exists response,
                    fetched = Return response /\ ok response = true
                    /\ json response = Throw e)
              \/ (exists response data,
                    fetched = Return response /\ ok response = true
                    /\ json response = Return data
                    /\ DataFetcher.validateResponse data = Throw e))).
Proof.
  intros fetched. unfold DataFetcher.fetchEvents, DataFetcher.createTimelineError.
  destruct fetched as [response|e]; rewrite ?bind_Return, ?bind_Throw.
  2: { right. exists e. repeat split; by left. }
  destruct (ok response) eqn:Hok; cbn [negb].
  2: { right. eexists. rewrite ?bind_Return, ?bind_Throw.
       split; [reflexivity|]. split; [reflexivity|].
       right; left. by exists response. }
  destruct (json response) as [data|e] eqn:Hjson;
    rewrite ?bind_Return, ?bind_Throw.
  2: { right. exists e. repeat split. right; right; left. by exists response. }
  destruct (DataFetcher.validateResponse data) as [validated|e] eqn:Hval;
    rewrite ?bind_Return, ?bind_Throw.
  2: { right. exists e. repeat split. right; right; right.
       by exists response, data. }
  left. exists (DataFetcher.sortEventsByYear validated).
  split; [done|].
  pose proof (validateResponse_checked _ _ Hval) as Hchecked. split.
  - apply sortEventsByYear_spec.
    eapply Forall_impl; [exact Hchecked|].
    intros e He. apply isFinite_not_NaN, He.
  - unfold DataFetcher.sortEventsByYear. by rewrite (sort_perm year).
Qed.
